(** * Game recommendation engine: ranking and allocation core

    A shallow embedding of the TypeScript sources
    (eligibilityFilter.ts, scoringEngine.ts, diversityPass.ts,
    bucketOrganizer.ts, chartGenerator.ts, candidateGenerator.ts,
    recommendationEngine.ts, types.ts, config.ts) and the properties the
    specification states about them.

    Conventions of the embedding.
    - A JavaScript [number] that carries a measurement (scores, weights,
      thresholds, counters) is a rational [Q]; [NaN], the infinities and
      the rounding of doubles are outside the model, so nothing is stated
      that rests on the order in which a sum is added up.  A [number] that is used as a count, an index, a
      limit or a genre identifier is an integer [Z], and what
      [Array.prototype.slice] does with a negative bound is written out.
    - [Map<K,V>] is a [gmap K V], [Set<K>] a [gset K], arrays are lists.
    - [Date] values are their [getTime()] milliseconds.
    - [Math.log], [Math.exp] and [Math.sqrt] have no rational counterpart;
      they and the clock are the variables of the sections named [Runtime].
    - The data sources are interfaces in the source; they are records of
      functions here, so a fetch is a function call that returns. *)

From Stdlib Require Import ZArith QArith Qminmax String List Lia Lqa.
From stdpp Require Import base decidable countable gmap strings list sorting.

Local Close Scope Q_scope.
Local Open Scope string_scope.
Local Open Scope list_scope.
Local Open Scope stdpp_scope.
Local Open Scope Z_scope.

(** ** types.ts *)

Inductive AgeBand := UNDER_9 | AGE_9_TO_12 | AGE_13_PLUS.
Inductive Platform := PC | MOBILE | VR | CONSOLE.
Inductive GameFeature :=
  VOICE_CHAT | TEXT_CHAT | MULTIPLAYER | SINGLE_PLAYER | LOW_INTENSITY.

#[global] Instance AgeBand_eq_dec : EqDecision AgeBand.
Proof. solve_decision. Defined.
#[global] Instance Platform_eq_dec : EqDecision Platform.
Proof. solve_decision. Defined.
#[global] Instance GameFeature_eq_dec : EqDecision GameFeature.
Proof. solve_decision. Defined.

Definition AgeBand_code (a : AgeBand) : nat :=
  match a with UNDER_9 => 0 | AGE_9_TO_12 => 1 | AGE_13_PLUS => 2 end%nat.
Definition AgeBand_of_code (n : nat) : AgeBand :=
  match n with O => UNDER_9 | S O => AGE_9_TO_12 | _ => AGE_13_PLUS end.
#[global] Instance AgeBand_countable : Countable AgeBand.
Proof.
  apply (inj_countable' AgeBand_code AgeBand_of_code).
  intros []; reflexivity.
Defined.

Definition GameFeature_code (f : GameFeature) : nat :=
  match f with
  | VOICE_CHAT => 0 | TEXT_CHAT => 1 | MULTIPLAYER => 2
  | SINGLE_PLAYER => 3 | LOW_INTENSITY => 4
  end%nat.
Definition GameFeature_of_code (n : nat) : GameFeature :=
  match n with
  | 0 => VOICE_CHAT | 1 => TEXT_CHAT | 2 => MULTIPLAYER
  | 3 => SINGLE_PLAYER | _ => LOW_INTENSITY
  end%nat.
#[global] Instance GameFeature_countable : Countable GameFeature.
Proof.
  apply (inj_countable' GameFeature_code GameFeature_of_code).
  intros []; reflexivity.
Defined.

(** [GenreId = number] is [Z], [GameId = string]; a [GenreVector] is a
    [gmap Z Q]. *)

Record UserContext := {
  userId : string;
  ageBand : AgeBand;
  platform : Platform;
  userGenreVector : gmap Z Q;
}.

(** [favouritedGames] is read by scoringEngine.ts. *)
Record UserHistory := {
  longPlayGames : list string;
  likedGames : list string;
  favouritedGames : list string;
  heavilyPlayed : gset string;
}.

(** [creationDate] and [dislikes] are read by scoringEngine.ts. *)
Record Game := {
  gameId : string;
  minAgeBand : AgeBand;
  moderationScore : Q;
  releaseDate : Z;
  creationDate : Z;
  isSponsored : bool;
  sponsoredAmount : Q;
  genreVector : gmap Z Q;
  features : gset GameFeature;
  playsByAgeBand : gmap AgeBand Q;
  totalSessions : Q;
  uniquePlayers : Q;
  currentSessions : Q;
  totalRevenue : Q;
  likes : Q;
  dislikes : Q;
  totalPlays : Q;
}.

(** The nine labelled signals; the same labels name the weights. *)
Module Signals.
Record t := {
  genreAffinity : Q;
  ageBandPopularity : Q;
  engagementSimilarity : Q;
  favouriteAffinity : Q;
  communityRating : Q;
  recencyBoost : Q;
  sponsoredBoost : Q;
  repetitionPenalty : Q;
  creationRecencyPenalty : Q;
}.
End Signals.

Record ScoredGame := {
  game : Game;
  score : Q;
  breakdown : Signals.t;
}.

Record RecommendationBucket := {
  id : string;
  title : string;
  games : list string;
}.

Record ChartEntry := {
  entryGameId : string;
  entryScore : Q;
  rank : Z;
}.

Record DiversityRules := {
  minGenres : Z;
  maxPerGenre : Z;
  requireLowIntensity : bool;
  avoidAllMultiplayer : bool;
}.

Record RecommendationConfig := {
  weights : Signals.t;
  moderationThreshold : Q;
  recencyDecayDays : Q;
  creationGracePeriodDays : Q;
  creationPenaltyMaxDays : Q;
  sponsoredAmountMultiplier : Q;
  maxSponsoredBoost : Q;
  maxResults : Z;
  maxSponsoredPerList : Z;
  diversityRules : DiversityRules;
}.

(** ** config.ts *)

Definition DEFAULT_CONFIG : RecommendationConfig := {|
  weights := {|
    Signals.genreAffinity := 1;
    Signals.ageBandPopularity := 8 # 10;
    Signals.engagementSimilarity := 9 # 10;
    Signals.favouriteAffinity := 12 # 10;
    Signals.communityRating := 7 # 10;
    Signals.recencyBoost := 5 # 10;
    Signals.sponsoredBoost := 3 # 10;
    Signals.repetitionPenalty := 2;
    Signals.creationRecencyPenalty := 15 # 10;
  |};
  moderationThreshold := 8 # 10;
  recencyDecayDays := 90;
  creationGracePeriodDays := 7;
  creationPenaltyMaxDays := 30;
  sponsoredAmountMultiplier := 1 # 1000;
  maxSponsoredBoost := 2;
  maxResults := 50;
  maxSponsoredPerList := 3;
  diversityRules := {|
    minGenres := 2;
    maxPerGenre := 5;
    requireLowIntensity := true;
    avoidAllMultiplayer := true;
  |};
|}.

(** ** eligibilityFilter.ts *)

Module EligibilityFilter.

(** [EligibilityConfig]: the filter's own copy of the threshold. *)
Record EligibilityConfig := { moderationThreshold : Q }.

Definition ageBandOrder (a : AgeBand) : Z :=
  match a with
  | UNDER_9 => 0
  | AGE_9_TO_12 => 1
  | AGE_13_PLUS => 2
  end.

Definition isAgeBandEligible (g : Game) (userAgeBand : AgeBand) : bool :=
  ageBandOrder (minAgeBand g) <=? ageBandOrder userAgeBand.

Definition passesModeration (config : EligibilityConfig) (g : Game) : bool :=
  Qle_bool (moderationThreshold config) (moderationScore g).

Definition checkFeatureRestrictions (g : Game) (userAgeBand : AgeBand) : bool :=
  if negb (bool_decide (userAgeBand = AGE_13_PLUS)) then
    if bool_decide (VOICE_CHAT ∈ features g) then false else true
  else true.

(** One turn of the [for] loop of [filterEligible]: the three [continue]
    guards, then the [push]. *)
Definition filterStep (config : EligibilityConfig) (userContext : UserContext)
    (eligible : list Game) (g : Game) : list Game :=
  if negb (isAgeBandEligible g (ageBand userContext)) then eligible
  else if negb (passesModeration config g) then eligible
  else if negb (checkFeatureRestrictions g (ageBand userContext)) then eligible
  else eligible ++ [g].

Definition filterEligible (config : EligibilityConfig)
    (candidates : list Game) (userContext : UserContext) : list Game :=
  fold_left (filterStep config userContext) candidates [].

Definition isEligible (config : EligibilityConfig) (g : Game)
    (userContext : UserContext) : bool :=
  isAgeBandEligible g (ageBand userContext)
  && passesModeration config g
  && checkFeatureRestrictions g (ageBand userContext).

End EligibilityFilter.

(** ** Array.prototype helpers *)

(** [Array.prototype.sort(compareFn)] is stable (ECMAScript 2019): an
    element moves behind a later one only when [compareFn] of the two is
    positive.  For a comparator that is a consistent ordering the stable
    sorted arrangement is unique; it is computed here by insertion. *)
Fixpoint Array_sort_insert {A} (compareFn : A -> A -> Q) (x : A) (l : list A)
    : list A :=
  match l with
  | [] => [x]
  | y :: l' =>
      match (0 ?= compareFn x y)%Q with
      | Lt => y :: Array_sort_insert compareFn x l'
      | _ => x :: l
      end
  end.

Definition Array_sort {A} (compareFn : A -> A -> Q) (l : list A) : list A :=
  foldr (Array_sort_insert compareFn) [] l.

(** [arr.slice(0, finish)]: a negative [finish] counts from the end of the
    array, and the bounds are clamped to the array. *)
Definition Array_slice0 {A} (l : list A) (finish : Z) : list A :=
  let len := Z.of_nat (length l) in
  let k := if finish <? 0 then Z.max (len + finish) 0 else Z.min finish len in
  take (Z.to_nat k) l.

(** ** scoringEngine.ts *)

Module ScoringEngine.
Section Runtime.

(** The numeric library and the clock ([new Date().getTime()], read once
    per request in the model). *)
Variables Math_log Math_exp Math_sqrt : Q -> Q.
Variable Date_now : Z.

Definition msPerDay : Z := 1000 * 60 * 60 * 24.

(** [Math.floor((now - d) / msPerDay)]. *)
Definition daysSince (d : Z) : Z := (Date_now - d) / msPerDay.

(** [allGenres] is walked in the order of the keys here, in the [Map]s'
    insertion order in the source; the three sums are exact, so their
    values (as rationals, up to [==]) are the same in either order. *)
Definition cosineSimilarity (vec1 vec2 : gmap Z Q) : Q :=
  let allGenres := elements (dom vec1 ∪ dom vec2) in
  let '(dotProduct, magnitude1, magnitude2) :=
    fold_left
      (fun (acc : Q * Q * Q) (genreId : Z) =>
         let '(dotProduct, magnitude1, magnitude2) := acc in
         let weight1 := default 0%Q (vec1 !! genreId) in
         let weight2 := default 0%Q (vec2 !! genreId) in
         (dotProduct + weight1 * weight2,
          magnitude1 + weight1 * weight1,
          magnitude2 + weight2 * weight2)%Q)
      allGenres (0%Q, 0%Q, 0%Q) in
  let magnitude1 := Math_sqrt magnitude1 in
  let magnitude2 := Math_sqrt magnitude2 in
  if Qeq_bool magnitude1 0 || Qeq_bool magnitude2 0 then 0%Q
  else (dotProduct / (magnitude1 * magnitude2))%Q.

Definition computeGenreAffinity (userVector gameVector : gmap Z Q) : Q :=
  cosineSimilarity userVector gameVector.

Definition computeAgeBandPopularity (g : Game) (a : AgeBand) : Q :=
  let plays := default 0%Q (playsByAgeBand g !! a) in
  Math_log (1 + plays)%Q.

Definition averageSimilarityToList (g : Game) (gameIds : list string) : Q :=
  if (0 <? length gameIds)%nat then (3 # 10)%Q else 0%Q.

Definition computeEngagementSimilarity (g : Game) (userHistory : UserHistory) : Q :=
  let longPlaySimilarity := averageSimilarityToList g (longPlayGames userHistory) in
  let likedSimilarity := averageSimilarityToList g (likedGames userHistory) in
  ((longPlaySimilarity + likedSimilarity) / 2)%Q.

Definition computeFavouriteAffinity (g : Game) (userHistory : UserHistory) : Q :=
  let favouriteSimilarity := averageSimilarityToList g (favouritedGames userHistory) in
  (favouriteSimilarity * (15 # 10))%Q.

Definition computeCommunityRating (g : Game) : Q :=
  let totalReactions := (likes g + dislikes g)%Q in
  if Qeq_bool totalReactions 0 then 0%Q
  else
    let ratio := ((likes g - dislikes g) / totalReactions)%Q in
    let confidence :=
      Qmin 1 (Math_log (1 + totalReactions) / Math_log 1000)%Q in
    (ratio * confidence)%Q.

Definition computeRecencyBoost (config : RecommendationConfig) (g : Game) : Q :=
  let daysSinceRelease := daysSince (releaseDate g) in
  Math_exp (- inject_Z daysSinceRelease / recencyDecayDays config)%Q.

Definition computeSponsoredBoost (config : RecommendationConfig) (g : Game) : Q :=
  if negb (isSponsored g) || Qle_bool (sponsoredAmount g) 0 then 0%Q
  else
    let rawBoost := (sponsoredAmount g * sponsoredAmountMultiplier config)%Q in
    Qmin rawBoost (maxSponsoredBoost config).

Definition computeRepetitionPenalty (g : Game) (userHistory : UserHistory) : Q :=
  if bool_decide (gameId g ∈ heavilyPlayed userHistory) then 1%Q else 0%Q.

Definition computeCreationRecencyPenalty (config : RecommendationConfig)
    (g : Game) : Q :=
  let daysSinceCreation := inject_Z (daysSince (creationDate g)) in
  if negb (Qle_bool (creationGracePeriodDays config) daysSinceCreation) then 1%Q
  else if Qle_bool (creationPenaltyMaxDays config) daysSinceCreation then 0%Q
  else
    let decayRange :=
      (creationPenaltyMaxDays config - creationGracePeriodDays config)%Q in
    let daysInDecay := (daysSinceCreation - creationGracePeriodDays config)%Q in
    (1 - daysInDecay / decayRange)%Q.

Definition computeBreakdown (config : RecommendationConfig) (g : Game)
    (userContext : UserContext) (userHistory : UserHistory) : Signals.t := {|
  Signals.genreAffinity :=
    computeGenreAffinity (userGenreVector userContext) (genreVector g);
  Signals.ageBandPopularity := computeAgeBandPopularity g (ageBand userContext);
  Signals.engagementSimilarity := computeEngagementSimilarity g userHistory;
  Signals.favouriteAffinity := computeFavouriteAffinity g userHistory;
  Signals.communityRating := computeCommunityRating g;
  Signals.recencyBoost := computeRecencyBoost config g;
  Signals.sponsoredBoost := computeSponsoredBoost config g;
  Signals.repetitionPenalty := computeRepetitionPenalty g userHistory;
  Signals.creationRecencyPenalty := computeCreationRecencyPenalty config g;
|}.

Definition compositeScore (w b : Signals.t) : Q :=
  (Signals.genreAffinity w * Signals.genreAffinity b
   + Signals.ageBandPopularity w * Signals.ageBandPopularity b
   + Signals.engagementSimilarity w * Signals.engagementSimilarity b
   + Signals.favouriteAffinity w * Signals.favouriteAffinity b
   + Signals.communityRating w * Signals.communityRating b
   + Signals.recencyBoost w * Signals.recencyBoost b
   + Signals.sponsoredBoost w * Signals.sponsoredBoost b
   - Signals.repetitionPenalty w * Signals.repetitionPenalty b
   - Signals.creationRecencyPenalty w * Signals.creationRecencyPenalty b)%Q.

(** The body of the [for] loop of [scoreGames]. *)
Definition scoreGame (config : RecommendationConfig) (userContext : UserContext)
    (userHistory : UserHistory) (g : Game) : ScoredGame :=
  let breakdown := computeBreakdown config g userContext userHistory in
  let score := compositeScore (weights config) breakdown in
  {| game := g; score := score; breakdown := breakdown |}.

(** The comparator [(a, b) => b.score - a.score]. *)
Definition byScoreDescending (a b : ScoredGame) : Q := (score b - score a)%Q.

Definition scoreGames (config : RecommendationConfig) (eligibleGames : list Game)
    (userContext : UserContext) (userHistory : UserHistory) : list ScoredGame :=
  let scoredGames :=
    fold_left
      (fun scoredGames g =>
         scoredGames ++ [scoreGame config userContext userHistory g])
      eligibleGames [] in
  Array_sort byScoreDescending scoredGames.

End Runtime.
End ScoringEngine.

(** ** diversityPass.ts *)

Module DiversityPass.

(** What [ensureMinimumRequirements] writes with [console.warn]. *)
Inductive Warning :=
| OnlyGenres (uniqueGenres minimum : Z)
| NoLowIntensity.

(** [for (const [genreId] of scoredGame.game.genreVector)]: the keys of
    the map, each once. *)
Definition genreIds (sg : ScoredGame) : list Z :=
  (map_to_list (genreVector (game sg))).*1.

Definition violatesMaxPerGenre (config : RecommendationConfig)
    (scoredGame : ScoredGame) (genreCounts : gmap Z Z) : bool :=
  let maxPerGenre := maxPerGenre (diversityRules config) in
  existsb
    (fun genreId =>
       let count := default 0 (genreCounts !! genreId) in
       count >=? maxPerGenre)
    (genreIds scoredGame).

Definition hasFeature (f : GameFeature) (sg : ScoredGame) : bool :=
  bool_decide (f ∈ features (game sg)).

Definition violatesAllMultiplayer (config : RecommendationConfig)
    (scoredGame : ScoredGame) (diversified : list ScoredGame) : bool :=
  if negb (avoidAllMultiplayer (diversityRules config)) then false
  else if hasFeature MULTIPLAYER scoredGame then
    let allMultiplayer := forallb (hasFeature MULTIPLAYER) diversified in
    if allMultiplayer && (0 <? length diversified)%nat then true else false
  else false.

Definition violatesDiversityRules (config : RecommendationConfig)
    (scoredGame : ScoredGame) (diversified : list ScoredGame)
    (genreCounts : gmap Z Z) : bool :=
  if violatesMaxPerGenre config scoredGame genreCounts then true
  else if violatesAllMultiplayer config scoredGame diversified then true
  else false.

Definition updateGenreCounts (scoredGame : ScoredGame)
    (genreCounts : gmap Z Z) : gmap Z Z :=
  fold_left
    (fun genreCounts genreId =>
       let current := default 0 (genreCounts !! genreId) in
       <[genreId := current + 1]> genreCounts)
    (genreIds scoredGame) genreCounts.

(** The [for] loop of [diversify], with its [continue] and its [break];
    the state is the array [diversified] and the map [genreCounts]. *)
Fixpoint diversifyLoop (config : RecommendationConfig)
    (sortedGames : list ScoredGame) (diversified : list ScoredGame)
    (genreCounts : gmap Z Z) : list ScoredGame * gmap Z Z :=
  match sortedGames with
  | [] => (diversified, genreCounts)
  | scoredGame :: rest =>
      if violatesDiversityRules config scoredGame diversified genreCounts
      then diversifyLoop config rest diversified genreCounts
      else
        let diversified := diversified ++ [scoredGame] in
        let genreCounts := updateGenreCounts scoredGame genreCounts in
        if Z.of_nat (length diversified) >=? maxResults config
        then (diversified, genreCounts)
        else diversifyLoop config rest diversified genreCounts
  end.

Definition countUniqueGenres (diversified : list ScoredGame) : Z :=
  let genres : gset Z :=
    fold_left
      (fun genres scoredGame =>
         fold_left (fun genres genreId => {[genreId]} ∪ genres)
           (genreIds scoredGame) genres)
      diversified ∅ in
  Z.of_nat (size genres).

(** [ensureMinimumRequirements] receives the array by reference and
    returns nothing: the result is the array as the call leaves it and
    the lines written to the console. *)
Definition ensureMinimumRequirements (config : RecommendationConfig)
    (diversified : list ScoredGame) : list ScoredGame * list Warning :=
  let uniqueGenres := countUniqueGenres diversified in
  let console1 :=
    if uniqueGenres <? minGenres (diversityRules config)
    then [OnlyGenres uniqueGenres (minGenres (diversityRules config))]
    else [] in
  let console2 :=
    if requireLowIntensity (diversityRules config) then
      let hasLowIntensity := existsb (hasFeature LOW_INTENSITY) diversified in
      if negb hasLowIntensity then [NoLowIntensity] else []
    else [] in
  (diversified, console1 ++ console2).

(** [diversify]: the returned array and the console output. *)
Definition diversify (config : RecommendationConfig)
    (sortedGames : list ScoredGame) : list ScoredGame * list Warning :=
  let '(diversified, _) := diversifyLoop config sortedGames [] ∅ in
  ensureMinimumRequirements config diversified.

Definition getGenreStats (l : list ScoredGame) : gmap Z Z :=
  fold_left (fun stats scoredGame => updateGenreCounts scoredGame stats) l ∅.

End DiversityPass.

(** ** bucketOrganizer.ts *)

Module SponsoredInjector.

Definition calculateInjectionSlots (organicCount sponsoredCount : Z) : list Z :=
  let spacing := organicCount / (sponsoredCount + 1) in
  fold_left (fun slots i => slots ++ [spacing * (i + 1) + i])
    (seqZ 0 sponsoredCount) [].

Definition gameIdOf (sg : ScoredGame) : string := gameId (game sg).

(** The state of the merge loop: [result], [sponsoredIndex],
    [organicIndex]. *)
Definition mergeStep (diversifiedGames eligibleSponsored : list ScoredGame)
    (slots : list Z) (st : list ScoredGame * nat * nat) (i : Z)
    : list ScoredGame * nat * nat :=
  let '(result, sponsoredIndex, organicIndex) := st in
  if bool_decide (i ∈ slots) && (sponsoredIndex <? length eligibleSponsored)%nat
  then
    match eligibleSponsored !! sponsoredIndex with
    | Some sg => (result ++ [sg], S sponsoredIndex, organicIndex)
    | None => st
    end
  else if (organicIndex <? length diversifiedGames)%nat then
    match diversifiedGames !! organicIndex with
    | Some sg => (result ++ [sg], sponsoredIndex, S organicIndex)
    | None => st
    end
  else st.

(** [existingIds] and the candidates that survive
    [.filter((sg) => !existingIds.has(sg.game.gameId))]. *)
Definition existingIds (diversifiedGames : list ScoredGame) : gset string :=
  list_to_set (gameIdOf <$> diversifiedGames).

Definition notAlreadyListed (diversifiedGames sponsoredGames : list ScoredGame)
    : list ScoredGame :=
  List.filter
    (fun sg => negb (bool_decide (gameIdOf sg ∈ existingIds diversifiedGames)))
    sponsoredGames.

Definition injectSponsored (maxSponsoredPerList : Z)
    (diversifiedGames sponsoredGames : list ScoredGame) : list ScoredGame :=
  let eligibleSponsored :=
    Array_slice0 (notAlreadyListed diversifiedGames sponsoredGames)
      maxSponsoredPerList in
  if (length eligibleSponsored =? 0)%nat then diversifiedGames
  else
    let slots :=
      calculateInjectionSlots (Z.of_nat (length diversifiedGames))
        (Z.of_nat (length eligibleSponsored)) in
    let '(result, _, _) :=
      fold_left (mergeStep diversifiedGames eligibleSponsored slots)
        (seqZ 0 (Z.of_nat (length diversifiedGames + length eligibleSponsored)))
        ([], O, O) in
    result.

End SponsoredInjector.

Module BucketOrganizer.

Definition createBucket (id title : string) (l : list ScoredGame)
    : RecommendationBucket :=
  {| id := id; title := title; games := SponsoredInjector.gameIdOf <$> l |}.

Definition organizeBuckets
    (recommendedGames popularGames trendingGames sponsoredGames : list ScoredGame)
    : list RecommendationBucket :=
  let buckets := [] in
  let buckets :=
    if (0 <? length recommendedGames)%nat
    then buckets ++ [createBucket "recommended_for_you" "Recommended For You"
                       recommendedGames]
    else buckets in
  let buckets :=
    if (0 <? length popularGames)%nat
    then buckets ++ [createBucket "popular_by_age" "Popular in Your Age Group"
                       popularGames]
    else buckets in
  let buckets :=
    if (0 <? length trendingGames)%nat
    then buckets ++ [createBucket "new_and_trending" "New & Trending"
                       trendingGames]
    else buckets in
  let buckets :=
    if (0 <? length sponsoredGames)%nat
    then buckets ++ [createBucket "sponsored_events" "Sponsored Events"
                       sponsoredGames]
    else buckets in
  buckets.

(** The callback of [bucket.games.filter(...)] in [mergeBuckets]: it
    reads and extends [seenGameIds]; the state is that set and the games
    kept so far. *)
Definition keepUnseen (st : gset string * list string) (gameId : string)
    : gset string * list string :=
  let '(seenGameIds, uniqueGames) := st in
  if bool_decide (gameId ∈ seenGameIds) then (seenGameIds, uniqueGames)
  else ({[gameId]} ∪ seenGameIds, uniqueGames ++ [gameId]).

(** One turn of the [for] loop of [mergeBuckets]. *)
Definition mergeBucket (st : gset string * list RecommendationBucket)
    (bucket : RecommendationBucket) : gset string * list RecommendationBucket :=
  let '(seenGameIds, mergedBuckets) := st in
  let '(seenGameIds, uniqueGames) :=
    fold_left keepUnseen (games bucket) (seenGameIds, []) in
  if (0 <? length uniqueGames)%nat
  then (seenGameIds,
        mergedBuckets
        ++ [{| id := id bucket; title := title bucket; games := uniqueGames |}])
  else (seenGameIds, mergedBuckets).

Definition mergeBuckets (buckets : list RecommendationBucket)
    : list RecommendationBucket :=
  (fold_left mergeBucket buckets (∅, [])).2.

End BucketOrganizer.

(** ** candidateGenerator.ts *)

Module CandidateGenerator.

(** The [CandidateDataSource] interface. *)
Record CandidateDataSource := {
  getTopGamesByGenres : gmap Z Q -> Z -> list Game;
  getPopularGamesByAgeBand : AgeBand -> Z -> list Game;
  getTrendingGames : Z -> list Game;
  getEditorialPicks : Z -> list Game;
  getSponsoredGames : Z -> list Game;
}.

Record t := {
  dataSource : CandidateDataSource;
  sponsoredEnabled : bool;
}.

(** [candidateSet] is a [Map<GameId, Game>]; its [values()] come out in
    insertion order, so it is kept as the list of its entries. *)
Definition has (candidateSet : list (string * Game)) (k : string) : bool :=
  existsb (fun e => bool_decide (e.1 = k)) candidateSet.

Definition addToCandidateSet (candidateSet : list (string * Game))
    (l : list Game) : list (string * Game) :=
  fold_left
    (fun candidateSet g =>
       if negb (has candidateSet (gameId g))
       then candidateSet ++ [(gameId g, g)]
       else candidateSet)
    l candidateSet.

Definition generateCandidates (this : t) (userContext : UserContext)
    : list Game :=
  let candidateSet := [] in
  let genreGames :=
    getTopGamesByGenres (dataSource this) (userGenreVector userContext) 50 in
  let candidateSet := addToCandidateSet candidateSet genreGames in
  let popularGames :=
    getPopularGamesByAgeBand (dataSource this) (ageBand userContext) 50 in
  let candidateSet := addToCandidateSet candidateSet popularGames in
  let trendingGames := getTrendingGames (dataSource this) 30 in
  let candidateSet := addToCandidateSet candidateSet trendingGames in
  let editorialGames := getEditorialPicks (dataSource this) 20 in
  let candidateSet := addToCandidateSet candidateSet editorialGames in
  let candidateSet :=
    if sponsoredEnabled this then
      let sponsoredGames := getSponsoredGames (dataSource this) 15 in
      addToCandidateSet candidateSet sponsoredGames
    else candidateSet in
  candidateSet.*2.

Definition popularGamesByAgeBand (this : t) (a : AgeBand) (limit : Z)
    : list Game :=
  getPopularGamesByAgeBand (dataSource this) a limit.

End CandidateGenerator.

(** ** chartGenerator.ts *)

Module GameMetrics.
Record t := {
  playsLast7Days : Q;
  playsPrev7Days : Q;
  playsLast30Days : Q;
  totalSessions : Q;
  uniquePlayers : Q;
  currentSessions : Q;
  totalRevenue : Q;
  likes : Q;
  dislikes : Q;
  favourites : Q;
  totalPlays : Q;
}.
End GameMetrics.

Module ChartGenerator.

(** The [ChartDataSource] interface. *)
Record ChartDataSource := {
  getGameMetrics : string -> AgeBand -> Platform -> GameMetrics.t;
  fetchGamesByAgeAndPlatform : AgeBand -> Platform -> list Game;
}.

Definition byEntryScoreDescending (a b : ChartEntry) : Q :=
  (entryScore b - entryScore a)%Q.

(** The tail every chart shares:
    [chartList.sort((a, b) => b.score - a.score)] and then
    [chartList.slice(0, limit).map((entry, index) => ({...entry, rank: index + 1}))]. *)
Definition sortSliceRank (chartList : list ChartEntry) (limit : Z)
    : list ChartEntry :=
  imap
    (fun index entry =>
       {| entryGameId := entryGameId entry;
          entryScore := entryScore entry;
          rank := Z.of_nat index + 1 |})
    (Array_slice0 (Array_sort byEntryScoreDescending chartList) limit).

(** The loop every chart shares: [scoreOf] is the body up to the
    [push]; [None] is its [continue]. *)
Definition collect (scoreOf : Game -> option Q) (candidates : list Game)
    : list ChartEntry :=
  fold_left
    (fun chartList g =>
       match scoreOf g with
       | Some s =>
           chartList ++ [{| entryGameId := gameId g; entryScore := s; rank := 0 |}]
       | None => chartList
       end)
    candidates [].

Definition growthScore (metrics : GameMetrics.t) : Q :=
  if Qeq_bool (GameMetrics.playsPrev7Days metrics) 0
  then GameMetrics.playsLast7Days metrics
  else ((GameMetrics.playsLast7Days metrics - GameMetrics.playsPrev7Days metrics)
        / GameMetrics.playsPrev7Days metrics)%Q.

Section Runtime.

Variable Math_log : Q -> Q.
Variable Date_now : Z.
Variable this : ChartDataSource.

Definition trendingScore (a : AgeBand) (p : Platform) (g : Game) : option Q :=
  let metrics := getGameMetrics this (gameId g) a p in
  Some (growthScore metrics).

Definition generateTopTrending (a : AgeBand) (p : Platform) (limit : Z)
    : list ChartEntry :=
  let candidates := fetchGamesByAgeAndPlatform this a p in
  sortSliceRank (collect (trendingScore a p) candidates) limit.

Definition upAndComingScore (a : AgeBand) (p : Platform) (g : Game)
    : option Q :=
  let daysSinceRelease := (Date_now - releaseDate g) / (1000 * 60 * 60 * 24) in
  if daysSinceRelease >? 30 then None
  else
    let metrics := getGameMetrics this (gameId g) a p in
    let recencyWeight := (1 - inject_Z daysSinceRelease / 30)%Q in
    let engagementScore :=
      Math_log (1 + GameMetrics.playsLast30Days metrics)%Q in
    Some (recencyWeight * (4 # 10) + engagementScore * (6 # 10))%Q.

Definition generateUpAndComing (a : AgeBand) (p : Platform) (limit : Z)
    : list ChartEntry :=
  let candidates := fetchGamesByAgeAndPlatform this a p in
  sortSliceRank (collect (upAndComingScore a p) candidates) limit.

Definition playingNowScore (a : AgeBand) (p : Platform) (g : Game)
    : option Q :=
  let metrics := getGameMetrics this (gameId g) a p in
  Some (GameMetrics.currentSessions metrics).

Definition generateTopPlayingNow (a : AgeBand) (p : Platform) (limit : Z)
    : list ChartEntry :=
  let candidates := fetchGamesByAgeAndPlatform this a p in
  sortSliceRank (collect (playingNowScore a p) candidates) limit.

Definition replayedScore (a : AgeBand) (p : Platform) (g : Game)
    : option Q :=
  let metrics := getGameMetrics this (gameId g) a p in
  if Qeq_bool (GameMetrics.uniquePlayers metrics) 0 then None
  else
    let replayRate :=
      (GameMetrics.totalSessions metrics / GameMetrics.uniquePlayers metrics)%Q in
    Some replayRate.

Definition generateTopReplayed (a : AgeBand) (p : Platform) (limit : Z)
    : list ChartEntry :=
  let candidates := fetchGamesByAgeAndPlatform this a p in
  sortSliceRank (collect (replayedScore a p) candidates) limit.

Definition earningScore (a : AgeBand) (p : Platform) (g : Game)
    : option Q :=
  let metrics := getGameMetrics this (gameId g) a p in
  Some (GameMetrics.totalRevenue metrics).

Definition generateTopEarning (a : AgeBand) (p : Platform) (limit : Z)
    : list ChartEntry :=
  let candidates := fetchGamesByAgeAndPlatform this a p in
  sortSliceRank (collect (earningScore a p) candidates) limit.

Definition ratedScore (a : AgeBand) (p : Platform) (g : Game) : option Q :=
  let metrics := getGameMetrics this (gameId g) a p in
  let totalReactions :=
    (GameMetrics.likes metrics + GameMetrics.dislikes metrics)%Q in
  if Qeq_bool totalReactions 0 then None
  else
    let ratio :=
      ((GameMetrics.likes metrics - GameMetrics.dislikes metrics)
       / totalReactions)%Q in
    let confidence :=
      Qmin 1 (Math_log (1 + totalReactions) / Math_log 1000)%Q in
    let ratingScore := (ratio * confidence)%Q in
    Some ratingScore.

Definition generateTopRated (a : AgeBand) (p : Platform) (limit : Z)
    : list ChartEntry :=
  let candidates := fetchGamesByAgeAndPlatform this a p in
  sortSliceRank (collect (ratedScore a p) candidates) limit.

Definition generateTrendingInGenre (genreId : Z) (a : AgeBand) (p : Platform)
    (limit : Z) : list ChartEntry :=
  let allCandidates := fetchGamesByAgeAndPlatform this a p in
  let candidates :=
    List.filter (fun g => bool_decide (is_Some (genreVector g !! genreId)))
      allCandidates in
  sortSliceRank (collect (trendingScore a p) candidates) limit.

End Runtime.

End ChartGenerator.

(** ** recommendationEngine.ts *)

Module ChartType.
(** The string-valued enum [ChartType]; at run time a chart type is a
    string, and the [switch] of [generateChart] compares it with these. *)
Definition TOP_TRENDING : string := "TOP_TRENDING".
Definition UP_AND_COMING : string := "UP_AND_COMING".
Definition TOP_PLAYING_NOW : string := "TOP_PLAYING_NOW".
Definition TOP_REPLAYED : string := "TOP_REPLAYED".
Definition TOP_EARNING : string := "TOP_EARNING".
Definition TOP_RATED : string := "TOP_RATED".
Definition TRENDING_IN_GENRE : string := "TRENDING_IN_GENRE".

Definition known : list string :=
  [TOP_TRENDING; UP_AND_COMING; TOP_PLAYING_NOW; TOP_REPLAYED; TOP_EARNING;
   TOP_RATED; TRENDING_IN_GENRE].
End ChartType.

(** How a call ends: with a value, or with [throw new Error(message)]. *)
Inductive Completion (A : Type) :=
| Return (value : A)
| Throw (message : string).
Arguments Return {A} value.
Arguments Throw {A} message.

(** [Partial<RecommendationConfig>]: every top-level field may be absent. *)
Module PartialConfig.
Record t := {
  weights : option Signals.t;
  moderationThreshold : option Q;
  recencyDecayDays : option Q;
  creationGracePeriodDays : option Q;
  creationPenaltyMaxDays : option Q;
  sponsoredAmountMultiplier : option Q;
  maxSponsoredBoost : option Q;
  maxResults : option Z;
  maxSponsoredPerList : option Z;
  diversityRules : option DiversityRules;
}.

Definition empty : t := {|
  weights := None; moderationThreshold := None; recencyDecayDays := None;
  creationGracePeriodDays := None; creationPenaltyMaxDays := None;
  sponsoredAmountMultiplier := None; maxSponsoredBoost := None;
  maxResults := None; maxSponsoredPerList := None; diversityRules := None;
|}.
End PartialConfig.

(** The object spread [{ ...config, ...newConfig }]: a fresh object in
    which the fields present in [newConfig] win. *)
Definition spread (config : RecommendationConfig) (newConfig : PartialConfig.t)
    : RecommendationConfig := {|
  weights := default (weights config) (PartialConfig.weights newConfig);
  moderationThreshold :=
    default (moderationThreshold config) (PartialConfig.moderationThreshold newConfig);
  recencyDecayDays :=
    default (recencyDecayDays config) (PartialConfig.recencyDecayDays newConfig);
  creationGracePeriodDays :=
    default (creationGracePeriodDays config)
      (PartialConfig.creationGracePeriodDays newConfig);
  creationPenaltyMaxDays :=
    default (creationPenaltyMaxDays config)
      (PartialConfig.creationPenaltyMaxDays newConfig);
  sponsoredAmountMultiplier :=
    default (sponsoredAmountMultiplier config)
      (PartialConfig.sponsoredAmountMultiplier newConfig);
  maxSponsoredBoost :=
    default (maxSponsoredBoost config) (PartialConfig.maxSponsoredBoost newConfig);
  maxResults := default (maxResults config) (PartialConfig.maxResults newConfig);
  maxSponsoredPerList :=
    default (maxSponsoredPerList config) (PartialConfig.maxSponsoredPerList newConfig);
  diversityRules :=
    default (diversityRules config) (PartialConfig.diversityRules newConfig);
|}.

Module RecommendationEngine.

(** The fields of a [RecommendationEngine] object.  Each component is
    represented by the state its constructor stored: the filter by its
    [EligibilityConfig], the scoring engine and the diversity pass by
    their config, the injector by its [maxSponsoredPerList], the chart
    generator by its data source; [BucketOrganizer] has no state. *)
Record t := {
  config : RecommendationConfig;
  candidateGenerator : CandidateGenerator.t;
  eligibilityFilter : EligibilityFilter.EligibilityConfig;
  scoringEngine : RecommendationConfig;
  diversityPass : RecommendationConfig;
  sponsoredInjector : Z;
  chartGenerator : ChartGenerator.ChartDataSource;
}.

Definition constructor (config : RecommendationConfig)
    (candidateDataSource : CandidateGenerator.CandidateDataSource)
    (chartDataSource : ChartGenerator.ChartDataSource)
    (sponsoredEnabled : bool) : t := {|
  config := config;
  candidateGenerator :=
    {| CandidateGenerator.dataSource := candidateDataSource;
       CandidateGenerator.sponsoredEnabled := sponsoredEnabled |};
  eligibilityFilter :=
    {| EligibilityFilter.moderationThreshold := moderationThreshold config |};
  scoringEngine := config;
  diversityPass := config;
  sponsoredInjector := maxSponsoredPerList config;
  chartGenerator := chartDataSource;
|}.

Definition getConfig (this : t) : RecommendationConfig := config this.

(** [updateConfig] assigns three fields of [this] and returns nothing:
    the result is the state of the same object after the call. *)
Definition updateConfig (this : t) (newConfig : PartialConfig.t) : t :=
  let config' := spread (config this) newConfig in
  {| config := config';
     candidateGenerator := candidateGenerator this;
     eligibilityFilter := eligibilityFilter this;
     scoringEngine := config';
     diversityPass := config';
     sponsoredInjector := sponsoredInjector this;
     chartGenerator := chartGenerator this |}.

(** Engine objects live in a store and are named by references; a
    method call on a reference reads and writes the object there. *)
Definition new (config : RecommendationConfig)
    (candidateDataSource : CandidateGenerator.CandidateDataSource)
    (chartDataSource : ChartGenerator.ChartDataSource)
    (sponsoredEnabled : bool) (store : gmap positive t)
    : positive * gmap positive t :=
  let ref := fresh (dom store) in
  (ref,
   <[ref := constructor config candidateDataSource chartDataSource
              sponsoredEnabled]> store).

(** [engine.updateConfig(newConfig)] on the object at [ref]: the value
    returned ([void]) and the store afterwards. *)
Definition callUpdateConfig (ref : positive) (newConfig : PartialConfig.t)
    (store : gmap positive t) : unit * gmap positive t :=
  (tt, alter (fun this => updateConfig this newConfig) ref store).

Definition callGetConfig (ref : positive) (store : gmap positive t)
    : option RecommendationConfig :=
  getConfig <$> store !! ref.

Definition zeroBreakdown : Signals.t := {|
  Signals.genreAffinity := 0;
  Signals.ageBandPopularity := 0;
  Signals.engagementSimilarity := 0;
  Signals.favouriteAffinity := 0;
  Signals.communityRating := 0;
  Signals.recencyBoost := 0;
  Signals.sponsoredBoost := 0;
  Signals.repetitionPenalty := 0;
  Signals.creationRecencyPenalty := 0;
|}.

Definition getPopularGames (this : t) (userContext : UserContext)
    : list ScoredGame :=
  let popularGames :=
    CandidateGenerator.popularGamesByAgeBand (candidateGenerator this)
      (ageBand userContext) 20 in
  let eligible :=
    EligibilityFilter.filterEligible (eligibilityFilter this) popularGames
      userContext in
  (fun g => {| game := g; score := 0; breakdown := zeroBreakdown |}) <$> eligible.

(** [!genreId] for an optional number: absent ([undefined]), or present
    and zero. *)
Definition falsy (genreId : option Z) : bool :=
  match genreId with
  | None => true
  | Some n => n =? 0
  end.

Section Runtime.

Variables Math_log Math_exp Math_sqrt : Q -> Q.
Variable Date_now : Z.

Definition getTrendingGames (this : t) (userContext : UserContext)
    : list ScoredGame :=
  let trendingEntries :=
    ChartGenerator.generateTopTrending (chartGenerator this)
      (ageBand userContext) (platform userContext) 20 in
  [].

(** The buckets returned; what the diversity pass writes to the
    console is not part of the result. *)
Definition generateRecommendations (this : t) (userContext : UserContext)
    (userHistory : UserHistory) : list RecommendationBucket :=
  let candidates :=
    CandidateGenerator.generateCandidates (candidateGenerator this)
      userContext in
  let eligible :=
    EligibilityFilter.filterEligible (eligibilityFilter this) candidates
      userContext in
  let scored :=
    ScoringEngine.scoreGames Math_log Math_exp Math_sqrt Date_now
      (scoringEngine this) eligible userContext userHistory in
  let diversified := (DiversityPass.diversify (diversityPass this) scored).1 in
  let sponsoredGames := List.filter (fun sg => isSponsored (game sg)) scored in
  let withSponsored :=
    SponsoredInjector.injectSponsored (sponsoredInjector this) diversified
      sponsoredGames in
  let popularGames := getPopularGames this userContext in
  let trendingGames := getTrendingGames this userContext in
  let buckets :=
    BucketOrganizer.organizeBuckets withSponsored popularGames trendingGames
      sponsoredGames in
  buckets.

Definition generateChart (this : t) (chartType : string) (a : AgeBand)
    (p : Platform) (limit : Z) (genreId : option Z)
    : Completion (list ChartEntry) :=
  let cg := chartGenerator this in
  if String.eqb chartType ChartType.TOP_TRENDING then
    Return (ChartGenerator.generateTopTrending cg a p limit)
  else if String.eqb chartType ChartType.UP_AND_COMING then
    Return (ChartGenerator.generateUpAndComing Math_log Date_now cg a p limit)
  else if String.eqb chartType ChartType.TOP_PLAYING_NOW then
    Return (ChartGenerator.generateTopPlayingNow cg a p limit)
  else if String.eqb chartType ChartType.TOP_REPLAYED then
    Return (ChartGenerator.generateTopReplayed cg a p limit)
  else if String.eqb chartType ChartType.TOP_EARNING then
    Return (ChartGenerator.generateTopEarning cg a p limit)
  else if String.eqb chartType ChartType.TOP_RATED then
    Return (ChartGenerator.generateTopRated Math_log cg a p limit)
  else if String.eqb chartType ChartType.TRENDING_IN_GENRE then
    if falsy genreId
    then Throw "genreId is required for TRENDING_IN_GENRE chart"
    else
      Return (ChartGenerator.generateTrendingInGenre cg (default 0 genreId)
                a p limit)
  else Throw ("Unknown chart type: " ++ chartType).

End Runtime.

End RecommendationEngine.

(** * Sample data *)

Module Samples.

Definition mkGame (name : string) (minAge : AgeBand) (moderation : Q)
    (sponsored : bool) (genre : Z) (fs : gset GameFeature) : Game := {|
  gameId := name;
  minAgeBand := minAge;
  moderationScore := moderation;
  releaseDate := 0;
  creationDate := 0;
  isSponsored := sponsored;
  sponsoredAmount := if sponsored then 1000 else 0;
  genreVector := {[ genre := 1%Q ]};
  features := fs;
  playsByAgeBand := ∅;
  totalSessions := 0;
  uniquePlayers := 0;
  currentSessions := 0;
  totalRevenue := 0;
  likes := 0;
  dislikes := 0;
  totalPlays := 0;
|}.

(** An organic game of genre 1 and a sponsored game of genre 2, both fit
    for every age band. *)
Definition plainGame (name : string) : Game :=
  mkGame name UNDER_9 (9 # 10) false 1 {[ SINGLE_PLAYER ]}.

Definition sponsoredGame (name : string) : Game :=
  mkGame name UNDER_9 (9 # 10) true 2 {[ SINGLE_PLAYER ]}.

Definition scored (g : Game) (s : Q) : ScoredGame :=
  {| game := g; score := s; breakdown := RecommendationEngine.zeroBreakdown |}.

Definition child : UserContext := {|
  userId := "user-123";
  ageBand := AGE_9_TO_12;
  platform := PC;
  userGenreVector := {[ 1 := (8 # 10)%Q ]};
|}.

Definition under9 : UserContext := {|
  userId := "user-7";
  ageBand := UNDER_9;
  platform := MOBILE;
  userGenreVector := ∅;
|}.

Definition noHistory : UserHistory := {|
  longPlayGames := [];
  likedGames := [];
  favouritedGames := [];
  heavilyPlayed := ∅;
|}.

Definition noMetrics : GameMetrics.t := {|
  GameMetrics.playsLast7Days := 0;
  GameMetrics.playsPrev7Days := 0;
  GameMetrics.playsLast30Days := 0;
  GameMetrics.totalSessions := 0;
  GameMetrics.uniquePlayers := 0;
  GameMetrics.currentSessions := 0;
  GameMetrics.totalRevenue := 0;
  GameMetrics.likes := 0;
  GameMetrics.dislikes := 0;
  GameMetrics.favourites := 0;
  GameMetrics.totalPlays := 0;
|}.

(** A chart source with two games that played 5 and 9 times this week. *)
Definition twoGameCharts : ChartGenerator.ChartDataSource := {|
  ChartGenerator.getGameMetrics := fun gid _ _ =>
    {| GameMetrics.playsLast7Days := if String.eqb gid "a" then 5 else 9;
       GameMetrics.playsPrev7Days := 0;
       GameMetrics.playsLast30Days := 0;
       GameMetrics.totalSessions := 0;
       GameMetrics.uniquePlayers := 0;
       GameMetrics.currentSessions := 0;
       GameMetrics.totalRevenue := 0;
       GameMetrics.likes := 0;
       GameMetrics.dislikes := 0;
       GameMetrics.favourites := 0;
       GameMetrics.totalPlays := 0 |};
  ChartGenerator.fetchGamesByAgeAndPlatform := fun _ _ =>
    [plainGame "a"; plainGame "b"];
|}.

Definition noCandidates : CandidateGenerator.CandidateDataSource := {|
  CandidateGenerator.getTopGamesByGenres := fun _ _ => [];
  CandidateGenerator.getPopularGamesByAgeBand := fun _ _ => [];
  CandidateGenerator.getTrendingGames := fun _ => [];
  CandidateGenerator.getEditorialPicks := fun _ => [];
  CandidateGenerator.getSponsoredGames := fun _ => [];
|}.

Definition defaultEngine : RecommendationEngine.t :=
  RecommendationEngine.constructor DEFAULT_CONFIG noCandidates twoGameCharts true.

(** A catalogue in which every source also offers a game the filter must
    reject for [child]: one with voice chat, one under the moderation
    threshold, one for the oldest age band, and a sponsored one with
    voice chat. *)
Definition mixedCandidates : CandidateGenerator.CandidateDataSource := {|
  CandidateGenerator.getTopGamesByGenres := fun _ _ =>
    [plainGame "g1"; mkGame "v1" UNDER_9 (9 # 10) false 1 {[ VOICE_CHAT ]}];
  CandidateGenerator.getPopularGamesByAgeBand := fun _ _ =>
    [plainGame "g2"; mkGame "m1" UNDER_9 (75 # 100) false 1 {[ SINGLE_PLAYER ]}];
  CandidateGenerator.getTrendingGames := fun _ =>
    [mkGame "t1" AGE_13_PLUS (9 # 10) false 3 {[ SINGLE_PLAYER ]}];
  CandidateGenerator.getEditorialPicks := fun _ => [];
  CandidateGenerator.getSponsoredGames := fun _ =>
    [sponsoredGame "s1"; mkGame "s2" UNDER_9 (9 # 10) true 2 {[ VOICE_CHAT ]}];
|}.

Definition mixedEngine : RecommendationEngine.t :=
  RecommendationEngine.constructor DEFAULT_CONFIG mixedCandidates twoGameCharts true.

(** A numeric library for examples; the values are not those of the
    real functions. *)
Definition zeroMath (_ : Q) : Q := 0%Q.

(** A configuration whose grace period outlasts [creationPenaltyMaxDays]. *)
Definition longGrace : RecommendationConfig := {|
  weights := weights DEFAULT_CONFIG;
  moderationThreshold := moderationThreshold DEFAULT_CONFIG;
  recencyDecayDays := recencyDecayDays DEFAULT_CONFIG;
  creationGracePeriodDays := 30;
  creationPenaltyMaxDays := 7;
  sponsoredAmountMultiplier := sponsoredAmountMultiplier DEFAULT_CONFIG;
  maxSponsoredBoost := maxSponsoredBoost DEFAULT_CONFIG;
  maxResults := maxResults DEFAULT_CONFIG;
  maxSponsoredPerList := maxSponsoredPerList DEFAULT_CONFIG;
  diversityRules := diversityRules DEFAULT_CONFIG;
|}.

(** A store with one engine, built from the default configuration, and
    a reconfiguration that lowers [maxResults] to 10. *)
Definition engineRef : positive :=
  (RecommendationEngine.new DEFAULT_CONFIG noCandidates twoGameCharts true ∅).1.
Definition oneEngine : gmap positive RecommendationEngine.t :=
  (RecommendationEngine.new DEFAULT_CONFIG noCandidates twoGameCharts true ∅).2.
Definition tenResults : PartialConfig.t := {|
  PartialConfig.weights := None;
  PartialConfig.moderationThreshold := None;
  PartialConfig.recencyDecayDays := None;
  PartialConfig.creationGracePeriodDays := None;
  PartialConfig.creationPenaltyMaxDays := None;
  PartialConfig.sponsoredAmountMultiplier := None;
  PartialConfig.maxSponsoredBoost := None;
  PartialConfig.maxResults := Some 10;
  PartialConfig.maxSponsoredPerList := None;
  PartialConfig.diversityRules := None;
|}.

End Samples.

(** * Vocabulary of the properties *)

(** The specification's order of the age bands,
    UNDER_9 < AGE_9_TO_12 < AGE_13_PLUS: the position of a band in it. *)
Definition ordinal (a : AgeBand) : Z :=
  match a with
  | UNDER_9 => 0
  | AGE_9_TO_12 => 1
  | AGE_13_PLUS => 2
  end.

(** The comparator [(a, b) => key(b) - key(a)] of a descending sort. *)
Definition descending {A} (key : A -> Q) (a b : A) : Q := (key b - key a)%Q.

(** [a] may stand before [b]. *)
Definition notBelow {A} (key : A -> Q) (a b : A) : Prop := (key b <= key a)%Q.

Definition sameKey {A} (key : A -> Q) (v : Q) (a : A) : bool :=
  Qeq_bool (key a) v.

(** The order the specification asks of entries with equal scores: the
    earlier one has the smaller identifier. *)
Definition tiesAscendingById (l : list ScoredGame) : Prop :=
  forall (i j : nat) (a b : ScoredGame),
    (i < j)%nat -> l !! i = Some a -> l !! j = Some b ->
    (score a == score b)%Q ->
    String.leb (gameId (game a)) (gameId (game b)) = true.

(** The number of items of [l] whose genre vector contains [g]. *)
Definition genreCount (g : Z) (l : list ScoredGame) : nat :=
  length (List.filter
            (fun sg => bool_decide (is_Some (genreVector (game sg) !! g))) l).

(** One turn of the loop of [updateGenreCounts]. *)
Definition bump (counts : gmap Z Z) (g : Z) : gmap Z Z :=
  <[g := default 0 (counts !! g) + 1]> counts.

(** The state of the loop of [diversify]: the counters count the admitted
    items, and no genre is over its cap. *)
Record loopInvariant (config : RecommendationConfig)
    (diversified : list ScoredGame) (genreCounts : gmap Z Z) : Prop := {
  counts_exact : forall g,
    default 0 (genreCounts !! g) = Z.of_nat (genreCount g diversified);
  counts_capped : forall g,
    Z.of_nat (genreCount g diversified)
    <= Z.max 0 (maxPerGenre (diversityRules config));
}.

(** The [j]-th slot that [calculateInjectionSlots] computes. *)
Definition slotAt (organicCount sponsoredCount j : Z) : Z :=
  organicCount / (sponsoredCount + 1) * (j + 1) + j.

(** The merge loop before position [i]: [sponsoredIndex] slots lie behind,
    the next one lies ahead, and [result] holds the first [organicIndex]
    organic and the first [sponsoredIndex] sponsored items, each in
    order. *)
Definition mergeInvariant (organic : ScoredGame -> bool)
    (diversifiedGames eligibleSponsored : list ScoredGame)
    (i : Z) (st : list ScoredGame * nat * nat) : Prop :=
  let n := Z.of_nat (length diversifiedGames) in
  let k := Z.of_nat (length eligibleSponsored) in
  let '(result, sponsoredIndex, organicIndex) := st in
  Z.of_nat sponsoredIndex + Z.of_nat organicIndex = i
  /\ Z.of_nat sponsoredIndex <= k
  /\ Z.of_nat organicIndex <= n
  /\ (Z.of_nat sponsoredIndex < k -> i <= slotAt n k (Z.of_nat sponsoredIndex))
  /\ (forall j, 0 <= j < Z.of_nat sponsoredIndex -> slotAt n k j < i)
  /\ List.filter organic result = take organicIndex diversifiedGames
  /\ List.filter (fun sg => negb (organic sg)) result
     = take sponsoredIndex eligibleSponsored.

(** [sg] carries an identifier that the diversified list already has. *)
Definition alreadyListed (diversifiedGames : list ScoredGame) (sg : ScoredGame)
    : bool :=
  bool_decide
    (SponsoredInjector.gameIdOf sg ∈ SponsoredInjector.existingIds diversifiedGames).

(** What the specification asks of a chart with [passing] candidates:
    scores descending, ranks 1, 2, ..., N in list order, and
    N = min(limit, passing). *)
Definition chartWellFormed (passing : nat) (limit : Z) (out : list ChartEntry)
    : Prop :=
  StronglySorted (fun a b => (entryScore b <= entryScore a)%Q) out
  /\ rank <$> out = seqZ 1 (Z.of_nat (length out))
  /\ Z.of_nat (length out) = Z.min limit (Z.of_nat passing).

(** The candidates that pass each kind's filter. *)
Definition releasedWithin30Days (Date_now : Z) (g : Game) : bool :=
  (Date_now - releaseDate g) / (1000 * 60 * 60 * 24) <=? 30.

Definition hasPlayers (this : ChartGenerator.ChartDataSource) (a : AgeBand)
    (p : Platform) (g : Game) : bool :=
  negb (Qeq_bool
          (GameMetrics.uniquePlayers (ChartGenerator.getGameMetrics this (gameId g) a p))
          0).

Definition hasReactions (this : ChartGenerator.ChartDataSource) (a : AgeBand)
    (p : Platform) (g : Game) : bool :=
  let m := ChartGenerator.getGameMetrics this (gameId g) a p in
  negb (Qeq_bool (GameMetrics.likes m + GameMetrics.dislikes m)%Q 0).

Definition inGenre (genreId : Z) (g : Game) : bool :=
  bool_decide (genreId ∈ dom (genreVector g)).

(** [sg] wraps a game of [pool] that the engine's filter lets through. *)
Definition admitted (this : RecommendationEngine.t) (userContext : UserContext)
    (pool : list Game) (sg : ScoredGame) : Prop :=
  game sg ∈ pool
  /\ EligibilityFilter.isEligible (RecommendationEngine.eligibilityFilter this)
       (game sg) userContext
     = true.

(** The elements of [l] whose key is neither in [seen] nor carried by an
    earlier element of [l]: deduplication by key, first seen wins. *)
Fixpoint firstBy {A} (key : A -> string) (seen : gset string) (l : list A)
    : list A :=
  match l with
  | [] => []
  | x :: l' =>
      if bool_decide (key x ∈ seen) then firstBy key seen l'
      else x :: firstBy key ({[key x]} ∪ seen) l'
  end.

(** What the candidate sources return for a user, in the order
    [generateCandidates] asks them. *)
Definition fetchedCandidates (this : CandidateGenerator.t)
    (userContext : UserContext) : list Game :=
  let ds := CandidateGenerator.dataSource this in
  CandidateGenerator.getTopGamesByGenres ds (userGenreVector userContext) 50
  ++ CandidateGenerator.getPopularGamesByAgeBand ds (ageBand userContext) 50
  ++ CandidateGenerator.getTrendingGames ds 30
  ++ CandidateGenerator.getEditorialPicks ds 20
  ++ (if CandidateGenerator.sponsoredEnabled this
      then CandidateGenerator.getSponsoredGames ds 15 else []).

(** The merge loop before position [i], by position: [result] has [i]
    items, and every sponsored item placed so far sits at its slot. *)
Definition mergePlaced (diversifiedGames eligibleSponsored : list ScoredGame)
    (i : Z) (st : list ScoredGame * nat * nat) : Prop :=
  let n := Z.of_nat (length diversifiedGames) in
  let k := Z.of_nat (length eligibleSponsored) in
  let '(result, sponsoredIndex, organicIndex) := st in
  Z.of_nat (length result) = i
  /\ (forall j : nat,
        (j < sponsoredIndex)%nat ->
        result !! Z.to_nat (slotAt n k (Z.of_nat j)) = eligibleSponsored !! j).

(** Every entry of the chart [out] names a game of [passing] and carries
    the score that [scoreOf] gives that game. *)
Definition chartDrawnFrom (scoreOf : Game -> option Q) (passing : list Game)
    (out : list ChartEntry) : Prop :=
  Forall
    (fun e =>
       exists g, g ∈ passing /\ entryGameId e = gameId g
                 /\ scoreOf g = Some (entryScore e))
    out.

(** The length of a chart cut by [slice(0, limit)] from [passing]
    entries. *)
Definition chartLength (passing : nat) (limit : Z) (out : list ChartEntry)
    : Prop :=
  Z.of_nat (length out)
  = if limit <? 0 then Z.max (Z.of_nat passing + limit) 0
    else Z.min limit (Z.of_nat passing).

(** Two partial configurations applied one after the other, as one: a
    field of [second] wins over the same field of [first]. *)
Definition overlayPartial (first second : PartialConfig.t) : PartialConfig.t :=
  let pick {A} (x y : option A) : option A :=
    match y with Some _ => y | None => x end in
  {| PartialConfig.weights :=
       pick (PartialConfig.weights first) (PartialConfig.weights second);
     PartialConfig.moderationThreshold :=
       pick (PartialConfig.moderationThreshold first)
         (PartialConfig.moderationThreshold second);
     PartialConfig.recencyDecayDays :=
       pick (PartialConfig.recencyDecayDays first)
         (PartialConfig.recencyDecayDays second);
     PartialConfig.creationGracePeriodDays :=
       pick (PartialConfig.creationGracePeriodDays first)
         (PartialConfig.creationGracePeriodDays second);
     PartialConfig.creationPenaltyMaxDays :=
       pick (PartialConfig.creationPenaltyMaxDays first)
         (PartialConfig.creationPenaltyMaxDays second);
     PartialConfig.sponsoredAmountMultiplier :=
       pick (PartialConfig.sponsoredAmountMultiplier first)
         (PartialConfig.sponsoredAmountMultiplier second);
     PartialConfig.maxSponsoredBoost :=
       pick (PartialConfig.maxSponsoredBoost first)
         (PartialConfig.maxSponsoredBoost second);
     PartialConfig.maxResults :=
       pick (PartialConfig.maxResults first) (PartialConfig.maxResults second);
     PartialConfig.maxSponsoredPerList :=
       pick (PartialConfig.maxSponsoredPerList first)
         (PartialConfig.maxSponsoredPerList second);
     PartialConfig.diversityRules :=
       pick (PartialConfig.diversityRules first)
         (PartialConfig.diversityRules second) |}.

(** All game identifiers of a list of buckets, in reading order. *)
Definition bucketGames (buckets : list RecommendationBucket) : list string :=
  concat (games <$> buckets).

(** * Properties *)

(** ** Eligibility *)

Section EligibilityFacts.
Import EligibilityFilter.

Variable config : EligibilityConfig.
Variable userContext : UserContext.

Lemma filterStep_eligible eligible g :
  filterStep config userContext eligible g
  = if isEligible config g userContext then eligible ++ [g] else eligible.
Proof.
  unfold filterStep, isEligible.
  destruct (isAgeBandEligible _ _); simpl; [|reflexivity].
  destruct (passesModeration _ _); simpl; [|reflexivity].
  destruct (checkFeatureRestrictions _ _); reflexivity.
Qed.

Lemma filterEligible_from eligible candidates :
  fold_left (filterStep config userContext) candidates eligible
  = eligible ++ List.filter (fun g => isEligible config g userContext) candidates.
Proof.
  revert eligible.
  induction candidates as [|g rest IH]; intros eligible; simpl.
  - symmetry. apply app_nil_r.
  - rewrite IH, filterStep_eligible.
    destruct (isEligible config g userContext); [|reflexivity].
    rewrite <- app_assoc. reflexivity.
Qed.

Lemma filterEligible_filter candidates :
  filterEligible config candidates userContext
  = List.filter (fun g => isEligible config g userContext) candidates.
Proof. unfold filterEligible. apply filterEligible_from. Qed.

Lemma isEligible_rules g :
  isEligible config g userContext = true <->
    ageBandOrder (minAgeBand g) <= ageBandOrder (ageBand userContext)
    /\ (moderationThreshold config <= moderationScore g)%Q
    /\ (ageBand userContext = AGE_13_PLUS \/ VOICE_CHAT ∉ features g).
Proof.
  unfold isEligible, isAgeBandEligible, passesModeration,
    checkFeatureRestrictions.
  rewrite !andb_true_iff, Z.leb_le, Qle_bool_iff.
  destruct (decide (ageBand userContext = AGE_13_PLUS)) as [Hb|Hb].
  - rewrite (bool_decide_eq_true_2 _ Hb). simpl. tauto.
  - rewrite (bool_decide_eq_false_2 _ Hb). simpl.
    destruct (decide (VOICE_CHAT ∈ features g)) as [Hv|Hv].
    + rewrite (bool_decide_eq_true_2 _ Hv).
      split; [intros [_ ?]; discriminate | intros (_ & _ & [?|?]); tauto].
    + rewrite (bool_decide_eq_false_2 _ Hv). tauto.
Qed.

End EligibilityFacts.

(** The table of [isAgeBandEligible] is the specification's order. *)
Lemma ageBandOrder_ordinal (a : AgeBand) :
  EligibilityFilter.ageBandOrder a = ordinal a.
Proof. destruct a; reflexivity. Qed.

(** C2. [isEligible] holds exactly when the age gate (the item's minimum
    band is not above the user's band in the order
    UNDER_9 < AGE_9_TO_12 < AGE_13_PLUS), the moderation gate and the
    feature gate all pass, and [filterEligible] returns the items
    satisfying [isEligible], in input order; it is a total function, a
    rejected item is left out and nothing is raised. *)
Theorem isEligible_filterEligible_spec
    (config : EligibilityFilter.EligibilityConfig) (userContext : UserContext) :
  (forall g : Game,
      EligibilityFilter.isEligible config g userContext = true <->
        ordinal (minAgeBand g) <= ordinal (ageBand userContext)
        /\ (EligibilityFilter.moderationThreshold config <= moderationScore g)%Q
        /\ (ageBand userContext = AGE_13_PLUS \/ VOICE_CHAT ∉ features g))
  /\ (forall items : list Game,
        EligibilityFilter.filterEligible config items userContext
        = List.filter (fun g => EligibilityFilter.isEligible config g userContext)
            items).
Proof.
  split.
  - intros g. rewrite <- !ageBandOrder_ordinal. apply isEligible_rules.
  - intros items. apply filterEligible_filter.
Qed.

(** ** Sorting by a score, descending *)

Section SortByKey.
Context {A : Type}.
Variable key : A -> Q.

Lemma descending_positive a b :
  (0 ?= (descending key) a b)%Q = Lt <-> (key a < key b)%Q.
Proof.
  unfold descending. rewrite <- Qlt_alt.
  rewrite (Qlt_minus_iff (key a) (key b)). reflexivity.
Qed.

Lemma descending_not_positive a b :
  (0 ?= (descending key) a b)%Q <> Lt -> (key b <= key a)%Q.
Proof.
  intros H. apply Qnot_lt_le. intros Hlt. apply H.
  apply descending_positive. exact Hlt.
Qed.

Lemma sort_insert_perm x l :
  Array_sort_insert (descending key) x l ≡ₚ x :: l.
Proof.
  induction l as [|y l IH]; simpl; [reflexivity|].
  destruct (0 ?= (descending key) x y)%Q; try reflexivity.
  rewrite IH. apply Permutation_swap.
Qed.

Lemma sort_perm l : Array_sort (descending key) l ≡ₚ l.
Proof.
  induction l as [|x l IH]; simpl; [reflexivity|].
  rewrite sort_insert_perm, IH. reflexivity.
Qed.

Lemma sort_insert_sorted x l :
  StronglySorted (notBelow key) l ->
  StronglySorted (notBelow key) (Array_sort_insert (descending key) x l).
Proof.
  induction 1 as [|y l Hl IH Hy]; simpl.
  - repeat constructor.
  - destruct (0 ?= (descending key) x y)%Q eqn:Hc.
    + assert (Hxy : (key y <= key x)%Q)
        by (apply descending_not_positive; congruence).
      constructor; [constructor; assumption|].
      constructor; [exact Hxy|].
      eapply Forall_impl; [exact Hy|].
      intros z Hz. unfold notBelow in *. eapply Qle_trans; eassumption.
    + apply descending_positive in Hc.
      constructor; [exact IH|].
      rewrite sort_insert_perm. constructor; [|exact Hy].
      apply Qlt_le_weak, Hc.
    + assert (Hxy : (key y <= key x)%Q)
        by (apply descending_not_positive; congruence).
      constructor; [constructor; assumption|].
      constructor; [exact Hxy|].
      eapply Forall_impl; [exact Hy|].
      intros z Hz. unfold notBelow in *. eapply Qle_trans; eassumption.
Qed.

Lemma sort_sorted l : StronglySorted (notBelow key) (Array_sort (descending key) l).
Proof.
  induction l as [|x l IH]; simpl; [constructor|].
  apply sort_insert_sorted, IH.
Qed.

(** Stability: insertion never carries an element across one of the
    same score. *)
Lemma sort_insert_stable v x l :
  List.filter (sameKey key v) (Array_sort_insert (descending key) x l)
  = List.filter (sameKey key v) (x :: l).
Proof.
  induction l as [|y l IH]; [reflexivity|].
  cbn [Array_sort_insert].
  destruct (0 ?= (descending key) x y)%Q eqn:Hc; try reflexivity.
  apply descending_positive in Hc.
  cbn [List.filter] in *. rewrite IH.
  unfold sameKey.
  destruct (Qeq_bool (key x) v) eqn:Hx; [|reflexivity].
  destruct (Qeq_bool (key y) v) eqn:Hy; [|reflexivity].
  apply Qeq_bool_iff in Hx, Hy.
  rewrite Hx, Hy in Hc. exfalso. exact (Qlt_irrefl _ Hc).
Qed.

Lemma sort_stable v l :
  List.filter (sameKey key v) (Array_sort (descending key) l) = List.filter (sameKey key v) l.
Proof.
  induction l as [|x l IH]; [reflexivity|].
  cbn [Array_sort foldr]. fold (Array_sort (descending key) l).
  rewrite sort_insert_stable. cbn [List.filter]. rewrite IH. reflexivity.
Qed.

Lemma sort_length l : length (Array_sort (descending key) l) = length l.
Proof. apply Permutation_length, sort_perm. Qed.

End SortByKey.

(** A loop that pushes [f x] for every [x] builds [f <$> l]. *)
Lemma fold_left_push {A B} (f : A -> B) (l : list A) (acc : list B) :
  fold_left (fun acc x => acc ++ [f x]) l acc = acc ++ (f <$> l).
Proof.
  revert acc. induction l as [|x l IH]; intros acc; simpl.
  - symmetry. apply app_nil_r.
  - rewrite IH, <- app_assoc. reflexivity.
Qed.

(** ** Scoring *)

Section ScoringFacts.
Import ScoringEngine.

Variables Math_log Math_exp Math_sqrt : Q -> Q.
Variable Date_now : Z.
Variable config : RecommendationConfig.
Variable userContext : UserContext.
Variable userHistory : UserHistory.

Local Abbreviation scoreOne :=
  (scoreGame Math_log Math_exp Math_sqrt Date_now config userContext userHistory).
Local Abbreviation scoreAll :=
  (scoreGames Math_log Math_exp Math_sqrt Date_now config).

Lemma scoreGames_unfold eligibleGames :
  scoreAll eligibleGames userContext userHistory
  = Array_sort (descending score) (scoreOne <$> eligibleGames).
Proof.
  unfold scoreGames.
  rewrite (fold_left_push scoreOne). reflexivity.
Qed.

Lemma scoreGames_perm eligibleGames :
  scoreAll eligibleGames userContext userHistory ≡ₚ scoreOne <$> eligibleGames.
Proof. rewrite scoreGames_unfold. apply sort_perm. Qed.

Lemma scoreGames_game sg eligibleGames :
  sg ∈ scoreAll eligibleGames userContext userHistory ->
  game sg ∈ eligibleGames.
Proof.
  rewrite scoreGames_perm. intros (g & -> & Hg)%list_elem_of_fmap.
  exact Hg.
Qed.

End ScoringFacts.

(** C3 (as amended). The list returned by [scoreGames] holds the scored
    input games, is sorted by composite score in non-increasing order,
    and entries with equal scores keep the order their games had in the
    input: the sort is stable and compares scores only. *)
Theorem scoreGames_sorted_stable
    (Math_log Math_exp Math_sqrt : Q -> Q) (Date_now : Z)
    (config : RecommendationConfig) (eligibleGames : list Game)
    (userContext : UserContext) (userHistory : UserHistory) :
  let scoreOne :=
    ScoringEngine.scoreGame Math_log Math_exp Math_sqrt Date_now config
      userContext userHistory in
  let scored :=
    ScoringEngine.scoreGames Math_log Math_exp Math_sqrt Date_now config
      eligibleGames userContext userHistory in
  scored ≡ₚ scoreOne <$> eligibleGames
  /\ StronglySorted (fun a b => (score b <= score a)%Q) scored
  /\ (forall v : Q,
        List.filter (fun sg => Qeq_bool (score sg) v) scored
        = List.filter (fun sg => Qeq_bool (score sg) v) (scoreOne <$> eligibleGames)).
Proof.
  intros scoreOne scored. subst scoreOne scored.
  rewrite scoreGames_unfold.
  split; [apply sort_perm|].
  split; [apply (sort_sorted score)|].
  intros v. apply (sort_stable score).
Qed.

(** C3 (as stated) fails: two games that differ in their identifier only
    score the same, and [scoreGames] returns them in input order, here
    ["b"] before ["a"]. *)
Lemma scoreGames_ties_not_by_id :
  ~ (forall (Math_log Math_exp Math_sqrt : Q -> Q) (Date_now : Z)
       (config : RecommendationConfig) (eligibleGames : list Game)
       (userContext : UserContext) (userHistory : UserHistory),
        tiesAscendingById
          (ScoringEngine.scoreGames Math_log Math_exp Math_sqrt Date_now config
             eligibleGames userContext userHistory)).
Proof.
  intros H.
  specialize (H (fun _ => 0%Q) (fun _ => 0%Q) (fun _ => 0%Q) 0 DEFAULT_CONFIG
                [Samples.plainGame "b"; Samples.plainGame "a"]
                Samples.child Samples.noHistory 0%nat 1%nat).
  specialize (H _ _ ltac:(lia) eq_refl eq_refl).
  vm_compute in H. specialize (H eq_refl). discriminate H.
Qed.

(** For every numeric library, the two sample games that differ in their
    identifier only come back in input order with equal scores. *)
Lemma scoreGames_twins_in_input_order
    (Math_log Math_exp Math_sqrt : Q -> Q) (Date_now : Z)
    (config : RecommendationConfig) :
  let scored :=
    ScoringEngine.scoreGames Math_log Math_exp Math_sqrt Date_now config
      [Samples.plainGame "b"; Samples.plainGame "a"]
      Samples.child Samples.noHistory in
  (fun sg => gameId (game sg)) <$> scored = ["b"; "a"]
  /\ score <$> scored
     = [score (ScoringEngine.scoreGame Math_log Math_exp Math_sqrt Date_now config
                 Samples.child Samples.noHistory (Samples.plainGame "a"));
        score (ScoringEngine.scoreGame Math_log Math_exp Math_sqrt Date_now config
                 Samples.child Samples.noHistory (Samples.plainGame "a"))].
Proof.
  intros scored. subst scored. rewrite scoreGames_unfold.
  set (s := ScoringEngine.scoreGame Math_log Math_exp Math_sqrt Date_now config
              Samples.child Samples.noHistory).
  assert (Hs : score (s (Samples.plainGame "b")) = score (s (Samples.plainGame "a")))
    by reflexivity.
  cbn [fmap list_fmap Array_sort foldr Array_sort_insert].
  assert (Hc : (0 ?= descending score (s (Samples.plainGame "b"))
                       (s (Samples.plainGame "a")))%Q = Eq).
  { apply Qeq_alt. unfold descending. rewrite Hs. ring. }
  rewrite Hc. cbn [fmap list_fmap]. rewrite Hs. split; reflexivity.
Qed.

(** ** Diversity pass *)

Section DiversityFacts.
Import DiversityPass.

Lemma genreIds_NoDup sg : NoDup (genreIds sg).
Proof. apply NoDup_fst_map_to_list. Qed.

Lemma elem_of_genreIds g sg :
  g ∈ genreIds sg <-> is_Some (genreVector (game sg) !! g).
Proof.
  unfold genreIds. rewrite list_elem_of_fmap. split.
  - intros ([k v] & -> & Hkv). apply elem_of_map_to_list in Hkv.
    simpl. eauto.
  - intros [v Hv]. exists (g, v). split; [reflexivity|].
    apply elem_of_map_to_list. exact Hv.
Qed.

Lemma fold_bump_lookup (ks : list Z) (counts : gmap Z Z) (g : Z) :
  NoDup ks ->
  default 0 (fold_left bump ks counts !! g)
  = default 0 (counts !! g) + (if bool_decide (g ∈ ks) then 1 else 0).
Proof.
  intros Hnd. revert counts.
  induction Hnd as [|k ks Hk Hnd IH]; intros counts; cbn [fold_left].
  - rewrite bool_decide_eq_false_2 by apply not_elem_of_nil. lia.
  - rewrite IH. unfold bump.
    destruct (decide (g = k)) as [Heq|Hne].
    + subst g. rewrite lookup_insert_eq. simpl.
      rewrite (bool_decide_eq_false_2 (k ∈ ks)) by exact Hk.
      rewrite (bool_decide_eq_true_2 (k ∈ k :: ks)) by apply list_elem_of_here.
      lia.
    + rewrite lookup_insert_ne by congruence.
      destruct (decide (g ∈ ks)) as [Hin|Hin].
      * rewrite (bool_decide_eq_true_2 _ Hin).
        rewrite (bool_decide_eq_true_2 (g ∈ k :: ks))
          by (apply list_elem_of_further; exact Hin).
        reflexivity.
      * rewrite (bool_decide_eq_false_2 _ Hin).
        rewrite (bool_decide_eq_false_2 (g ∈ k :: ks)); [reflexivity|].
        intros [?|?]%elem_of_cons; tauto.
Qed.

Lemma updateGenreCounts_lookup sg counts g :
  default 0 (updateGenreCounts sg counts !! g)
  = default 0 (counts !! g)
    + (if bool_decide (is_Some (genreVector (game sg) !! g)) then 1 else 0).
Proof.
  unfold updateGenreCounts. fold bump.
  rewrite fold_bump_lookup by apply genreIds_NoDup.
  rewrite (bool_decide_ext _ _ (elem_of_genreIds g sg)). reflexivity.
Qed.

Lemma genreCount_snoc g l sg :
  Z.of_nat (genreCount g (l ++ [sg]))
  = Z.of_nat (genreCount g l)
    + (if bool_decide (is_Some (genreVector (game sg) !! g)) then 1 else 0).
Proof.
  unfold genreCount. rewrite List.filter_app, length_app. simpl.
  destruct (bool_decide _); simpl; lia.
Qed.

Lemma violatesMaxPerGenre_false config sg counts g :
  violatesMaxPerGenre config sg counts = false ->
  is_Some (genreVector (game sg) !! g) ->
  default 0 (counts !! g) < maxPerGenre (diversityRules config).
Proof.
  unfold violatesMaxPerGenre. intros Hv Hg.
  apply elem_of_genreIds, list_elem_of_In in Hg.
  destruct (default 0 (counts !! g) >=? maxPerGenre (diversityRules config))
    eqn:Hc.
  - assert (Ht : existsb
              (λ genreId : Z, default 0 (counts !! genreId)
                              >=? maxPerGenre (diversityRules config))
              (genreIds sg) = true)
      by (apply existsb_exists; eauto).
    congruence.
  - rewrite Z.geb_leb in Hc. apply Z.leb_gt in Hc. exact Hc.
Qed.

Lemma loopInvariant_push config diversified genreCounts sg :
  loopInvariant config diversified genreCounts ->
  violatesDiversityRules config sg diversified genreCounts = false ->
  loopInvariant config (diversified ++ [sg]) (updateGenreCounts sg genreCounts).
Proof.
  intros [Hex Hcap] Hv.
  assert (Hm : violatesMaxPerGenre config sg genreCounts = false).
  { unfold violatesDiversityRules in Hv.
    destruct (violatesMaxPerGenre _ _ _); [discriminate|reflexivity]. }
  split; intros g; rewrite genreCount_snoc.
  - rewrite updateGenreCounts_lookup, Hex. reflexivity.
  - destruct (decide (is_Some (genreVector (game sg) !! g))) as [Hg|Hg].
    + rewrite (bool_decide_eq_true_2 _ Hg).
      pose proof (violatesMaxPerGenre_false _ _ _ _ Hm Hg) as Hlt.
      rewrite Hex in Hlt. lia.
    + rewrite (bool_decide_eq_false_2 _ Hg). specialize (Hcap g). lia.
Qed.

Lemma diversifyLoop_spec config sortedGames diversified genreCounts :
  loopInvariant config diversified genreCounts ->
  Z.of_nat (length diversified) < Z.max 1 (maxResults config) ->
  let out := diversifyLoop config sortedGames diversified genreCounts in
  loopInvariant config out.1 out.2
  /\ Z.of_nat (length out.1) <= Z.max 1 (maxResults config).
Proof.
  revert diversified genreCounts.
  induction sortedGames as [|sg rest IH]; intros diversified genreCounts Hinv Hlen;
    cbn [diversifyLoop].
  - split; [exact Hinv|simpl; lia].
  - destruct (violatesDiversityRules config sg diversified genreCounts) eqn:Hv.
    + apply IH; assumption.
    + pose proof (loopInvariant_push _ _ _ _ Hinv Hv) as Hinv'.
      destruct (Z.of_nat (length (diversified ++ [sg])) >=? maxResults config)
        eqn:Hfull.
      * split; [exact Hinv'|]. cbn [fst].
        rewrite length_app in *. simpl in *. lia.
      * apply IH; [exact Hinv'|].
        rewrite Z.geb_leb in Hfull. apply Z.leb_gt in Hfull. lia.
Qed.

(** The loop only ever pushes items of its input. *)
Lemma diversifyLoop_subset config sortedGames diversified genreCounts sg :
  sg ∈ (diversifyLoop config sortedGames diversified genreCounts).1 ->
  sg ∈ diversified \/ sg ∈ sortedGames.
Proof.
  revert diversified genreCounts.
  induction sortedGames as [|x rest IH]; intros diversified genreCounts;
    cbn [diversifyLoop].
  - intros H. left. exact H.
  - destruct (violatesDiversityRules config x diversified genreCounts).
    + intros [H|H]%IH; [left; exact H|right; apply list_elem_of_further, H].
    + destruct (Z.of_nat (length (diversified ++ [x])) >=? maxResults config).
      * cbn [fst]. rewrite elem_of_app, list_elem_of_singleton.
        intros [H| ->]; [left; exact H|right; apply list_elem_of_here].
      * intros [H|H]%IH; [|right; apply list_elem_of_further, H].
        apply elem_of_app in H as [H|H]; [left; exact H|].
        apply list_elem_of_singleton in H as ->. right. apply list_elem_of_here.
Qed.

Lemma diversify_loop config sortedGames :
  (diversify config sortedGames).1 = (diversifyLoop config sortedGames [] ∅).1.
Proof.
  unfold diversify.
  destruct (diversifyLoop config sortedGames [] ∅) as [d c]. reflexivity.
Qed.

(** Whatever the configuration: the loop stops at the first push that
    reaches [maxResults], so it returns one item when [maxResults] is not
    positive; and no genre with a positive cap is ever over it. *)
Lemma diversify_caps config sortedGames :
  let out := (diversify config sortedGames).1 in
  Z.of_nat (length out) <= Z.max 1 (maxResults config)
  /\ (forall g : Z,
        Z.of_nat (genreCount g out)
        <= Z.max 0 (maxPerGenre (diversityRules config))).
Proof.
  intros out. subst out. rewrite diversify_loop.
  assert (Hinit : loopInvariant config [] ∅).
  { split; intros g; [rewrite lookup_empty; reflexivity|].
    change (genreCount g []) with O. lia. }
  destruct (diversifyLoop_spec config sortedGames [] ∅ Hinit) as [[_ Hc] Hlen];
    [cbn [length]; lia|].
  split; [exact Hlen|exact Hc].
Qed.

Lemma ensureMinimumRequirements_array config diversified :
  (ensureMinimumRequirements config diversified).1 = diversified.
Proof. reflexivity. Qed.


Lemma diversify_subset config sortedGames sg :
  sg ∈ (diversify config sortedGames).1 -> sg ∈ sortedGames.
Proof.
  rewrite diversify_loop. intros [H|H]%diversifyLoop_subset; [|exact H].
  apply elem_of_nil in H. contradiction.
Qed.

End DiversityFacts.

(** C4. With a configuration in its domain ([maxResults > 0], and a
    per-genre cap that is not negative), [diversify] returns, for every
    input list, at most [maxResults] items, for every genre at most
    [maxPerGenre] of them contain it, and the returned list is the one
    the greedy loop built: the check of [minGenres] and of the
    low-intensity requirement leaves every array as it found it. *)
Theorem diversify_bounds (config : RecommendationConfig)
    (sortedGames : list ScoredGame) :
  0 < maxResults config ->
  0 <= maxPerGenre (diversityRules config) ->
  let out := (DiversityPass.diversify config sortedGames).1 in
  Z.of_nat (length out) <= maxResults config
  /\ (forall g : Z,
        Z.of_nat (genreCount g out) <= maxPerGenre (diversityRules config))
  /\ out = (DiversityPass.diversifyLoop config sortedGames [] ∅).1
  /\ (forall diversified : list ScoredGame,
        (DiversityPass.ensureMinimumRequirements config diversified).1
        = diversified).
Proof.
  intros Hres Hcap out. subst out.
  destruct (diversify_caps config sortedGames) as [Hlen Hc].
  rewrite Z.max_r in Hlen by lia.
  split; [exact Hlen|]. split.
  - intros g. specialize (Hc g). rewrite Z.max_r in Hc by exact Hcap. exact Hc.
  - split; [apply diversify_loop|]. intros diversified. reflexivity.
Qed.

(** Six equally scored games of genre 1 under the default configuration:
    the first five are admitted. *)
Lemma diversify_bounds_witness :
  let l := (fun n => Samples.scored (Samples.plainGame n) 1)
             <$> ["a"; "b"; "c"; "d"; "e"; "f"] in
  let out := (DiversityPass.diversify DEFAULT_CONFIG l).1 in
  (fun sg => gameId (game sg)) <$> out = ["a"; "b"; "c"; "d"; "e"]
  /\ Z.of_nat (length out) <= maxResults DEFAULT_CONFIG
  /\ (forall g : Z,
        Z.of_nat (genreCount g out) <= maxPerGenre (diversityRules DEFAULT_CONFIG))
  /\ out = (DiversityPass.diversifyLoop DEFAULT_CONFIG l [] ∅).1
  /\ (forall diversified : list ScoredGame,
        (DiversityPass.ensureMinimumRequirements DEFAULT_CONFIG diversified).1
        = diversified).
Proof.
  split; [vm_compute; reflexivity|].
  apply (diversify_bounds DEFAULT_CONFIG); simpl; lia.
Defined.

(** ** Sponsored injection *)

(** A [for (let i = 0; i < m; i++)] loop keeps an invariant that every
    turn keeps. *)
Lemma fold_left_seqZ_invariant {St : Type} (f : St -> Z -> St)
    (Inv : Z -> St -> Prop) (m : nat) (st0 : St) :
  Inv 0 st0 ->
  (forall i st, 0 <= i < Z.of_nat m -> Inv i st -> Inv (i + 1) (f st i)) ->
  Inv (Z.of_nat m) (fold_left f (seqZ 0 (Z.of_nat m)) st0).
Proof.
  intros H0. induction m as [|m IH]; intros Hstep.
  - exact H0.
  - rewrite seqZ_S, fold_left_app. cbn [fold_left].
    replace (Z.of_nat (S m)) with (Z.of_nat m + 1) by lia.
    rewrite Z.add_0_l. apply Hstep; [lia|].
    apply IH. intros i st Hi. apply Hstep. lia.
Qed.

Lemma filter_snoc {A} (f : A -> bool) (l : list A) (x : A) :
  List.filter f (l ++ [x]) = List.filter f l ++ (if f x then [x] else []).
Proof. rewrite List.filter_app. reflexivity. Qed.

Lemma filter_all {A} (f : A -> bool) (l : list A) :
  Forall (fun x => f x = true) l -> List.filter f l = l.
Proof.
  induction 1 as [|x l Hx _ IH]; simpl; [reflexivity|].
  rewrite Hx, IH. reflexivity.
Qed.

Lemma filter_none {A} (f : A -> bool) (l : list A) :
  Forall (fun x => f x = false) l -> List.filter f l = [].
Proof.
  induction 1 as [|x l Hx _ IH]; simpl; [reflexivity|].
  rewrite Hx, IH. reflexivity.
Qed.

Lemma filter_split_perm {A} (f : A -> bool) (l : list A) :
  l ≡ₚ List.filter f l ++ List.filter (fun x => negb (f x)) l.
Proof.
  induction l as [|x l IH]; simpl; [reflexivity|].
  destruct (f x); simpl.
  - rewrite <- IH. reflexivity.
  - rewrite <- Permutation_middle, <- IH. reflexivity.
Qed.

Lemma filter_sublist {A} (f : A -> bool) (l : list A) :
  List.filter f l `sublist_of` l.
Proof.
  induction l as [|x l IH]; simpl; [constructor|].
  destruct (f x); [apply sublist_skip|apply sublist_cons]; exact IH.
Qed.

Lemma elem_of_filter_bool {A} (f : A -> bool) (l : list A) (x : A) :
  x ∈ List.filter f l <-> x ∈ l /\ f x = true.
Proof. rewrite !list_elem_of_In. apply List.filter_In. Qed.

Lemma slice0_take {A} (l : list A) (finish : Z) :
  0 <= finish -> Array_slice0 l finish = take (Z.to_nat finish) l.
Proof.
  intros Hf. unfold Array_slice0.
  destruct (finish <? 0) eqn:Hneg; [apply Z.ltb_lt in Hneg; lia|].
  destruct (Z.le_gt_cases finish (Z.of_nat (length l))) as [Hle|Hgt].
  - rewrite Z.min_l by exact Hle. reflexivity.
  - rewrite Z.min_r by lia. rewrite Nat2Z.id.
    rewrite !take_ge by lia. reflexivity.
Qed.

Section MergeFacts.
Import SponsoredInjector.

Variables diversifiedGames eligibleSponsored : list ScoredGame.
Variable organic : ScoredGame -> bool.
Hypothesis organic_diversified :
  Forall (fun sg => organic sg = true) diversifiedGames.
Hypothesis organic_sponsored :
  Forall (fun sg => organic sg = false) eligibleSponsored.

Local Abbreviation n := (Z.of_nat (length diversifiedGames)).
Local Abbreviation k := (Z.of_nat (length eligibleSponsored)).
Local Abbreviation spacing := (n / (k + 1)).
Local Abbreviation slot := (slotAt n k).
Local Abbreviation slots := (calculateInjectionSlots n k).
Local Abbreviation mergeInvariant :=
  (mergeInvariant organic diversifiedGames eligibleSponsored).

Lemma spacing_bounds : 0 <= spacing /\ spacing * (k + 1) <= n.
Proof.
  split.
  - apply Z.div_pos; lia.
  - rewrite Z.mul_comm. apply Z.mul_div_le. lia.
Qed.

Lemma elem_of_slots i : i ∈ slots <-> exists j, 0 <= j < k /\ i = slot j.
Proof.
  unfold calculateInjectionSlots.
  rewrite (fold_left_push (fun i => n / (k + 1) * (i + 1) + i)).
  rewrite app_nil_l, list_elem_of_fmap. split.
  - intros (j & -> & Hj). apply elem_of_seqZ in Hj. exists j. split; [lia|].
    reflexivity.
  - intros (j & Hj & ->). exists j. split; [reflexivity|].
    apply elem_of_seqZ. lia.
Qed.

Lemma slot_mono i j : i <= j -> slot i <= slot j.
Proof. pose proof spacing_bounds. unfold slotAt. nia. Qed.

Lemma mergeStep_invariant i st :
  0 <= i < n + k ->
  mergeInvariant i st ->
  mergeInvariant (i + 1) (mergeStep diversifiedGames eligibleSponsored slots st i).
Proof.
  destruct st as [[result s] o].
  intros Hi (Hsum & Hs & Ho & Hnext & Hpast & Hfo & Hfs).
  pose proof spacing_bounds as [Hsp0 Hsp].
  unfold mergeStep.
  destruct (bool_decide (i ∈ slots) && (s <? length eligibleSponsored)%nat)
    eqn:Hcond.
  - apply andb_true_iff in Hcond as [Hin Hlt].
    apply bool_decide_eq_true_1, elem_of_slots in Hin as (j & Hj & Hij).
    apply Nat.ltb_lt in Hlt.
    destruct (lookup_lt_is_Some_2 eligibleSponsored s Hlt) as [sg Hsg].
    rewrite Hsg.
    assert (Hjs : Z.of_nat s <= j).
    { destruct (Z.le_gt_cases (Z.of_nat s) j) as [?|Hgt]; [assumption|].
      specialize (Hpast j ltac:(lia)). lia. }
    assert (Hslot : slot (Z.of_nat s) = i).
    { pose proof (slot_mono _ _ Hjs). specialize (Hnext ltac:(lia)). lia. }
    assert (Hsp_sg : organic sg = false).
    { rewrite Forall_forall in organic_sponsored.
      apply organic_sponsored. eapply list_elem_of_lookup_2. exact Hsg. }
    unfold mergeInvariant.
    rewrite !filter_snoc, Hsp_sg, app_nil_r. simpl negb. cbv iota.
    rewrite Hfs, <- (take_S_r _ _ _ Hsg).
    repeat split; try lia; try assumption.
    + intros _. unfold slotAt in *. nia.
    + intros j' Hj'.
      destruct (Z.eq_dec j' (Z.of_nat s)) as [->|Hne]; [lia|].
      specialize (Hpast j' ltac:(lia)). lia.
  - assert (Hroom : (o < length diversifiedGames)%nat
                    /\ (Z.of_nat s < k -> i + 1 <= slot (Z.of_nat s))).
    { apply andb_false_iff in Hcond as [Hnot|Hfull].
      - apply bool_decide_eq_false_1 in Hnot.
        destruct (Z.lt_ge_cases (Z.of_nat s) k) as [Hsk|Hsk].
        + assert (Hne : slot (Z.of_nat s) <> i).
          { intros Heq. apply Hnot, elem_of_slots.
            exists (Z.of_nat s). split; [lia|auto]. }
          specialize (Hnext Hsk).
          split; [|intros _; lia].
          unfold slotAt in *. nia.
        + split; lia.
      - apply Nat.ltb_ge in Hfull. split; lia. }
    destruct Hroom as [Hroom Hnext'].
    apply Nat.ltb_lt in Hroom as Hroomb. rewrite Hroomb.
    destruct (lookup_lt_is_Some_2 diversifiedGames o Hroom) as [sg Hsg].
    rewrite Hsg.
    assert (Ho_sg : organic sg = true).
    { rewrite Forall_forall in organic_diversified.
      apply organic_diversified. eapply list_elem_of_lookup_2. exact Hsg. }
    unfold mergeInvariant.
    rewrite !filter_snoc, Ho_sg, app_nil_r. simpl negb. cbv iota.
    rewrite Hfo, <- (take_S_r _ _ _ Hsg).
    repeat split; try lia; try assumption.
    intros j' Hj'. specialize (Hpast j' Hj'). lia.
Qed.

Lemma merge_result :
  let '(result, _, _) :=
    fold_left (mergeStep diversifiedGames eligibleSponsored slots)
      (seqZ 0 (Z.of_nat (length diversifiedGames + length eligibleSponsored)))
      ([], O, O) in
  List.filter organic result = diversifiedGames
  /\ List.filter (fun sg => negb (organic sg)) result = eligibleSponsored.
Proof.
  pose proof spacing_bounds as [Hsp0 Hsp].
  pose proof (fold_left_seqZ_invariant
                (mergeStep diversifiedGames eligibleSponsored slots)
                mergeInvariant
                (length diversifiedGames + length eligibleSponsored)
                ([], O, O)) as Hfold.
  destruct (fold_left _ _ _) as [[result s] o].
  destruct Hfold as (Hsum & Hs & Ho & _ & _ & Hfo & Hfs).
  - simpl. repeat split; try lia.
    intros _. unfold slotAt. nia.
  - intros i st Hi. apply mergeStep_invariant. lia.
  - assert (o = length diversifiedGames) as -> by lia.
    assert (s = length eligibleSponsored) as -> by lia.
    rewrite Hfo, Hfs, !take_ge by lia. split; reflexivity.
Qed.

End MergeFacts.

Section InjectFacts.
Import SponsoredInjector.

Variable maxSponsoredPerList : Z.
Variables diversifiedGames sponsoredGames : list ScoredGame.

Lemma alreadyListed_diversified :
  Forall (fun sg => alreadyListed diversifiedGames sg = true) diversifiedGames.
Proof.
  apply Forall_forall. intros sg Hsg. apply bool_decide_eq_true_2.
  apply elem_of_list_to_set, list_elem_of_fmap_2, Hsg.
Qed.

Lemma notAlreadyListed_spec :
  Forall (fun sg => alreadyListed diversifiedGames sg = false)
    (notAlreadyListed diversifiedGames sponsoredGames).
Proof.
  apply Forall_forall. intros sg [_ Hsg]%elem_of_filter_bool.
  apply negb_true_iff in Hsg. exact Hsg.
Qed.

Lemma eligibleSponsored_spec :
  Forall (fun sg => alreadyListed diversifiedGames sg = false)
    (Array_slice0 (notAlreadyListed diversifiedGames sponsoredGames)
       maxSponsoredPerList).
Proof.
  unfold Array_slice0. apply Forall_take, notAlreadyListed_spec.
Qed.

(** What [injectSponsored] returns, split into its organic and its
    inserted part. *)
Lemma injectSponsored_split :
  let eligibleSponsored :=
    Array_slice0 (notAlreadyListed diversifiedGames sponsoredGames)
      maxSponsoredPerList in
  let result :=
    injectSponsored maxSponsoredPerList diversifiedGames sponsoredGames in
  List.filter (alreadyListed diversifiedGames) result = diversifiedGames
  /\ List.filter (fun sg => negb (alreadyListed diversifiedGames sg)) result
     = eligibleSponsored.
Proof.
  intros eligibleSponsored result. subst result. unfold injectSponsored.
  fold eligibleSponsored.
  destruct (length eligibleSponsored =? 0)%nat eqn:Hlen.
  - apply Nat.eqb_eq, nil_length_inv in Hlen. rewrite Hlen.
    split.
    + apply filter_all, alreadyListed_diversified.
    + apply filter_none.
      eapply Forall_impl; [apply alreadyListed_diversified|].
      intros sg ->. reflexivity.
  - pose proof (merge_result diversifiedGames eligibleSponsored
                  (alreadyListed diversifiedGames)
                  alreadyListed_diversified eligibleSponsored_spec) as Hm.
    destruct (fold_left _ _ _) as [[result s] o]. exact Hm.
Qed.

Lemma injectSponsored_perm :
  injectSponsored maxSponsoredPerList diversifiedGames sponsoredGames
  ≡ₚ diversifiedGames
     ++ Array_slice0 (notAlreadyListed diversifiedGames sponsoredGames)
          maxSponsoredPerList.
Proof.
  destruct injectSponsored_split as [Ho Hs].
  rewrite (filter_split_perm (alreadyListed diversifiedGames)
             (injectSponsored _ _ _)).
  rewrite Ho, Hs. reflexivity.
Qed.

End InjectFacts.

(** C5. With [maxSponsoredPerList >= 0], a diversified list with
    pairwise distinct identifiers and a duplicate-free candidate list,
    [injectSponsored] returns a list without duplicate identifiers; its
    organic items are the diversified list in its order; the inserted
    items are the first [maxSponsoredPerList] candidates not already
    listed, in candidate order, so at most [maxSponsoredPerList] of them;
    and when no candidate remains the diversified list is returned as it
    is. *)
Theorem injectSponsored_spec (maxSponsoredPerList : Z)
    (diversifiedGames sponsoredGames : list ScoredGame) :
  0 <= maxSponsoredPerList ->
  NoDup (SponsoredInjector.gameIdOf <$> diversifiedGames) ->
  NoDup (SponsoredInjector.gameIdOf <$> sponsoredGames) ->
  let remaining :=
    SponsoredInjector.notAlreadyListed diversifiedGames sponsoredGames in
  let inserted := take (Z.to_nat maxSponsoredPerList) remaining in
  let result :=
    SponsoredInjector.injectSponsored maxSponsoredPerList diversifiedGames
      sponsoredGames in
  NoDup (SponsoredInjector.gameIdOf <$> result)
  /\ List.filter (alreadyListed diversifiedGames) result = diversifiedGames
  /\ List.filter (fun sg => negb (alreadyListed diversifiedGames sg)) result
     = inserted
  /\ inserted `sublist_of` sponsoredGames
  /\ Z.of_nat (length inserted) <= maxSponsoredPerList
  /\ length result = (length diversifiedGames + length inserted)%nat
  /\ (remaining = [] -> result = diversifiedGames).
Proof.
  intros Hmax HndD HndS remaining inserted result.
  assert (Hslice : Array_slice0 remaining maxSponsoredPerList = inserted)
    by (apply slice0_take, Hmax).
  pose proof (injectSponsored_split maxSponsoredPerList diversifiedGames
                sponsoredGames) as [Ho Hs].
  pose proof (injectSponsored_perm maxSponsoredPerList diversifiedGames
                sponsoredGames) as Hperm.
  fold remaining in Hs, Hperm. rewrite Hslice in Hs, Hperm. fold result in Ho, Hs, Hperm.
  assert (Hsub : inserted `sublist_of` sponsoredGames).
  { etransitivity; [apply sublist_take|apply filter_sublist]. }
  split; [|split; [exact Ho|split; [exact Hs|split; [exact Hsub|split; [|split]]]]].
  - rewrite Hperm, fmap_app. apply NoDup_app. split; [exact HndD|]. split.
    + intros x Hx (sg & -> & Hsg)%list_elem_of_fmap.
      pose proof (eligibleSponsored_spec maxSponsoredPerList diversifiedGames
                    sponsoredGames) as Hall.
      fold remaining in Hall. rewrite Hslice, Forall_forall in Hall.
      specialize (Hall sg Hsg). apply bool_decide_eq_false_1 in Hall.
      apply Hall, elem_of_list_to_set, Hx.
    + eapply sublist_NoDup; [exact HndS|]. apply fmap_sublist, Hsub.
  - subst inserted. rewrite length_take. lia.
  - rewrite Hperm, length_app. reflexivity.
  - intros Hnil. subst result. unfold SponsoredInjector.injectSponsored.
    fold remaining. rewrite Hnil.
    unfold Array_slice0. rewrite take_nil. reflexivity.
Qed.

(** Four organic items and three candidates, one of them already listed:
    the two that remain go to positions 1 and 3. *)
Lemma injectSponsored_spec_witness :
  let D := (fun n => Samples.scored (Samples.plainGame n) 1) <$> ["a"; "b"; "c"; "d"] in
  let S := (fun n => Samples.scored (Samples.sponsoredGame n) 1) <$> ["s1"; "a"; "s2"] in
  let result := SponsoredInjector.injectSponsored 3 D S in
  SponsoredInjector.gameIdOf <$> result = ["a"; "s1"; "b"; "s2"; "c"; "d"]
  /\ NoDup (SponsoredInjector.gameIdOf <$> result)
  /\ List.filter (alreadyListed D) result = D.
Proof.
  intros D S result.
  split; [vm_compute; reflexivity|].
  assert (HD : NoDup (SponsoredInjector.gameIdOf <$> D)).
  { apply (bool_decide_unpack _). vm_compute. exact I. }
  assert (HS : NoDup (SponsoredInjector.gameIdOf <$> S)).
  { apply (bool_decide_unpack _). vm_compute. exact I. }
  destruct (injectSponsored_spec 3 D S ltac:(lia) HD HS) as (H1 & H2 & _).
  split; [exact H1|exact H2].
Defined.

(** ** Charts *)

Lemma StronglySorted_by {A B} (f : A -> B) (R : B -> B -> Prop) (l : list A) :
  StronglySorted (fun a b => R (f a) (f b)) l <-> StronglySorted R (f <$> l).
Proof.
  induction l as [|x l IH].
  - split; constructor.
  - rewrite fmap_cons, !StronglySorted_cons, IH, Forall_fmap. reflexivity.
Qed.

Lemma StronglySorted_take {A} (R : A -> A -> Prop) (l : list A) (m : nat) :
  StronglySorted R l -> StronglySorted R (take m l).
Proof.
  intros H. rewrite <- (take_drop m l) in H.
  eapply StronglySorted_app_1_l. exact H.
Qed.

Section ChartFacts.
Import ChartGenerator.

Lemma collect_from_length (scoreOf : Game -> option Q) (passes : Game -> bool)
    candidates acc :
  (forall g, is_Some (scoreOf g) <-> passes g = true) ->
  length
    (fold_left
       (fun chartList g =>
          match scoreOf g with
          | Some s =>
              chartList
              ++ [{| entryGameId := gameId g; entryScore := s; rank := 0 |}]
          | None => chartList
          end)
       candidates acc)
  = (length acc + length (List.filter passes candidates))%nat.
Proof.
  intros Hp. revert acc.
  induction candidates as [|g l IH]; intros acc; cbn [fold_left List.filter].
  - simpl. lia.
  - rewrite IH.
    destruct (scoreOf g) as [s|] eqn:Hs; destruct (passes g) eqn:Hg.
    + rewrite length_app. simpl. lia.
    + assert (passes g = true) by (apply Hp; rewrite Hs; eauto). congruence.
    + assert (is_Some (scoreOf g)) as [? ?] by (apply Hp; exact Hg). congruence.
    + reflexivity.
Qed.

Lemma collect_length (scoreOf : Game -> option Q) (passes : Game -> bool)
    candidates :
  (forall g, is_Some (scoreOf g) <-> passes g = true) ->
  length (collect scoreOf candidates) = length (List.filter passes candidates).
Proof.
  intros Hp. unfold collect.
  rewrite (collect_from_length scoreOf passes) by exact Hp. reflexivity.
Qed.

Lemma collect_length_all (scoreOf : Game -> option Q) candidates :
  (forall g, is_Some (scoreOf g)) ->
  length (collect scoreOf candidates) = length candidates.
Proof.
  intros Hp. rewrite (collect_length scoreOf (fun _ => true)).
  - rewrite filter_all; [reflexivity|]. apply Forall_forall. reflexivity.
  - intros g. split; [reflexivity|]. intros _. apply Hp.
Qed.

Lemma sortSliceRank_scores chartList limit :
  entryScore <$> sortSliceRank chartList limit
  = entryScore <$> Array_slice0 (Array_sort byEntryScoreDescending chartList) limit.
Proof.
  unfold sortSliceRank. rewrite fmap_imap. simpl.
  rewrite <- (imap_const entryScore). reflexivity.
Qed.

Lemma sortSliceRank_sorted chartList limit :
  StronglySorted (fun a b => (entryScore b <= entryScore a)%Q)
    (sortSliceRank chartList limit).
Proof.
  apply (StronglySorted_by entryScore (fun x y => (y <= x)%Q)).
  rewrite sortSliceRank_scores.
  apply (StronglySorted_by entryScore (fun x y => (y <= x)%Q)).
  unfold Array_slice0. apply StronglySorted_take.
  apply (sort_sorted entryScore).
Qed.

Lemma sortSliceRank_ranks chartList limit :
  rank <$> sortSliceRank chartList limit
  = seqZ 1 (Z.of_nat (length (sortSliceRank chartList limit))).
Proof.
  apply list_eq. intros i. unfold sortSliceRank.
  rewrite list_lookup_fmap, list_lookup_imap, length_imap.
  destruct (Array_slice0 _ _ !! i) as [e|] eqn:He; simpl.
  - symmetry. apply lookup_seqZ. split; [lia|].
    apply lookup_lt_Some in He. lia.
  - symmetry. apply lookup_seqZ_ge.
    apply lookup_ge_None in He. lia.
Qed.

(** [slice(0, limit)] keeps [min(limit, length)] entries when
    [limit >= 0], and drops [-limit] entries from the end otherwise. *)
Lemma sortSliceRank_length chartList limit :
  Z.of_nat (length (sortSliceRank chartList limit))
  = if limit <? 0
    then Z.max (Z.of_nat (length chartList) + limit) 0
    else Z.min limit (Z.of_nat (length chartList)).
Proof.
  unfold sortSliceRank, Array_slice0.
  rewrite length_imap, length_take.
  rewrite (sort_length entryScore).
  destruct (limit <? 0) eqn:Hl; [apply Z.ltb_lt in Hl|apply Z.ltb_ge in Hl]; lia.
Qed.

Lemma sortSliceRank_wellFormed chartList limit passing :
  0 <= limit ->
  length chartList = passing ->
  chartWellFormed passing limit (sortSliceRank chartList limit).
Proof.
  intros Hl <-. split; [apply sortSliceRank_sorted|].
  split; [apply sortSliceRank_ranks|].
  rewrite sortSliceRank_length.
  destruct (limit <? 0) eqn:Hneg; [apply Z.ltb_lt in Hneg; lia|reflexivity].
Qed.

End ChartFacts.

(** C6 (as amended). For every chart kind, age band, platform and
    [limit >= 0], the chart is sorted by score descending and its ranks
    are 1, ..., N in list order, where N = min(limit, number of candidates
    passing the kind's filter). *)
Theorem charts_sorted_ranked (Math_log : Q -> Q) (Date_now : Z)
    (this : ChartGenerator.ChartDataSource) (a : AgeBand) (p : Platform)
    (limit : Z) (genreId : Z) :
  0 <= limit ->
  let candidates := ChartGenerator.fetchGamesByAgeAndPlatform this a p in
  chartWellFormed (length candidates) limit
    (ChartGenerator.generateTopTrending this a p limit)
  /\ chartWellFormed
       (length (List.filter (releasedWithin30Days Date_now) candidates)) limit
       (ChartGenerator.generateUpAndComing Math_log Date_now this a p limit)
  /\ chartWellFormed (length candidates) limit
       (ChartGenerator.generateTopPlayingNow this a p limit)
  /\ chartWellFormed (length (List.filter (hasPlayers this a p) candidates)) limit
       (ChartGenerator.generateTopReplayed this a p limit)
  /\ chartWellFormed (length candidates) limit
       (ChartGenerator.generateTopEarning this a p limit)
  /\ chartWellFormed (length (List.filter (hasReactions this a p) candidates)) limit
       (ChartGenerator.generateTopRated Math_log this a p limit)
  /\ chartWellFormed (length (List.filter (inGenre genreId) candidates)) limit
       (ChartGenerator.generateTrendingInGenre this genreId a p limit).
Proof.
  intros Hl candidates.
  repeat split_and; apply sortSliceRank_wellFormed; try exact Hl.
  - apply collect_length_all. intros g. eexists. reflexivity.
  - apply collect_length. intros g.
    unfold ChartGenerator.upAndComingScore, releasedWithin30Days.
    rewrite Z.gtb_ltb, Z.leb_antisym.
    destruct (30 <? _); simpl; split; intros H; try discriminate; eauto.
    destruct H; discriminate.
  - apply collect_length_all. intros g. eexists. reflexivity.
  - apply collect_length. intros g.
    unfold ChartGenerator.replayedScore, hasPlayers.
    destruct (Qeq_bool _ _); simpl; split; intros H; try discriminate; eauto.
    destruct H; discriminate.
  - apply collect_length_all. intros g. eexists. reflexivity.
  - apply collect_length. intros g.
    unfold ChartGenerator.ratedScore, hasReactions.
    destruct (Qeq_bool _ _); simpl; split; intros H; try discriminate; eauto.
    destruct H; discriminate.
  - rewrite collect_length_all by (intros g; eexists; reflexivity).
    f_equal. apply List.filter_ext. intros g. unfold inGenre.
    apply bool_decide_ext. symmetry. apply elem_of_dom.
Qed.

(** With two candidates and [limit = 1] the trending chart is the better
    of the two, ranked 1. *)
Lemma charts_sorted_ranked_witness :
  ChartGenerator.generateTopTrending Samples.twoGameCharts UNDER_9 PC 1
  = [{| entryGameId := "b"; entryScore := 9; rank := 1 |}]
  /\ chartWellFormed 2 1
       (ChartGenerator.generateTopTrending Samples.twoGameCharts UNDER_9 PC 1).
Proof.
  split; [vm_compute; reflexivity|].
  apply (charts_sorted_ranked (fun _ => 0%Q) 0 Samples.twoGameCharts UNDER_9 PC 1 1).
  lia.
Defined.

(** C6 (as stated) fails for a negative limit: [slice(0, -1)] drops the
    last entry only, so two candidates give a chart of one entry, where
    min(limit, candidates) = -1 asks for none. *)
Lemma charts_negative_limit :
  ChartGenerator.generateTopTrending Samples.twoGameCharts UNDER_9 PC (-1)
  = [{| entryGameId := "b"; entryScore := 9; rank := 1 |}]
  /\ ~ chartWellFormed
         (length (ChartGenerator.fetchGamesByAgeAndPlatform Samples.twoGameCharts
                    UNDER_9 PC))
         (-1)
         (ChartGenerator.generateTopTrending Samples.twoGameCharts UNDER_9 PC (-1)).
Proof.
  split; [vm_compute; reflexivity|].
  intros (_ & _ & Hlen). vm_compute in Hlen. discriminate Hlen.
Qed.

(** ** The engine *)

Section EngineFacts.
Import RecommendationEngine.

Variables Math_log Math_exp Math_sqrt : Q -> Q.
Variable Date_now : Z.

Lemma String_eqb_false_ne (s t : string) : String.eqb s t = false -> s <> t.
Proof. intros H ->. rewrite String.eqb_refl in H. discriminate. Qed.

(** The calls that end in a [throw], and no others. *)
Lemma generateChart_throws this chartType a p limit genreId :
  (exists message,
      generateChart Math_log Date_now this chartType a p limit genreId
      = Throw message)
  <-> chartType ∉ ChartType.known
      \/ (chartType = ChartType.TRENDING_IN_GENRE
          /\ (genreId = None \/ genreId = Some 0)).
Proof.
  unfold generateChart, ChartType.known.
  repeat
    (match goal with
     | |- context [String.eqb chartType ?k] =>
         destruct (String.eqb chartType k) eqn:?;
         [match goal with
          | H : String.eqb chartType k = true |- _ =>
              apply String.eqb_eq in H; subst chartType
          end
         |match goal with
          | H : String.eqb chartType k = false |- _ =>
              apply String_eqb_false_ne in H
          end]
     end).
  all: try (split;
            [intros [? ?]; discriminate
            |intros [Hn|[Hk _]];
             [exfalso; apply Hn; set_solver|discriminate Hk]]).
  - destruct genreId as [n|]; simpl.
    + destruct (n =? 0) eqn:Hn.
      * apply Z.eqb_eq in Hn. subst n. split; eauto.
      * apply Z.eqb_neq in Hn. split; [intros [? ?]; discriminate|].
        intros [Hk|[_ [?|?]]]; [exfalso; apply Hk; set_solver|discriminate|congruence].
    + split; eauto.
  - split; [|eauto]. intros _. left.
    rewrite !elem_of_cons, elem_of_nil. tauto.
Qed.

End EngineFacts.

(** C7, at the failing input: a genre-scoped chart asked for genre 0 ends
    in the error meant for a missing genre, whatever the engine. *)
Theorem generateChart_genre_zero (Math_log : Q -> Q) (Date_now : Z)
    (this : RecommendationEngine.t) (a : AgeBand) (p : Platform) (limit : Z) :
  RecommendationEngine.generateChart Math_log Date_now this
    ChartType.TRENDING_IN_GENRE a p limit (Some 0)
  = Throw "genreId is required for TRENDING_IN_GENRE chart"
  /\ (forall n : Z, n <> 0 ->
        RecommendationEngine.generateChart Math_log Date_now this
          ChartType.TRENDING_IN_GENRE a p limit (Some n)
        = Return (ChartGenerator.generateTrendingInGenre
                    (RecommendationEngine.chartGenerator this) n a p limit)).
Proof.
  split; [reflexivity|].
  intros n Hn. unfold RecommendationEngine.generateChart. simpl.
  apply Z.eqb_neq in Hn. rewrite Hn. reflexivity.
Qed.

(** ** Reconfiguration *)

(** C8 (as stated) fails: after [updateConfig] the engine at the same
    reference reports another config, and the store holds no engine it
    did not hold before. *)
Lemma updateConfig_changes_engine :
  let store' :=
    (RecommendationEngine.callUpdateConfig Samples.engineRef Samples.tenResults
       Samples.oneEngine).2 in
  RecommendationEngine.callGetConfig Samples.engineRef Samples.oneEngine
  = Some DEFAULT_CONFIG
  /\ maxResults <$> RecommendationEngine.callGetConfig Samples.engineRef store'
     = Some 10
  /\ RecommendationEngine.callGetConfig Samples.engineRef store'
     <> RecommendationEngine.callGetConfig Samples.engineRef Samples.oneEngine
  /\ dom store' = dom Samples.oneEngine.
Proof.
  assert (H1 : RecommendationEngine.callGetConfig Samples.engineRef Samples.oneEngine
               = Some DEFAULT_CONFIG).
  { unfold RecommendationEngine.callGetConfig, Samples.oneEngine, Samples.engineRef,
      RecommendationEngine.new. cbn [fst snd].
    rewrite lookup_insert_eq. reflexivity. }
  assert (H2 : maxResults <$>
                 RecommendationEngine.callGetConfig Samples.engineRef
                   (RecommendationEngine.callUpdateConfig Samples.engineRef
                      Samples.tenResults Samples.oneEngine).2
               = Some 10).
  { unfold RecommendationEngine.callGetConfig, RecommendationEngine.callUpdateConfig.
    cbn [snd]. rewrite lookup_alter_eq.
    unfold RecommendationEngine.callGetConfig in H1.
    destruct (Samples.oneEngine !! Samples.engineRef) as [e|]; [|discriminate].
    reflexivity. }
  intros store'. subst store'.
  split; [exact H1|]. split; [exact H2|]. split.
  - intros Heq. rewrite Heq, H1 in H2. discriminate H2.
  - unfold RecommendationEngine.callUpdateConfig. cbn [snd]. apply dom_alter_L.
Qed.

(** C8 (as amended). [updateConfig] reconfigures the engine in place: it
    returns nothing and creates no engine; read through the same
    reference, the config is afterwards the previous one overlaid with the
    given fields, the scoring engine and the diversity pass are rebuilt
    from it, and every other engine is as it was. *)
Theorem updateConfig_in_place (ref : positive) (newConfig : PartialConfig.t)
    (store : gmap positive RecommendationEngine.t) :
  let store' := (RecommendationEngine.callUpdateConfig ref newConfig store).2 in
  dom store' = dom store
  /\ RecommendationEngine.callGetConfig ref store'
     = (fun c => spread c newConfig) <$> RecommendationEngine.callGetConfig ref store
  /\ RecommendationEngine.scoringEngine <$> store' !! ref
     = RecommendationEngine.callGetConfig ref store'
  /\ RecommendationEngine.diversityPass <$> store' !! ref
     = RecommendationEngine.callGetConfig ref store'
  /\ (forall other : positive, other <> ref -> store' !! other = store !! other).
Proof.
  intros store'. subst store'.
  unfold RecommendationEngine.callUpdateConfig, RecommendationEngine.callGetConfig.
  cbn [snd]. rewrite lookup_alter_eq.
  split; [apply dom_alter_L|].
  repeat split.
  - destruct (store !! ref); reflexivity.
  - destruct (store !! ref); reflexivity.
  - destruct (store !! ref); reflexivity.
  - intros other Hne. apply lookup_alter_ne. congruence.
Qed.

(** C9. [updateConfig] leaves the eligibility filter and the sponsored
    injector as the constructor made them: for every input they return
    what they returned before, and an engine built from [config] filters
    by [config]'s threshold and injects up to [config]'s
    [maxSponsoredPerList] whatever [newConfig] says. *)
Theorem updateConfig_keeps_filter_and_injector
    (this : RecommendationEngine.t) (newConfig : PartialConfig.t) :
  let this' := RecommendationEngine.updateConfig this newConfig in
  (forall (candidates : list Game) (userContext : UserContext),
      EligibilityFilter.filterEligible
        (RecommendationEngine.eligibilityFilter this') candidates userContext
      = EligibilityFilter.filterEligible
          (RecommendationEngine.eligibilityFilter this) candidates userContext)
  /\ (forall (g : Game) (userContext : UserContext),
        EligibilityFilter.isEligible
          (RecommendationEngine.eligibilityFilter this') g userContext
        = EligibilityFilter.isEligible
            (RecommendationEngine.eligibilityFilter this) g userContext)
  /\ (forall diversifiedGames sponsoredGames : list ScoredGame,
        SponsoredInjector.injectSponsored
          (RecommendationEngine.sponsoredInjector this') diversifiedGames
          sponsoredGames
        = SponsoredInjector.injectSponsored
            (RecommendationEngine.sponsoredInjector this) diversifiedGames
            sponsoredGames)
  /\ (forall config candidateDataSource chartDataSource sponsoredEnabled,
        let built :=
          RecommendationEngine.updateConfig
            (RecommendationEngine.constructor config candidateDataSource
               chartDataSource sponsoredEnabled)
            newConfig in
        EligibilityFilter.moderationThreshold
          (RecommendationEngine.eligibilityFilter built)
        = moderationThreshold config
        /\ RecommendationEngine.sponsoredInjector built
           = maxSponsoredPerList config).
Proof.
  intros this'. subst this'. destruct this. repeat split.
Qed.

(** ** Buckets *)

Section BucketFacts.
Import BucketOrganizer.

Variables recommendedGames popularGames trendingGames sponsoredGames
  : list ScoredGame.

(** Every bucket is made from one of the four source lists, under that
    list's own identifier; an empty source gives no bucket. *)
Lemma organizeBuckets_sources b :
  b ∈ organizeBuckets recommendedGames popularGames trendingGames sponsoredGames ->
  (b = createBucket "recommended_for_you" "Recommended For You" recommendedGames
   /\ recommendedGames <> [])
  \/ (b = createBucket "popular_by_age" "Popular in Your Age Group" popularGames
      /\ popularGames <> [])
  \/ (b = createBucket "new_and_trending" "New & Trending" trendingGames
      /\ trendingGames <> [])
  \/ (b = createBucket "sponsored_events" "Sponsored Events" sponsoredGames
      /\ sponsoredGames <> []).
Proof.
  assert (Hpos : forall l : list ScoredGame,
             (0 <? length l)%nat = true -> l <> []).
  { intros [|x l] H; [discriminate H|discriminate]. }
  unfold organizeBuckets.
  destruct (0 <? length recommendedGames)%nat eqn:Hr;
    destruct (0 <? length popularGames)%nat eqn:Hq;
    destruct (0 <? length trendingGames)%nat eqn:Ht;
    destruct (0 <? length sponsoredGames)%nat eqn:Hs;
    cbn [app];
    rewrite ?elem_of_cons, ?elem_of_nil;
    intros H; repeat (destruct H as [H|H]); try contradiction; subst b;
    eauto 10.
Qed.

Lemma organizeBuckets_games b gid :
  b ∈ organizeBuckets recommendedGames popularGames trendingGames sponsoredGames ->
  gid ∈ games b ->
  exists sg,
    SponsoredInjector.gameIdOf sg = gid
    /\ (sg ∈ recommendedGames \/ sg ∈ popularGames \/ sg ∈ trendingGames
        \/ sg ∈ sponsoredGames).
Proof.
  intros Hb Hgid.
  destruct (organizeBuckets_sources b Hb) as [[-> _]|[[-> _]|[[-> _]|[-> _]]]];
    cbn [createBucket games] in Hgid;
    apply list_elem_of_fmap in Hgid as (sg & -> & Hsg);
    exists sg; auto 10.
Qed.

End BucketFacts.

(** C10. The trending helper returns the empty list, [organizeBuckets]
    makes no ["new_and_trending"] bucket from an empty list, and so
    [generateRecommendations] returns no bucket of that identifier. *)
Theorem generateRecommendations_no_trending
    (Math_log Math_exp Math_sqrt : Q -> Q) (Date_now : Z)
    (this : RecommendationEngine.t) (userContext : UserContext)
    (userHistory : UserHistory) :
  RecommendationEngine.getTrendingGames this userContext = []
  /\ (forall recommendedGames popularGames sponsoredGames : list ScoredGame,
        "new_and_trending"
        ∉ id <$> BucketOrganizer.organizeBuckets recommendedGames popularGames []
                   sponsoredGames)
  /\ "new_and_trending"
     ∉ id <$> RecommendationEngine.generateRecommendations Math_log Math_exp
                Math_sqrt Date_now this userContext userHistory.
Proof.
  assert (Hno : forall r p s : list ScoredGame,
             "new_and_trending" ∉ id <$> BucketOrganizer.organizeBuckets r p [] s).
  { intros r p s (b & Hid & Hb)%list_elem_of_fmap.
    destruct (organizeBuckets_sources r p [] s b Hb)
      as [[-> _]|[[-> _]|[[_ Hne]|[-> _]]]];
      try discriminate Hid.
    apply Hne. reflexivity. }
  split; [reflexivity|]. split; [exact Hno|].
  unfold RecommendationEngine.generateRecommendations.
  apply Hno.
Qed.

(** ** The eligibility boundary *)

Section PipelineFacts.
Import RecommendationEngine.

Variables Math_log Math_exp Math_sqrt : Q -> Q.
Variable Date_now : Z.
Variable this : t.
Variable userContext : UserContext.
Variable userHistory : UserHistory.

Lemma filterEligible_admits pool g :
  g ∈ EligibilityFilter.filterEligible (eligibilityFilter this) pool userContext ->
  g ∈ pool
  /\ EligibilityFilter.isEligible (eligibilityFilter this) g userContext = true.
Proof.
  rewrite filterEligible_filter. intros H.
  apply (elem_of_filter_bool
           (fun g => EligibilityFilter.isEligible (eligibilityFilter this) g
                       userContext)) in H.
  exact H.
Qed.

Local Abbreviation candidates :=
  (CandidateGenerator.generateCandidates (candidateGenerator this) userContext).
Local Abbreviation scored :=
  (ScoringEngine.scoreGames Math_log Math_exp Math_sqrt Date_now
     (scoringEngine this)
     (EligibilityFilter.filterEligible (eligibilityFilter this) candidates
        userContext)
     userContext userHistory).
Local Abbreviation admitted := (admitted this userContext).

Lemma scored_admitted sg : sg ∈ scored -> admitted candidates sg.
Proof.
  intros Hsg. apply scoreGames_game in Hsg.
  apply filterEligible_admits. exact Hsg.
Qed.

Lemma diversified_admitted sg :
  sg ∈ (DiversityPass.diversify (diversityPass this) scored).1 ->
  admitted candidates sg.
Proof. intros Hsg. apply scored_admitted, (diversify_subset _ _ _ Hsg). Qed.

Lemma sponsored_admitted sg :
  sg ∈ List.filter (fun sg => isSponsored (game sg)) scored ->
  admitted candidates sg.
Proof. intros [Hsg _]%elem_of_filter_bool. apply scored_admitted, Hsg. Qed.

Lemma withSponsored_admitted sg :
  sg ∈ SponsoredInjector.injectSponsored (sponsoredInjector this)
         (DiversityPass.diversify (diversityPass this) scored).1
         (List.filter (fun sg => isSponsored (game sg)) scored) ->
  admitted candidates sg.
Proof.
  rewrite injectSponsored_perm, elem_of_app.
  intros [Hsg|Hsg]; [apply diversified_admitted, Hsg|].
  unfold Array_slice0 in Hsg.
  apply elem_of_take in Hsg as (i & Hi & _).
  apply list_elem_of_lookup_2 in Hi.
  apply elem_of_filter_bool in Hi as [Hi _].
  apply sponsored_admitted, Hi.
Qed.

Lemma popular_admitted sg :
  sg ∈ getPopularGames this userContext ->
  admitted
    (CandidateGenerator.popularGamesByAgeBand (candidateGenerator this)
       (ageBand userContext) 20)
    sg.
Proof.
  unfold getPopularGames. intros (g & -> & Hg)%list_elem_of_fmap.
  apply filterEligible_admits in Hg. exact Hg.
Qed.

End PipelineFacts.

(** C1. Every identifier in every bucket returned by
    [generateRecommendations] is the identifier of a fetched game (a
    candidate, or a game of the popular-by-age list) for which the
    engine's [isEligible] holds in the user's context: the buckets,
    sponsored ones included, are drawn from the output of the filter. *)
Theorem generateRecommendations_only_eligible
    (Math_log Math_exp Math_sqrt : Q -> Q) (Date_now : Z)
    (this : RecommendationEngine.t) (userContext : UserContext)
    (userHistory : UserHistory) :
  let fetched :=
    CandidateGenerator.generateCandidates
      (RecommendationEngine.candidateGenerator this) userContext
    ++ CandidateGenerator.popularGamesByAgeBand
         (RecommendationEngine.candidateGenerator this) (ageBand userContext) 20 in
  Forall
    (fun bucket =>
       Forall
         (fun gid =>
            exists g : Game,
              g ∈ fetched
              /\ gameId g = gid
              /\ EligibilityFilter.isEligible
                   (RecommendationEngine.eligibilityFilter this) g userContext
                 = true)
         (games bucket))
    (RecommendationEngine.generateRecommendations Math_log Math_exp Math_sqrt
       Date_now this userContext userHistory).
Proof.
  intros fetched. apply Forall_forall. intros bucket Hb.
  apply Forall_forall. intros gid Hgid.
  unfold RecommendationEngine.generateRecommendations in Hb.
  destruct (organizeBuckets_games _ _ _ _ _ _ Hb Hgid) as (sg & <- & Hsrc).
  assert (Hadm : exists pool, admitted this userContext pool sg
                              /\ forall g, g ∈ pool -> g ∈ fetched).
  { destruct Hsrc as [H|[H|[H|H]]].
    - eexists. split; [eapply withSponsored_admitted, H|].
      intros g Hg. apply elem_of_app. left. exact Hg.
    - eexists. split; [eapply popular_admitted, H|].
      intros g Hg. apply elem_of_app. right. exact Hg.
    - apply elem_of_nil in H. contradiction.
    - eexists. split; [eapply sponsored_admitted, H|].
      intros g Hg. apply elem_of_app. left. exact Hg. }
  destruct Hadm as (pool & [Hin Hel] & Hsub).
  exists (game sg). split; [apply Hsub, Hin|]. split; [reflexivity|exact Hel].
Qed.

(** The pipeline on the mixed catalogue, for a user of 9 to 12: the four
    games the filter rejects (voice chat, low moderation, too old, and
    the sponsored one with voice chat) are in no bucket. *)
Example generateRecommendations_mixed :
  (fun b => (id b, games b))
    <$> RecommendationEngine.generateRecommendations Samples.zeroMath
          Samples.zeroMath Samples.zeroMath 0 Samples.mixedEngine Samples.child
          Samples.noHistory
  = [("recommended_for_you", ["s1"; "g1"; "g2"]);
     ("popular_by_age", ["g2"]);
     ("sponsored_events", ["s1"])].
Proof. vm_compute. reflexivity. Qed.

(** After a reconfiguration that asks for a moderation threshold of 1/2,
    [getConfig] reports 1/2 while the filter still rejects a game of
    moderation score 3/4, as it did under the threshold 4/5 it was built
    with. *)
Example updateConfig_threshold_not_applied :
  let newConfig := {|
    PartialConfig.weights := None;
    PartialConfig.moderationThreshold := Some (1 # 2)%Q;
    PartialConfig.recencyDecayDays := None;
    PartialConfig.creationGracePeriodDays := None;
    PartialConfig.creationPenaltyMaxDays := None;
    PartialConfig.sponsoredAmountMultiplier := None;
    PartialConfig.maxSponsoredBoost := None;
    PartialConfig.maxResults := None;
    PartialConfig.maxSponsoredPerList := None;
    PartialConfig.diversityRules := None |} in
  let engine := RecommendationEngine.updateConfig Samples.defaultEngine newConfig in
  moderationThreshold (RecommendationEngine.getConfig engine) = (1 # 2)%Q
  /\ EligibilityFilter.filterEligible (RecommendationEngine.eligibilityFilter engine)
       [Samples.mkGame "m1" UNDER_9 (75 # 100) false 1 {[ SINGLE_PLAYER ]}]
       Samples.child
     = [].
Proof. split; reflexivity. Qed.

(** * Further properties of the code *)

(** ** Deduplication, first seen wins *)

Section FirstByFacts.
Context {A : Type}.
Variable key : A -> string.

Lemma firstBy_sublist seen (l : list A) : firstBy key seen l `sublist_of` l.
Proof.
  revert seen. induction l as [|x l IH]; intros seen; cbn [firstBy].
  - constructor.
  - destruct (bool_decide _); [apply sublist_cons|apply sublist_skip]; apply IH.
Qed.

Lemma elem_of_firstBy_keys seen (l : list A) (k : string) :
  k ∈ key <$> firstBy key seen l <-> k ∈ key <$> l /\ k ∉ seen.
Proof.
  revert seen. induction l as [|x l IH]; intros seen; cbn [firstBy].
  - rewrite fmap_nil, elem_of_nil. tauto.
  - rewrite fmap_cons, elem_of_cons.
    destruct (decide (key x ∈ seen)) as [Hin|Hin].
    + rewrite (bool_decide_eq_true_2 _ Hin), IH.
      split; [tauto|]. intros [[->|?] ?]; tauto.
    + rewrite (bool_decide_eq_false_2 _ Hin), fmap_cons, elem_of_cons, IH.
      rewrite elem_of_union, elem_of_singleton.
      destruct (decide (k = key x)) as [->|Hne]; tauto.
Qed.

Lemma firstBy_NoDup seen (l : list A) : NoDup (key <$> firstBy key seen l).
Proof.
  revert seen. induction l as [|x l IH]; intros seen; cbn [firstBy].
  - constructor.
  - destruct (bool_decide _); [apply IH|].
    rewrite fmap_cons. constructor; [|apply IH].
    rewrite elem_of_firstBy_keys, elem_of_union, elem_of_singleton. tauto.
Qed.

Lemma firstBy_app seen (l1 l2 : list A) :
  firstBy key seen (l1 ++ l2)
  = firstBy key seen l1 ++ firstBy key (list_to_set (key <$> l1) ∪ seen) l2.
Proof.
  revert seen. induction l1 as [|x l1 IH]; intros seen.
  - cbn [app firstBy fmap list_fmap list_to_set]. f_equal.
    rewrite (left_id_L ∅ (∪)). reflexivity.
  - cbn [app firstBy].
    destruct (decide (key x ∈ seen)) as [Hin|Hin].
    + rewrite (bool_decide_eq_true_2 _ Hin), IH. do 2 f_equal.
      rewrite fmap_cons. cbn [list_to_set].
      apply set_eq. intros k.
      rewrite !elem_of_union, elem_of_singleton.
      split; [tauto|]. intros [[->|?]|?]; tauto.
    + rewrite (bool_decide_eq_false_2 _ Hin), IH. cbn [app]. do 3 f_equal.
      rewrite fmap_cons. cbn [list_to_set].
      apply set_eq. intros k.
      rewrite !elem_of_union, elem_of_singleton. tauto.
Qed.

(** The element kept for a key is the first one of [l] that carries it. *)
Lemma firstBy_first seen (l : list A) (x : A) :
  x ∈ firstBy key seen l ->
  exists l1 l2,
    l = l1 ++ x :: l2 /\ (key x ∉ key <$> l1) /\ (key x ∉ seen).
Proof.
  revert seen. induction l as [|y l IH]; intros seen; cbn [firstBy].
  - intros H. apply elem_of_nil in H. contradiction.
  - destruct (decide (key y ∈ seen)) as [Hin|Hin].
    + rewrite (bool_decide_eq_true_2 _ Hin).
      intros (l1 & l2 & -> & Hl1 & Hs)%IH.
      exists (y :: l1), l2. split; [reflexivity|]. split; [|exact Hs].
      rewrite fmap_cons, elem_of_cons. intros [Heq|?]; [|tauto].
      apply Hs. rewrite Heq. exact Hin.
    + rewrite (bool_decide_eq_false_2 _ Hin), elem_of_cons.
      intros [->|(l1 & l2 & -> & Hl1 & Hs)%IH].
      * exists [], l. split; [reflexivity|].
        split; [rewrite fmap_nil; apply not_elem_of_nil|exact Hin].
      * exists (y :: l1), l2. split; [reflexivity|].
        rewrite elem_of_union, elem_of_singleton in Hs.
        split; [|tauto].
        rewrite fmap_cons, elem_of_cons. tauto.
Qed.

(** A list without repeated keys, none of them seen, is kept whole. *)
Lemma firstBy_all seen (l : list A) :
  NoDup (key <$> l) -> (forall k, k ∈ key <$> l -> k ∉ seen) ->
  firstBy key seen l = l.
Proof.
  revert seen. induction l as [|x l IH]; intros seen Hnd Hfresh; cbn [firstBy].
  - reflexivity.
  - rewrite fmap_cons in Hnd, Hfresh. apply NoDup_cons in Hnd as [Hx Hnd].
    rewrite bool_decide_eq_false_2
      by (apply Hfresh, elem_of_cons; left; reflexivity).
    f_equal. apply IH; [exact Hnd|].
    intros k Hk. rewrite elem_of_union, elem_of_singleton.
    intros [->|Hs]; [contradiction|].
    revert Hs. apply Hfresh, elem_of_cons. right. exact Hk.
Qed.

End FirstByFacts.

(** ** Candidate generation *)

Section CandidateFacts.
Import CandidateGenerator.

Lemma has_keys (candidateSet : list (string * Game)) (k : string) :
  has candidateSet k = bool_decide (k ∈ candidateSet.*1).
Proof.
  unfold has. induction candidateSet as [|e cs IH]; cbn [existsb].
  - rewrite bool_decide_eq_false_2; [reflexivity|]. apply not_elem_of_nil.
  - rewrite IH, fmap_cons.
    destruct (decide (e.1 = k)) as [He|He].
    + rewrite (bool_decide_eq_true_2 _ He).
      rewrite (bool_decide_eq_true_2 (k ∈ e.1 :: cs.*1));
        [reflexivity|]. rewrite He. apply list_elem_of_here.
    + rewrite (bool_decide_eq_false_2 _ He). cbn [orb].
      apply bool_decide_ext. rewrite elem_of_cons.
      split; [tauto|]. intros [Hk|?]; [congruence|assumption].
Qed.

Lemma addToCandidateSet_firstBy (candidateSet : list (string * Game))
    (l : list Game) :
  addToCandidateSet candidateSet l
  = candidateSet
    ++ ((fun g => (gameId g, g))
          <$> firstBy gameId (list_to_set candidateSet.*1) l).
Proof.
  unfold addToCandidateSet. revert candidateSet.
  induction l as [|g l IH]; intros cs; cbn [fold_left firstBy].
  - rewrite fmap_nil, app_nil_r. reflexivity.
  - rewrite has_keys.
    rewrite (bool_decide_ext (gameId g ∈ cs.*1)
               (gameId g ∈ (list_to_set cs.*1 : gset string)))
      by (symmetry; apply elem_of_list_to_set).
    destruct (bool_decide (gameId g ∈ (list_to_set cs.*1 : gset string)));
      cbn [negb]; rewrite IH; [reflexivity|].
    assert (Hset : (list_to_set (cs ++ [(gameId g, g)]).*1 : gset string)
                   = {[gameId g]} ∪ list_to_set cs.*1).
    { rewrite fmap_app, list_to_set_app_L.
      cbn [fmap list_fmap list_to_set fst].
      rewrite (right_id_L ∅ (∪)). apply (comm_L (∪)). }
    rewrite Hset, fmap_cons, <- app_assoc. reflexivity.
Qed.

Lemma addToCandidateSet_prefix (pre l : list Game) :
  addToCandidateSet ((fun g => (gameId g, g)) <$> firstBy gameId ∅ pre) l
  = (fun g => (gameId g, g)) <$> firstBy gameId ∅ (pre ++ l).
Proof.
  rewrite addToCandidateSet_firstBy, firstBy_app, fmap_app. do 3 f_equal.
  rewrite <- list_fmap_compose.
  apply set_eq. intros k.
  rewrite elem_of_list_to_set, elem_of_union, elem_of_list_to_set.
  change (fst ∘ (fun g : Game => (gameId g, g))) with gameId.
  rewrite elem_of_firstBy_keys. set_solver.
Qed.

Lemma generateCandidates_firstBy (this : t) (userContext : UserContext) :
  generateCandidates this userContext
  = firstBy gameId ∅ (fetchedCandidates this userContext).
Proof.
  unfold generateCandidates, fetchedCandidates. cbv zeta.
  pose proof (addToCandidateSet_prefix []) as Hfirst.
  cbn [firstBy app] in Hfirst. rewrite fmap_nil in Hfirst.
  rewrite Hfirst, !addToCandidateSet_prefix.
  destruct (sponsoredEnabled this).
  - rewrite <- list_fmap_compose, <- !app_assoc. apply list_fmap_id.
  - rewrite <- list_fmap_compose, <- !app_assoc, !app_nil_r.
    apply list_fmap_id.
Qed.

End CandidateFacts.

(** X1. The candidates have pairwise distinct identifiers, they are a
    subsequence of what the sources returned, in the order the sources
    were asked, and every fetched identifier is a candidate's. *)
Theorem generateCandidates_distinct (this : CandidateGenerator.t)
    (userContext : UserContext) :
  let candidates := CandidateGenerator.generateCandidates this userContext in
  NoDup (gameId <$> candidates)
  /\ candidates `sublist_of` fetchedCandidates this userContext
  /\ (forall k : string,
        k ∈ gameId <$> candidates
        <-> k ∈ gameId <$> fetchedCandidates this userContext).
Proof.
  intros candidates. subst candidates. rewrite generateCandidates_firstBy.
  split; [apply firstBy_NoDup|]. split; [apply firstBy_sublist|].
  intros k. rewrite elem_of_firstBy_keys. set_solver.
Qed.

(** X2. First seen wins: a candidate is the first of the fetched games
    that carries its identifier. *)
Theorem generateCandidates_first_seen (this : CandidateGenerator.t)
    (userContext : UserContext) :
  Forall
    (fun c =>
       exists l1 l2 : list Game,
         fetchedCandidates this userContext = l1 ++ c :: l2
         /\ (gameId c ∉ gameId <$> l1))
    (CandidateGenerator.generateCandidates this userContext).
Proof.
  rewrite generateCandidates_firstBy. apply Forall_forall. intros c Hc.
  destruct (firstBy_first gameId _ _ _ Hc) as (l1 & l2 & Heq & Hl1 & _).
  exists l1, l2. split; assumption.
Qed.

(** ** Eligibility, further *)

(** X3. Eligibility grows with the age band: a game that a user may see
    stays visible to every user of an older band, under the same
    threshold. *)
Theorem isEligible_age_monotone (config : EligibilityFilter.EligibilityConfig)
    (g : Game) (younger older : UserContext) :
  EligibilityFilter.ageBandOrder (ageBand younger)
    <= EligibilityFilter.ageBandOrder (ageBand older) ->
  EligibilityFilter.isEligible config g younger = true ->
  EligibilityFilter.isEligible config g older = true.
Proof.
  intros Hle. rewrite !isEligible_rules. intros (Hage & Hmod & Hfeat).
  split; [lia|]. split; [exact Hmod|].
  destruct Hfeat as [Hy|Hv]; [|right; exact Hv].
  left. rewrite Hy in Hle.
  destruct (ageBand older); simpl in Hle; try lia. reflexivity.
Qed.

Lemma isEligible_age_monotone_witness :
  EligibilityFilter.isEligible
    (RecommendationEngine.eligibilityFilter Samples.defaultEngine)
    (Samples.plainGame "a") Samples.under9
  = true
  /\ EligibilityFilter.isEligible
       (RecommendationEngine.eligibilityFilter Samples.defaultEngine)
       (Samples.plainGame "a") Samples.child
     = true.
Proof.
  split; [vm_compute; reflexivity|].
  apply (isEligible_age_monotone _ _ Samples.under9 Samples.child).
  - simpl. lia.
  - vm_compute. reflexivity.
Defined.

(** X4. A stricter moderation threshold only removes games: the games
    kept under the higher threshold are a subsequence of those kept
    under the lower one. *)
Theorem filterEligible_threshold_monotone
    (lenient strict : EligibilityFilter.EligibilityConfig)
    (candidates : list Game) (userContext : UserContext) :
  (EligibilityFilter.moderationThreshold lenient
   <= EligibilityFilter.moderationThreshold strict)%Q ->
  EligibilityFilter.filterEligible strict candidates userContext
  `sublist_of` EligibilityFilter.filterEligible lenient candidates userContext.
Proof.
  intros Hle. rewrite !filterEligible_filter.
  induction candidates as [|g l IH]; cbn [List.filter]; [constructor|].
  destruct (EligibilityFilter.isEligible strict g userContext) eqn:Hs.
  - assert (Hl : EligibilityFilter.isEligible lenient g userContext = true).
    { apply isEligible_rules. apply isEligible_rules in Hs.
      destruct Hs as (Ha & Hm & Hf). split; [exact Ha|]. split; [|exact Hf].
      eapply Qle_trans; eassumption. }
    rewrite Hl. apply sublist_skip, IH.
  - destruct (EligibilityFilter.isEligible lenient g userContext);
      [apply sublist_cons|]; exact IH.
Qed.

Lemma filterEligible_threshold_monotone_witness :
  EligibilityFilter.filterEligible
    {| EligibilityFilter.moderationThreshold := (8 # 10)%Q |}
    [Samples.plainGame "a";
     Samples.mkGame "m1" UNDER_9 (75 # 100) false 1 {[ SINGLE_PLAYER ]}]
    Samples.child
  `sublist_of`
  EligibilityFilter.filterEligible
    {| EligibilityFilter.moderationThreshold := (7 # 10)%Q |}
    [Samples.plainGame "a";
     Samples.mkGame "m1" UNDER_9 (75 # 100) false 1 {[ SINGLE_PLAYER ]}]
    Samples.child.
Proof.
  apply filterEligible_threshold_monotone. vm_compute. discriminate.
Defined.

(** X5. Filtering is a projection: the result is a subsequence of the
    candidates, filtering it again changes nothing, and a concatenation
    is filtered part by part. *)
Theorem filterEligible_projection (config : EligibilityFilter.EligibilityConfig)
    (userContext : UserContext) (l1 l2 : list Game) :
  EligibilityFilter.filterEligible config l1 userContext `sublist_of` l1
  /\ EligibilityFilter.filterEligible config
       (EligibilityFilter.filterEligible config l1 userContext) userContext
     = EligibilityFilter.filterEligible config l1 userContext
  /\ EligibilityFilter.filterEligible config (l1 ++ l2) userContext
     = EligibilityFilter.filterEligible config l1 userContext
       ++ EligibilityFilter.filterEligible config l2 userContext.
Proof.
  rewrite !filterEligible_filter. split; [apply filter_sublist|]. split.
  - apply filter_all, Forall_forall. intros g Hg.
    apply elem_of_filter_bool in Hg as [_ Hg]. exact Hg.
  - apply List.filter_app.
Qed.

(** ** Buckets, further *)

Lemma fmap_self (l : list string) : (fun s => s) <$> l = l.
Proof. induction l as [|x l IH]; [reflexivity|]. rewrite fmap_cons, IH. reflexivity. Qed.

Section MergeBucketsFacts.
Import BucketOrganizer.

Lemma keepUnseen_fold (ids : list string) (seen : gset string)
    (unique : list string) :
  fold_left keepUnseen ids (seen, unique)
  = (list_to_set ids ∪ seen, unique ++ firstBy (fun s => s) seen ids).
Proof.
  revert seen unique. induction ids as [|x ids IH]; intros seen unique;
    cbn [fold_left firstBy list_to_set keepUnseen].
  - rewrite app_nil_r, (left_id_L ∅ (∪)). reflexivity.
  - destruct (decide (x ∈ seen)) as [Hin|Hin].
    + rewrite (bool_decide_eq_true_2 _ Hin), IH. f_equal.
      apply set_eq. intros k. rewrite !elem_of_union, elem_of_singleton.
      split; [tauto|]. intros [[->|?]|?]; tauto.
    + rewrite (bool_decide_eq_false_2 _ Hin), IH, <- app_assoc. f_equal.
      apply set_eq. intros k. rewrite !elem_of_union, elem_of_singleton. tauto.
Qed.

Lemma mergeBucket_step (seen : gset string) (merged : list RecommendationBucket)
    (bucket : RecommendationBucket) :
  mergeBucket (seen, merged) bucket
  = (list_to_set (games bucket) ∪ seen,
     merged
     ++ match firstBy (fun s => s) seen (games bucket) with
        | [] => []
        | unique =>
            [{| id := id bucket; title := title bucket; games := unique |}]
        end).
Proof.
  unfold mergeBucket. rewrite keepUnseen_fold. cbn [app].
  destruct (firstBy (fun s => s) seen (games bucket)); cbn [length Nat.ltb Nat.leb].
  - rewrite app_nil_r. reflexivity.
  - reflexivity.
Qed.

(** What the loop of [mergeBuckets] adds to [merged], read as one list of
    identifiers, is the deduplication of the input read as one list. *)
Lemma mergeBuckets_from (buckets : list RecommendationBucket)
    (seen : gset string) (merged : list RecommendationBucket) :
  exists added : list RecommendationBucket,
    fold_left mergeBucket buckets (seen, merged)
    = (list_to_set (bucketGames buckets) ∪ seen, merged ++ added)
    /\ bucketGames added = firstBy (fun s => s) seen (bucketGames buckets)
    /\ Forall (fun m => games m <> []) added
    /\ Forall
         (fun m =>
            exists b, b ∈ buckets /\ id m = id b /\ title m = title b
                      /\ games m `sublist_of` games b)
         added
    /\ ((fun m => (id m, title m)) <$> added)
       `sublist_of` ((fun b => (id b, title b)) <$> buckets).
Proof.
  revert seen merged. induction buckets as [|b bs IH]; intros seen merged.
  - exists []. cbn [fold_left]. unfold bucketGames.
    rewrite app_nil_r. cbn [fmap list_fmap concat list_to_set firstBy].
    rewrite (left_id_L ∅ (∪)). repeat split; constructor.
  - cbn [fold_left]. rewrite mergeBucket_step.
    destruct (IH (list_to_set (games b) ∪ seen)
                (merged
                 ++ match firstBy (fun s => s) seen (games b) with
                    | [] => []
                    | unique =>
                        [{| id := id b; title := title b; games := unique |}]
                    end))
      as (added & Hfold & Hgames & Hne & Hsrc & Hsub).
    assert (Hsrc' : Forall
              (fun m =>
                 exists b0, b0 ∈ b :: bs /\ id m = id b0 /\ title m = title b0
                            /\ games m `sublist_of` games b0)
              added).
    { eapply Forall_impl; [exact Hsrc|].
      intros m (b0 & Hb0 & ?). exists b0. split; [|assumption].
      apply list_elem_of_further, Hb0. }
    assert (Hall : bucketGames (b :: bs) = games b ++ bucketGames bs)
      by reflexivity.
    assert (Hseen : (list_to_set (bucketGames (b :: bs)) ∪ seen : gset string)
                    = list_to_set (bucketGames bs)
                      ∪ (list_to_set (games b) ∪ seen)).
    { rewrite Hall, list_to_set_app_L. apply set_eq. intros k.
      rewrite !elem_of_union. tauto. }
    rewrite Hfold, Hseen, Hall, firstBy_app.
    rewrite (fmap_self (games b)).
    destruct (firstBy (fun s => s) seen (games b)) as [|u us] eqn:Hfresh.
    + exists added. rewrite app_nil_r. cbn [app].
      split; [reflexivity|]. split; [exact Hgames|]. split; [exact Hne|].
      split; [exact Hsrc'|]. rewrite fmap_cons. apply sublist_cons, Hsub.
    + exists ({| id := id b; title := title b; games := u :: us |} :: added).
      rewrite <- app_assoc. cbn [app].
      split; [reflexivity|]. split.
      { unfold bucketGames in *. rewrite fmap_cons. cbn [concat games].
        rewrite Hgames. reflexivity. }
      split; [constructor; [discriminate|exact Hne]|].
      split.
      { constructor; [|exact Hsrc'].
        exists b. split; [apply list_elem_of_here|]. cbn [id title games].
        repeat split. rewrite <- Hfresh. apply firstBy_sublist. }
      rewrite !fmap_cons. cbn [id title]. apply sublist_skip, Hsub.
Qed.

(** Buckets that share no identifier and are not empty go through
    [mergeBuckets] untouched. *)
Lemma mergeBuckets_fixed_from (buckets : list RecommendationBucket)
    (seen : gset string) (merged : list RecommendationBucket) :
  NoDup (bucketGames buckets) ->
  (forall k, k ∈ bucketGames buckets -> k ∉ seen) ->
  Forall (fun b => games b <> []) buckets ->
  (fold_left mergeBucket buckets (seen, merged)).2 = merged ++ buckets.
Proof.
  revert seen merged. induction buckets as [|b bs IH];
    intros seen merged Hnd Hfresh Hne; cbn [fold_left].
  - rewrite app_nil_r. reflexivity.
  - change (bucketGames (b :: bs)) with (games b ++ bucketGames bs) in Hnd, Hfresh.
    apply NoDup_app in Hnd as (Hb & Hdisj & Hbs).
    apply Forall_cons in Hne as [Hb_ne Hbs_ne].
    rewrite mergeBucket_step.
    rewrite firstBy_all.
    + rewrite IH.
      * rewrite <- app_assoc. f_equal.
        destruct b as [bid btitle [|g gs]]; [contradiction|reflexivity].
      * exact Hbs.
      * intros k Hk. rewrite elem_of_union, elem_of_list_to_set.
        intros [Hkb|Hks].
        -- exact (Hdisj k Hkb Hk).
        -- revert Hks. apply Hfresh, elem_of_app. right. exact Hk.
      * exact Hbs_ne.
    + rewrite fmap_self. exact Hb.
    + intros k Hk. rewrite fmap_self in Hk.
      apply Hfresh, elem_of_app. left. exact Hk.
Qed.

End MergeBucketsFacts.

(** X6. After [mergeBuckets] no identifier is listed twice, in one bucket
    or across buckets; no identifier is lost; no bucket is empty; and
    every bucket that is left is an input bucket (same id and title, in
    the same order) with a subsequence of its games. *)
Theorem mergeBuckets_disjoint (buckets : list RecommendationBucket) :
  let merged := BucketOrganizer.mergeBuckets buckets in
  NoDup (bucketGames merged)
  /\ (forall k : string, k ∈ bucketGames merged <-> k ∈ bucketGames buckets)
  /\ bucketGames merged `sublist_of` bucketGames buckets
  /\ Forall (fun m => games m <> []) merged
  /\ Forall
       (fun m =>
          exists b, b ∈ buckets /\ id m = id b /\ title m = title b
                    /\ games m `sublist_of` games b)
       merged
  /\ ((fun m => (id m, title m)) <$> merged)
     `sublist_of` ((fun b => (id b, title b)) <$> buckets).
Proof.
  intros merged. subst merged. unfold BucketOrganizer.mergeBuckets.
  destruct (mergeBuckets_from buckets ∅ [])
    as (added & -> & Hgames & Hne & Hsrc & Hsub).
  cbn [snd app]. rewrite Hgames.
  split.
  { rewrite <- (fmap_self (firstBy _ _ _)). apply firstBy_NoDup. }
  split.
  { intros k.
    rewrite <- (fmap_self (firstBy _ _ _)), elem_of_firstBy_keys.
    rewrite fmap_self. split; [tauto|]. intros Hk. split; [exact Hk|].
    apply not_elem_of_empty. }
  split; [apply firstBy_sublist|].
  split; [exact Hne|]. split; [exact Hsrc|exact Hsub].
Qed.

(** X7. [mergeBuckets] is idempotent: merging merged buckets returns
    them as they are. *)
Theorem mergeBuckets_idempotent (buckets : list RecommendationBucket) :
  BucketOrganizer.mergeBuckets (BucketOrganizer.mergeBuckets buckets)
  = BucketOrganizer.mergeBuckets buckets.
Proof.
  unfold BucketOrganizer.mergeBuckets.
  destruct (mergeBuckets_from buckets ∅ []) as (added & -> & Hgames & Hne & _).
  cbn [snd app].
  rewrite mergeBuckets_fixed_from; [reflexivity| | |exact Hne].
  - rewrite Hgames, <- (fmap_self (firstBy _ _ _)). apply firstBy_NoDup.
  - intros k _. apply not_elem_of_empty.
Qed.

Lemma bucketGames_push (buckets : list RecommendationBucket)
    (bid btitle : string) (l : list ScoredGame) :
  bucketGames
    (if (0 <? length l)%nat
     then buckets ++ [BucketOrganizer.createBucket bid btitle l]
     else buckets)
  = bucketGames buckets ++ (SponsoredInjector.gameIdOf <$> l).
Proof.
  unfold bucketGames. destruct l as [|x l]; cbn [length Nat.ltb Nat.leb].
  - rewrite fmap_nil, app_nil_r. reflexivity.
  - rewrite fmap_app, concat_app. cbn [fmap list_fmap concat].
    rewrite app_nil_r. reflexivity.
Qed.

(** X8. [organizeBuckets] returns at most four buckets, their
    identifiers in the fixed order, none of them empty; read in order,
    the buckets list the identifiers of the four source lists in
    order. *)
Theorem organizeBuckets_layout
    (recommendedGames popularGames trendingGames sponsoredGames : list ScoredGame) :
  let buckets :=
    BucketOrganizer.organizeBuckets recommendedGames popularGames trendingGames
      sponsoredGames in
  id <$> buckets
  `sublist_of` ["recommended_for_you"; "popular_by_age"; "new_and_trending";
                "sponsored_events"]
  /\ (length buckets <= 4)%nat
  /\ Forall (fun b => games b <> []) buckets
  /\ bucketGames buckets
     = SponsoredInjector.gameIdOf
         <$> (recommendedGames ++ popularGames ++ trendingGames ++ sponsoredGames).
Proof.
  intros buckets. subst buckets.
  assert (Hgames : bucketGames
                     (BucketOrganizer.organizeBuckets recommendedGames
                        popularGames trendingGames sponsoredGames)
                   = SponsoredInjector.gameIdOf
                       <$> (recommendedGames ++ popularGames ++ trendingGames
                            ++ sponsoredGames)).
  { unfold BucketOrganizer.organizeBuckets. cbv zeta.
    rewrite !bucketGames_push, !fmap_app, <- !app_assoc. reflexivity. }
  split; [|split; [|split; [|exact Hgames]]];
    unfold BucketOrganizer.organizeBuckets;
    destruct recommendedGames as [|r rs], popularGames as [|q qs],
      trendingGames as [|t ts], sponsoredGames as [|s ss];
    cbn [length Nat.ltb Nat.leb app fmap list_fmap BucketOrganizer.createBucket id].
  all: try lia.
  all: try (repeat (first [apply sublist_nil | apply sublist_skip
                           | apply sublist_cons])).
  all: repeat (apply List.Forall_cons; [cbn; discriminate|]); apply List.Forall_nil.
Qed.

(** ** Diversity pass, further *)

Section DiversityMore.
Import DiversityPass.

Lemma fold_bump_lookup_exact (ks : list Z) (counts : gmap Z Z) (g : Z) :
  NoDup ks ->
  fold_left bump ks counts !! g
  = if bool_decide (g ∈ ks) then Some (default 0 (counts !! g) + 1)
    else counts !! g.
Proof.
  intros Hnd. revert counts.
  induction Hnd as [|k ks Hk Hnd IH]; intros counts; cbn [fold_left].
  - rewrite bool_decide_eq_false_2 by apply not_elem_of_nil. reflexivity.
  - rewrite IH. unfold bump.
    destruct (decide (g = k)) as [Heq|Hne].
    + subst g. rewrite lookup_insert_eq.
      rewrite (bool_decide_eq_false_2 (k ∈ ks)) by exact Hk.
      rewrite (bool_decide_eq_true_2 (k ∈ k :: ks)) by apply list_elem_of_here.
      reflexivity.
    + rewrite lookup_insert_ne by congruence.
      apply (f_equal (fun b : bool =>
                        if b then Some (default 0 (counts !! g) + 1)
                        else counts !! g)).
      apply bool_decide_ext. rewrite elem_of_cons. tauto.
Qed.

Lemma updateGenreCounts_lookup_exact sg counts g :
  updateGenreCounts sg counts !! g
  = if bool_decide (is_Some (genreVector (game sg) !! g))
    then Some (default 0 (counts !! g) + 1)
    else counts !! g.
Proof.
  unfold updateGenreCounts. fold bump.
  rewrite fold_bump_lookup_exact by apply genreIds_NoDup.
  rewrite (bool_decide_ext _ _ (elem_of_genreIds g sg)). reflexivity.
Qed.

Lemma getGenreStats_snoc l sg :
  getGenreStats (l ++ [sg]) = updateGenreCounts sg (getGenreStats l).
Proof. unfold getGenreStats. rewrite fold_left_app. reflexivity. Qed.

Lemma genreCount_positive g l :
  (0 < genreCount g l)%nat
  <-> exists sg, sg ∈ l /\ is_Some (genreVector (game sg) !! g).
Proof.
  unfold genreCount. induction l as [|x l IH]; cbn [List.filter].
  - cbn [length]. split; [lia|]. intros (sg & H & _).
    apply elem_of_nil in H. contradiction.
  - destruct (decide (is_Some (genreVector (game x) !! g))) as [Hx|Hx].
    + rewrite (bool_decide_eq_true_2 _ Hx). cbn [length]. split; [|lia].
      intros _. exists x. split; [apply list_elem_of_here|exact Hx].
    + rewrite (bool_decide_eq_false_2 _ Hx), IH. split.
      * intros (sg & Hsg & Hg). exists sg.
        split; [apply list_elem_of_further, Hsg|exact Hg].
      * intros (sg & Hsg & Hg). apply elem_of_cons in Hsg as [->|Hsg];
          [contradiction|]. exists sg. split; assumption.
Qed.

Lemma countUniqueGenres_fold (l : list ScoredGame) (genres : gset Z) :
  fold_left
    (fun genres scoredGame =>
       fold_left (fun genres genreId => {[genreId]} ∪ genres)
         (genreIds scoredGame) genres)
    l genres
  = ⋃ ((fun sg => dom (genreVector (game sg))) <$> l) ∪ genres.
Proof.
  revert genres. induction l as [|sg l IH]; intros genres; cbn [fold_left].
  - rewrite fmap_nil, union_list_nil, (left_id_L ∅ (∪)). reflexivity.
  - rewrite IH, fmap_cons, union_list_cons.
    assert (Hin : forall (ks : list Z) (acc : gset Z),
               fold_left (fun genres genreId => {[genreId]} ∪ genres) ks acc
               = list_to_set ks ∪ acc).
    { induction ks as [|k ks IHk]; intros acc; cbn [fold_left list_to_set].
      - rewrite (left_id_L ∅ (∪)). reflexivity.
      - rewrite IHk. apply set_eq. intros x. rewrite !elem_of_union. tauto. }
    rewrite Hin. apply set_eq. intros x.
    rewrite !elem_of_union, elem_of_list_to_set, elem_of_genreIds, elem_of_dom.
    tauto.
Qed.

(** The list the loop returns extends the list it was given by a
    subsequence of its input. *)
Lemma diversifyLoop_extends config sortedGames diversified genreCounts :
  exists added,
    (diversifyLoop config sortedGames diversified genreCounts).1
    = diversified ++ added
    /\ added `sublist_of` sortedGames.
Proof.
  revert diversified genreCounts.
  induction sortedGames as [|x rest IH]; intros diversified genreCounts;
    cbn [diversifyLoop].
  - exists []. rewrite app_nil_r. split; [reflexivity|constructor].
  - destruct (violatesDiversityRules config x diversified genreCounts).
    + destruct (IH diversified genreCounts) as (added & -> & Hsub).
      exists added. split; [reflexivity|apply sublist_cons, Hsub].
    + destruct (Z.of_nat (length (diversified ++ [x])) >=? maxResults config).
      * exists [x]. split; [reflexivity|].
        apply sublist_skip, sublist_nil_l.
      * destruct (IH (diversified ++ [x]) (updateGenreCounts x genreCounts))
          as (added & -> & Hsub).
        exists (x :: added). rewrite <- app_assoc.
        split; [reflexivity|apply sublist_skip, Hsub].
Qed.

(** With [avoidAllMultiplayer] the loop never holds two or more items
    that are all multiplayer. *)
Lemma diversifyLoop_multiplayer config sortedGames diversified genreCounts :
  avoidAllMultiplayer (diversityRules config) = true ->
  (length diversified <= 1)%nat
  \/ forallb (hasFeature MULTIPLAYER) diversified = false ->
  let out := (diversifyLoop config sortedGames diversified genreCounts).1 in
  (length out <= 1)%nat \/ forallb (hasFeature MULTIPLAYER) out = false.
Proof.
  intros Havoid. revert diversified genreCounts.
  induction sortedGames as [|x rest IH]; intros diversified genreCounts Hinv;
    cbn [diversifyLoop].
  - exact Hinv.
  - destruct (violatesDiversityRules config x diversified genreCounts) eqn:Hv.
    + apply IH, Hinv.
    + assert (Hpush : (length (diversified ++ [x]) <= 1)%nat
                      \/ forallb (hasFeature MULTIPLAYER) (diversified ++ [x])
                         = false).
      { unfold violatesDiversityRules in Hv.
        destruct (violatesMaxPerGenre _ _ _); [discriminate|].
        unfold violatesAllMultiplayer in Hv. rewrite Havoid in Hv.
        cbn [negb] in Hv. rewrite forallb_app. cbn [forallb].
        destruct diversified as [|d ds]; [left; cbn; lia|right].
        destruct (hasFeature MULTIPLAYER x);
          [|rewrite andb_false_r; reflexivity].
        destruct (forallb (hasFeature MULTIPLAYER) (d :: ds)); [|reflexivity].
        cbn in Hv. discriminate Hv. }
      destruct (Z.of_nat (length (diversified ++ [x])) >=? maxResults config).
      * exact Hpush.
      * apply IH, Hpush.
Qed.

End DiversityMore.

Lemma fold_bump_dom (ks : list Z) (counts : gmap Z Z) :
  dom (fold_left bump ks counts) = list_to_set ks ∪ dom counts.
Proof.
  revert counts. induction ks as [|k ks IH]; intros counts;
    cbn [fold_left list_to_set].
  - rewrite (left_id_L ∅ (∪)). reflexivity.
  - rewrite IH. unfold bump. rewrite dom_insert_L.
    apply set_eq. intros x. rewrite !elem_of_union. tauto.
Qed.

Lemma getGenreStats_dom (l : list ScoredGame) :
  dom (DiversityPass.getGenreStats l)
  = ⋃ ((fun sg => dom (genreVector (game sg))) <$> l).
Proof.
  induction l as [|sg l IH] using rev_ind.
  - unfold DiversityPass.getGenreStats. cbn [fold_left].
    rewrite fmap_nil, union_list_nil. apply dom_empty_L.
  - rewrite getGenreStats_snoc. unfold DiversityPass.updateGenreCounts.
    fold bump. rewrite fold_bump_dom, IH, fmap_app, union_list_app_L.
    rewrite fmap_cons, fmap_nil, union_list_cons, union_list_nil.
    apply set_eq. intros x.
    rewrite !elem_of_union, elem_of_list_to_set, elem_of_genreIds, elem_of_dom.
    rewrite elem_of_empty. tauto.
Qed.

(** X9. [getGenreStats] maps every genre that some item of the list
    declares to the number of items that declare it, and no other
    genre. *)
Theorem getGenreStats_counts (l : list ScoredGame) (g : Z) :
  DiversityPass.getGenreStats l !! g
  = if (genreCount g l =? 0)%nat then None else Some (Z.of_nat (genreCount g l)).
Proof.
  induction l as [|sg l IH] using rev_ind.
  - reflexivity.
  - rewrite getGenreStats_snoc, updateGenreCounts_lookup_exact, IH.
    pose proof (genreCount_snoc g l sg) as Hc.
    destruct (bool_decide (is_Some (genreVector (game sg) !! g))).
    + destruct (genreCount g (l ++ [sg]) =? 0)%nat eqn:H0;
        [apply Nat.eqb_eq in H0; lia|].
      destruct (genreCount g l =? 0)%nat eqn:H1.
      * apply Nat.eqb_eq in H1. cbn [default]. f_equal. lia.
      * cbn [default]. unfold Datatypes.id. f_equal. lia.
    + assert (genreCount g (l ++ [sg]) = genreCount g l) as -> by lia.
      reflexivity.
Qed.

(** X10. [countUniqueGenres] is the number of keys of [getGenreStats]:
    the genres that at least one item of the list declares. *)
Theorem countUniqueGenres_stats (l : list ScoredGame) :
  DiversityPass.countUniqueGenres l
  = Z.of_nat (size (dom (DiversityPass.getGenreStats l)))
  /\ (forall g : Z,
        g ∈ dom (DiversityPass.getGenreStats l)
        <-> exists sg, sg ∈ l /\ is_Some (genreVector (game sg) !! g)).
Proof.
  rewrite getGenreStats_dom. split.
  - unfold DiversityPass.countUniqueGenres.
    rewrite countUniqueGenres_fold, (right_id_L ∅ (∪)). reflexivity.
  - intros g. rewrite elem_of_union_list. split.
    + intros (X & HX & Hg).
      apply list_elem_of_fmap in HX as (sg & -> & Hsg).
      exists sg. split; [exact Hsg|]. apply elem_of_dom, Hg.
    + intros (sg & Hsg & Hg). exists (dom (genreVector (game sg))).
      split; [apply list_elem_of_fmap; eauto|]. apply elem_of_dom, Hg.
Qed.

(** X11. [diversify] returns a subsequence of its input: it drops items,
    and neither reorders nor adds any. *)
Theorem diversify_sublist (config : RecommendationConfig)
    (sortedGames : list ScoredGame) :
  (DiversityPass.diversify config sortedGames).1 `sublist_of` sortedGames.
Proof.
  rewrite diversify_loop.
  destruct (diversifyLoop_extends config sortedGames [] ∅) as (added & -> & Hsub).
  exact Hsub.
Qed.

(** X12. With [avoidAllMultiplayer] set, [diversify] never returns two or
    more items that are all multiplayer. *)
Theorem diversify_not_all_multiplayer (config : RecommendationConfig)
    (sortedGames : list ScoredGame) :
  avoidAllMultiplayer (diversityRules config) = true ->
  let out := (DiversityPass.diversify config sortedGames).1 in
  (length out <= 1)%nat
  \/ forallb (DiversityPass.hasFeature MULTIPLAYER) out = false.
Proof.
  intros Havoid out. subst out. rewrite diversify_loop.
  apply diversifyLoop_multiplayer; [exact Havoid|]. left. cbn. lia.
Qed.

(** Of two multiplayer games of different genres only the first is
    kept. *)
Lemma diversify_not_all_multiplayer_witness :
  let l := [Samples.scored
              (Samples.mkGame "p" UNDER_9 (9 # 10) false 1 {[ MULTIPLAYER ]}) 2;
            Samples.scored
              (Samples.mkGame "q" UNDER_9 (9 # 10) false 2 {[ MULTIPLAYER ]}) 1] in
  let out := (DiversityPass.diversify DEFAULT_CONFIG l).1 in
  (fun sg => gameId (game sg)) <$> out = ["p"]
  /\ ((length out <= 1)%nat
      \/ forallb (DiversityPass.hasFeature MULTIPLAYER) out = false).
Proof.
  split; [vm_compute; reflexivity|].
  apply (diversify_not_all_multiplayer DEFAULT_CONFIG). reflexivity.
Defined.

(** X13. With a positive per-genre cap the best-placed item is always
    kept, in first place. *)
Theorem diversify_keeps_top (config : RecommendationConfig)
    (top : ScoredGame) (rest : list ScoredGame) :
  0 < maxPerGenre (diversityRules config) ->
  head (DiversityPass.diversify config (top :: rest)).1 = Some top.
Proof.
  intros Hcap. rewrite diversify_loop. cbn [DiversityPass.diversifyLoop].
  assert (Hv : DiversityPass.violatesDiversityRules config top [] ∅ = false).
  { unfold DiversityPass.violatesDiversityRules.
    assert (Hm : DiversityPass.violatesMaxPerGenre config top ∅ = false).
    { unfold DiversityPass.violatesMaxPerGenre.
      apply not_true_is_false. intros Hex.
      apply existsb_exists in Hex as (g & _ & Hg).
      rewrite lookup_empty in Hg. cbn [default] in Hg.
      rewrite Z.geb_leb in Hg. apply Z.leb_le in Hg. lia. }
    rewrite Hm. unfold DiversityPass.violatesAllMultiplayer.
    destruct (negb _); [reflexivity|].
    destruct (DiversityPass.hasFeature MULTIPLAYER top); reflexivity. }
  rewrite Hv. cbn [app].
  destruct (Z.of_nat (length [top]) >=? maxResults config); [reflexivity|].
  destruct (diversifyLoop_extends config rest [top]
              (DiversityPass.updateGenreCounts top ∅)) as (added & -> & _).
  reflexivity.
Qed.

Lemma diversify_keeps_top_witness :
  head (DiversityPass.diversify DEFAULT_CONFIG
          [Samples.scored (Samples.plainGame "a") 2;
           Samples.scored (Samples.plainGame "b") 1]).1
  = Some (Samples.scored (Samples.plainGame "a") 2).
Proof. apply diversify_keeps_top. vm_compute. reflexivity. Defined.

(** ** Scoring, further *)

(** X14. [scoreGames] returns one entry per eligible game; every entry
    carries, label by label, the nine signals computed for its game, and
    its score is the sum of the seven weighted boosts minus the two
    weighted penalties of that breakdown, under the configured weights. *)
Theorem scoreGames_explained
    (Math_log Math_exp Math_sqrt : Q -> Q) (Date_now : Z)
    (config : RecommendationConfig) (eligibleGames : list Game)
    (userContext : UserContext) (userHistory : UserHistory) :
  let scored :=
    ScoringEngine.scoreGames Math_log Math_exp Math_sqrt Date_now config
      eligibleGames userContext userHistory in
  game <$> scored ≡ₚ eligibleGames
  /\ Forall
       (fun sg =>
          let w := weights config in
          let b := breakdown sg in
          let g := game sg in
          b = {| Signals.genreAffinity :=
                   ScoringEngine.computeGenreAffinity Math_sqrt
                     (userGenreVector userContext) (genreVector g);
                 Signals.ageBandPopularity :=
                   ScoringEngine.computeAgeBandPopularity Math_log g
                     (ageBand userContext);
                 Signals.engagementSimilarity :=
                   ScoringEngine.computeEngagementSimilarity g userHistory;
                 Signals.favouriteAffinity :=
                   ScoringEngine.computeFavouriteAffinity g userHistory;
                 Signals.communityRating :=
                   ScoringEngine.computeCommunityRating Math_log g;
                 Signals.recencyBoost :=
                   ScoringEngine.computeRecencyBoost Math_exp Date_now config g;
                 Signals.sponsoredBoost :=
                   ScoringEngine.computeSponsoredBoost config g;
                 Signals.repetitionPenalty :=
                   ScoringEngine.computeRepetitionPenalty g userHistory;
                 Signals.creationRecencyPenalty :=
                   ScoringEngine.computeCreationRecencyPenalty Date_now config g |}
          /\ score sg
              = (Signals.genreAffinity w * Signals.genreAffinity b
                 + Signals.ageBandPopularity w * Signals.ageBandPopularity b
                 + Signals.engagementSimilarity w * Signals.engagementSimilarity b
                 + Signals.favouriteAffinity w * Signals.favouriteAffinity b
                 + Signals.communityRating w * Signals.communityRating b
                 + Signals.recencyBoost w * Signals.recencyBoost b
                 + Signals.sponsoredBoost w * Signals.sponsoredBoost b
                 - Signals.repetitionPenalty w * Signals.repetitionPenalty b
                 - Signals.creationRecencyPenalty w
                   * Signals.creationRecencyPenalty b)%Q)
       scored.
Proof.
  intros scored. subst scored. split.
  - rewrite scoreGames_perm, <- list_fmap_compose. apply reflexive_eq, list_fmap_id.
  - apply Forall_forall. intros sg Hsg.
    rewrite scoreGames_perm in Hsg.
    apply list_elem_of_fmap in Hsg as (g & -> & _).
    cbv zeta. unfold ScoringEngine.scoreGame. cbn [game score breakdown].
    split; [unfold ScoringEngine.computeBreakdown|
            unfold ScoringEngine.compositeScore]; reflexivity.
Qed.

(** X15. With a non-negative multiplier and a non-negative cap the
    sponsored boost lies between 0 and [maxSponsoredBoost], and it is 0
    for a game that is not sponsored. *)
Theorem computeSponsoredBoost_bounds (config : RecommendationConfig) (g : Game) :
  (0 <= sponsoredAmountMultiplier config)%Q ->
  (0 <= maxSponsoredBoost config)%Q ->
  (0 <= ScoringEngine.computeSponsoredBoost config g)%Q
  /\ (ScoringEngine.computeSponsoredBoost config g <= maxSponsoredBoost config)%Q
  /\ (isSponsored g = false -> ScoringEngine.computeSponsoredBoost config g = 0%Q).
Proof.
  intros Hmul Hcap. unfold ScoringEngine.computeSponsoredBoost.
  destruct (isSponsored g); cbn [negb orb].
  - destruct (Qle_bool (sponsoredAmount g) 0) eqn:Hamt.
    + split; [apply Qle_refl|]. split; [exact Hcap|discriminate].
    + assert (Hpos : (0 < sponsoredAmount g)%Q).
      { apply Qnot_le_lt. intros Hle. apply Qle_bool_iff in Hle. congruence. }
      split; [|split; [apply Q.le_min_r|discriminate]].
      apply Q.min_glb; [|exact Hcap].
      apply Qmult_le_0_compat; [apply Qlt_le_weak, Hpos|exact Hmul].
  - split; [apply Qle_refl|]. split; [exact Hcap|reflexivity].
Qed.

Lemma computeSponsoredBoost_bounds_witness :
  ScoringEngine.computeSponsoredBoost DEFAULT_CONFIG (Samples.sponsoredGame "s")
  = Qmin (1000 * (1 # 1000)) 2
  /\ (0 <= ScoringEngine.computeSponsoredBoost DEFAULT_CONFIG
             (Samples.sponsoredGame "s"))%Q
  /\ (ScoringEngine.computeSponsoredBoost DEFAULT_CONFIG (Samples.sponsoredGame "s")
      <= maxSponsoredBoost DEFAULT_CONFIG)%Q.
Proof.
  split; [reflexivity|].
  destruct (computeSponsoredBoost_bounds DEFAULT_CONFIG (Samples.sponsoredGame "s"))
    as (H0 & H1 & _).
  - vm_compute. discriminate.
  - vm_compute. discriminate.
  - split; [exact H0|exact H1].
Defined.

(** X16. The creation-recency penalty lies between 0 and 1 for every
    game, clock and configuration.  The grace test comes first: the
    penalty is 1 for a game younger than the grace period, whatever
    [creationPenaltyMaxDays] is; past the grace period it is 0 from
    [creationPenaltyMaxDays] on, and before that
    1 - (days - grace) / (max - grace). *)
Theorem computeCreationRecencyPenalty_range (Date_now : Z)
    (config : RecommendationConfig) (g : Game) :
  let days := inject_Z (ScoringEngine.daysSince Date_now (creationDate g)) in
  let grace := creationGracePeriodDays config in
  let maxDays := creationPenaltyMaxDays config in
  let penalty := ScoringEngine.computeCreationRecencyPenalty Date_now config g in
  (0 <= penalty)%Q /\ (penalty <= 1)%Q
  /\ ((days < grace)%Q -> penalty = 1%Q)
  /\ ((grace <= days)%Q -> (maxDays <= days)%Q -> penalty = 0%Q)
  /\ ((grace <= days)%Q -> (days < maxDays)%Q ->
      penalty = (1 - (days - grace) / (maxDays - grace))%Q).
Proof.
  intros days grace maxDays penalty. subst penalty grace maxDays.
  unfold ScoringEngine.computeCreationRecencyPenalty. fold days.
  destruct (Qle_bool (creationGracePeriodDays config) days) eqn:Hgrace;
    cbn [negb].
  - apply Qle_bool_iff in Hgrace.
    destruct (Qle_bool (creationPenaltyMaxDays config) days) eqn:Hmax.
    + apply Qle_bool_iff in Hmax.
      repeat split; intros; first [reflexivity | lra].
    + assert (Hlt : (days < creationPenaltyMaxDays config)%Q).
      { apply Qnot_le_lt. intros Hle. apply Qle_bool_iff in Hle. congruence. }
      set (range := (creationPenaltyMaxDays config
                     - creationGracePeriodDays config)%Q).
      set (inDecay := (days - creationGracePeriodDays config)%Q).
      assert (Hrange : (0 < range)%Q) by (subst range; lra).
      assert (Hlo : (0 <= inDecay / range)%Q)
        by (apply Qle_shift_div_l; [exact Hrange|subst inDecay; lra]).
      assert (Hhi : (inDecay / range <= 1)%Q)
        by (apply Qle_shift_div_r; [exact Hrange|subst inDecay range; lra]).
      repeat split; intros; first [reflexivity | lra].
  - assert (Hlt : (days < creationGracePeriodDays config)%Q).
    { apply Qnot_le_lt. intros Hle. apply Qle_bool_iff in Hle. congruence. }
    repeat split; intros; first [reflexivity | lra].
Qed.

Lemma computeCreationRecencyPenalty_range_witness :
  ScoringEngine.computeCreationRecencyPenalty (10 * ScoringEngine.msPerDay)
    Samples.longGrace (Samples.plainGame "a") = 1%Q
  /\ ScoringEngine.computeCreationRecencyPenalty (40 * ScoringEngine.msPerDay)
       Samples.longGrace (Samples.plainGame "a") = 0%Q
  /\ ScoringEngine.computeCreationRecencyPenalty (10 * ScoringEngine.msPerDay)
       DEFAULT_CONFIG (Samples.plainGame "a") = (1 - (10 - 7) / (30 - 7))%Q.
Proof.
  split; [|split].
  - destruct (computeCreationRecencyPenalty_range (10 * ScoringEngine.msPerDay)
                Samples.longGrace (Samples.plainGame "a"))
      as (_ & _ & Hyoung & _).
    apply Hyoung. vm_compute. reflexivity.
  - destruct (computeCreationRecencyPenalty_range (40 * ScoringEngine.msPerDay)
                Samples.longGrace (Samples.plainGame "a"))
      as (_ & _ & _ & Hold & _).
    apply Hold; vm_compute; discriminate.
  - destruct (computeCreationRecencyPenalty_range (10 * ScoringEngine.msPerDay)
                DEFAULT_CONFIG (Samples.plainGame "a"))
      as (_ & _ & _ & _ & Hdecay).
    apply Hdecay; vm_compute; [discriminate|reflexivity].
Defined.

Section CosineFacts.

Variables vec1 vec2 : gmap Z Q.

(** Over genres that one of the two vectors lacks, the loop of
    [cosineSimilarity] adds nothing to the dot product. *)
Lemma cosine_fold_dot (l : list Z) (d a b : Q) :
  (forall genreId, genreId ∈ l ->
     vec1 !! genreId = None \/ vec2 !! genreId = None) ->
  exists D A B,
    fold_left
      (fun (acc : Q * Q * Q) (genreId : Z) =>
         let '(dotProduct, magnitude1, magnitude2) := acc in
         let weight1 := default 0%Q (vec1 !! genreId) in
         let weight2 := default 0%Q (vec2 !! genreId) in
         (dotProduct + weight1 * weight2,
          magnitude1 + weight1 * weight1,
          magnitude2 + weight2 * weight2)%Q)
      l (d, a, b) = (D, A, B)
    /\ (D == d)%Q.
Proof.
  revert d a b. induction l as [|g l IH]; intros d a b Hl; cbn [fold_left].
  - exists d, a, b. split; reflexivity.
  - destruct (IH (d + default 0 (vec1 !! g) * default 0 (vec2 !! g))%Q
                (a + default 0 (vec1 !! g) * default 0 (vec1 !! g))%Q
                (b + default 0 (vec2 !! g) * default 0 (vec2 !! g))%Q)
      as (D & A & B & Hfold & HD).
    { intros g' Hg'. apply Hl. right. exact Hg'. }
    exists D, A, B. split; [exact Hfold|].
    rewrite HD.
    destruct (Hl g) as [Hnone|Hnone]; [left|rewrite Hnone..];
      cbn [default]; ring.
Qed.

End CosineFacts.

(** X17. A game that shares no genre with the user has genre affinity 0,
    whatever the weights of either vector and whatever the square-root
    function. *)
Theorem computeGenreAffinity_disjoint (Math_sqrt : Q -> Q)
    (userVector gameVector : gmap Z Q) :
  dom userVector ## dom gameVector ->
  (ScoringEngine.computeGenreAffinity Math_sqrt userVector gameVector == 0)%Q.
Proof.
  intros Hdisjoint.
  unfold ScoringEngine.computeGenreAffinity, ScoringEngine.cosineSimilarity.
  assert (Hlacks : forall genreId : Z,
             genreId ∈ elements (dom userVector ∪ dom gameVector) ->
             userVector !! genreId = None \/ gameVector !! genreId = None).
  { intros genreId _.
    destruct (userVector !! genreId) as [w1|] eqn:H1; [|left; reflexivity].
    destruct (gameVector !! genreId) as [w2|] eqn:H2; [|right; reflexivity].
    exfalso. apply (Hdisjoint genreId); apply elem_of_dom; eauto. }
  pose proof (cosine_fold_dot userVector gameVector _ 0%Q 0%Q 0%Q Hlacks)
    as Hfold.
  cbv beta zeta in Hfold. destruct Hfold as (D & A & B & -> & HD).
  destruct (Qeq_bool (Math_sqrt A) 0 || Qeq_bool (Math_sqrt B) 0);
    [reflexivity|].
  rewrite HD. unfold Qdiv. ring.
Qed.

Lemma computeGenreAffinity_disjoint_witness :
  (ScoringEngine.computeGenreAffinity (fun x => x)
     {[ 1%Z := (3 # 10)%Q ]} {[ 2%Z := 1%Q ]} == 0)%Q.
Proof.
  apply computeGenreAffinity_disjoint.
  rewrite !dom_singleton_L. apply disjoint_singleton_l.
  rewrite elem_of_singleton. discriminate.
Defined.

(** ** Sponsored injection, by position *)

Section MergePositions.
Import SponsoredInjector.

Variables diversifiedGames eligibleSponsored : list ScoredGame.
Variable organic : ScoredGame -> bool.
Hypothesis organic_diversified :
  Forall (fun sg => organic sg = true) diversifiedGames.
Hypothesis organic_sponsored :
  Forall (fun sg => organic sg = false) eligibleSponsored.

Local Abbreviation n := (Z.of_nat (length diversifiedGames)).
Local Abbreviation k := (Z.of_nat (length eligibleSponsored)).
Local Abbreviation slots := (calculateInjectionSlots n k).

(** A turn of the loop pushes one sponsored item, or one organic item,
    or nothing. *)
Lemma mergeStep_shape result s o i :
  (exists sg, eligibleSponsored !! s = Some sg
              /\ mergeStep diversifiedGames eligibleSponsored slots (result, s, o) i
                 = (result ++ [sg], S s, o))
  \/ (exists sg, diversifiedGames !! o = Some sg
                 /\ mergeStep diversifiedGames eligibleSponsored slots (result, s, o) i
                    = (result ++ [sg], s, S o))
  \/ mergeStep diversifiedGames eligibleSponsored slots (result, s, o) i
     = (result, s, o).
Proof.
  unfold mergeStep.
  destruct (bool_decide (i ∈ slots) && (s <? length eligibleSponsored)%nat).
  - destruct (eligibleSponsored !! s) as [sg|]; [left; eauto|right; right; reflexivity].
  - destruct (o <? length diversifiedGames)%nat; [|right; right; reflexivity].
    destruct (diversifiedGames !! o) as [sg|];
      [right; left; eauto|right; right; reflexivity].
Qed.

Lemma mergeStep_placed i st :
  0 <= i < n + k ->
  mergeInvariant organic diversifiedGames eligibleSponsored i st ->
  mergePlaced diversifiedGames eligibleSponsored i st ->
  mergePlaced diversifiedGames eligibleSponsored (i + 1)
    (mergeStep diversifiedGames eligibleSponsored slots st i).
Proof.
  intros Hi Hinv Hplaced.
  pose proof (mergeStep_invariant diversifiedGames eligibleSponsored organic
                organic_diversified organic_sponsored i st Hi Hinv) as Hinv'.
  destruct st as [[result s] o].
  destruct Hinv as (Hsum & Hs & Ho & Hnext & Hpast & _).
  destruct Hplaced as (Hlen & Hat).
  destruct (mergeStep_shape result s o i)
    as [(sg & Hsg & Heq)|[(sg & Hsg & Heq)|Heq]];
    rewrite Heq in Hinv' |- *.
  - destruct Hinv' as (_ & _ & _ & _ & Hpast' & _).
    assert (Hsk : Z.of_nat s < k).
    { apply lookup_lt_Some in Hsg. lia. }
    assert (Hslot : slotAt n k (Z.of_nat s) = i).
    { specialize (Hnext Hsk). specialize (Hpast' (Z.of_nat s) ltac:(lia)). lia. }
    split; [rewrite length_app; cbn [length]; lia|].
    intros j Hj. destruct (decide (j = s)) as [->|Hne].
    + rewrite Hslot, lookup_app_r by lia.
      replace (Z.to_nat i - length result)%nat with O by lia.
      rewrite Hsg. reflexivity.
    + rewrite lookup_app_l; [apply Hat; lia|].
      specialize (Hpast (Z.of_nat j) ltac:(lia)). lia.
  - split; [rewrite length_app; cbn [length]; lia|].
    intros j Hj. rewrite lookup_app_l; [apply Hat; lia|].
    specialize (Hpast (Z.of_nat j) ltac:(lia)). lia.
  - destruct Hinv' as (Hsum' & _). lia.
Qed.

Lemma merge_positions :
  let '(result, _, _) :=
    fold_left (mergeStep diversifiedGames eligibleSponsored slots)
      (seqZ 0 (Z.of_nat (length diversifiedGames + length eligibleSponsored)))
      ([], O, O) in
  forall j : nat,
    (j < length eligibleSponsored)%nat ->
    result !! Z.to_nat (slotAt n k (Z.of_nat j)) = eligibleSponsored !! j.
Proof.
  pose proof (fold_left_seqZ_invariant
                (mergeStep diversifiedGames eligibleSponsored slots)
                (fun i st =>
                   mergeInvariant organic diversifiedGames eligibleSponsored i st
                   /\ mergePlaced diversifiedGames eligibleSponsored i st)
                (length diversifiedGames + length eligibleSponsored)
                ([], O, O)) as Hfold.
  destruct (fold_left _ _ _) as [[result s] o].
  destruct Hfold as ((Hsum & Hs & Ho & _) & (_ & Hat)).
  - pose proof (spacing_bounds diversifiedGames eligibleSponsored) as [Hsp0 Hsp].
    split.
    + cbn. repeat split; try lia. intros _. unfold slotAt. nia.
    + split; [reflexivity|]. intros j Hj. lia.
  - intros i st Hi [Hinv Hplaced]. split.
    + apply mergeStep_invariant; [assumption|assumption|lia|exact Hinv].
    + apply mergeStep_placed; [lia|exact Hinv|exact Hplaced].
  - intros j Hj. apply Hat. lia.
Qed.

End MergePositions.

(** X18. [injectSponsored] puts the [j]-th inserted item at position
    [spacing * (j + 1) + j], where [spacing] is the integer quotient of
    the number of organic items by the number of inserted items plus
    one: reading the result at these positions gives the inserted items
    in order. *)
Theorem injectSponsored_positions (maxSponsoredPerList : Z)
    (diversifiedGames sponsoredGames : list ScoredGame) :
  let inserted :=
    Array_slice0
      (SponsoredInjector.notAlreadyListed diversifiedGames sponsoredGames)
      maxSponsoredPerList in
  let result :=
    SponsoredInjector.injectSponsored maxSponsoredPerList diversifiedGames
      sponsoredGames in
  (fun j : nat =>
     result !! Z.to_nat (slotAt (Z.of_nat (length diversifiedGames))
                           (Z.of_nat (length inserted)) (Z.of_nat j)))
    <$> seq 0 (length inserted)
  = Some <$> inserted.
Proof.
  intros inserted result.
  apply list_eq. intros j. rewrite !list_lookup_fmap.
  destruct (decide (j < length inserted)%nat) as [Hj|Hj].
  - rewrite lookup_seq_lt by exact Hj. cbn [fmap option_fmap option_map].
    destruct (lookup_lt_is_Some_2 inserted j Hj) as [sg Hsg].
    rewrite Hsg. cbn [fmap option_fmap option_map]. f_equal. rewrite <- Hsg.
    subst result. unfold SponsoredInjector.injectSponsored. fold inserted.
    destruct (length inserted =? 0)%nat eqn:Hlen;
      [apply Nat.eqb_eq in Hlen; lia|].
    pose proof (merge_positions diversifiedGames inserted
                  (alreadyListed diversifiedGames)
                  (alreadyListed_diversified diversifiedGames)
                  (eligibleSponsored_spec maxSponsoredPerList diversifiedGames
                     sponsoredGames)) as Hpos.
    destruct (fold_left _ _ _) as [[res s] o]. apply Hpos, Hj.
  - rewrite lookup_seq_ge by lia. rewrite lookup_ge_None_2 by lia. reflexivity.
Qed.

(** ** Charts, further *)

Section ChartMore.
Import ChartGenerator.

Lemma collect_elem_from (scoreOf : Game -> option Q) candidates acc e :
  e ∈ fold_left
        (fun chartList g =>
           match scoreOf g with
           | Some s =>
               chartList
               ++ [{| entryGameId := gameId g; entryScore := s; rank := 0 |}]
           | None => chartList
           end)
        candidates acc ->
  e ∈ acc
  \/ exists g, g ∈ candidates /\ entryGameId e = gameId g
               /\ scoreOf g = Some (entryScore e).
Proof.
  revert acc. induction candidates as [|g l IH]; intros acc; cbn [fold_left].
  - intros H. left. exact H.
  - intros [H|(g' & Hg' & Hid & Hs)]%IH.
    + destruct (scoreOf g) as [s|] eqn:Hs; [|left; exact H].
      apply elem_of_app in H as [H|H]; [left; exact H|].
      apply list_elem_of_singleton in H as ->. right. exists g.
      split; [apply list_elem_of_here|]. split; [reflexivity|exact Hs].
    + right. exists g'. split; [apply list_elem_of_further, Hg'|].
      split; assumption.
Qed.

Lemma sortSliceRank_elem chartList limit e :
  e ∈ sortSliceRank chartList limit ->
  exists e0, e0 ∈ chartList /\ entryGameId e = entryGameId e0
             /\ entryScore e = entryScore e0.
Proof.
  unfold sortSliceRank. intros (i & Hi)%list_elem_of_lookup.
  rewrite list_lookup_imap in Hi.
  destruct (Array_slice0 _ _ !! i) as [e0|] eqn:He0; [|discriminate].
  cbn in Hi. injection Hi as <-. exists e0. split; [|split; reflexivity].
  apply list_elem_of_lookup_2 in He0. unfold Array_slice0 in He0.
  apply (fun H => elem_of_sublist _ _ _ H (sublist_take _ _)) in He0.
  rewrite (sort_perm entryScore) in He0. exact He0.
Qed.

Lemma chart_drawn_from (scoreOf : Game -> option Q) (passes : Game -> bool)
    candidates limit :
  (forall g, is_Some (scoreOf g) -> passes g = true) ->
  chartDrawnFrom scoreOf (List.filter passes candidates)
    (sortSliceRank (collect scoreOf candidates) limit).
Proof.
  intros Hp. apply Forall_forall. intros e He.
  apply sortSliceRank_elem in He as (e0 & He0 & Hid & Hsc).
  apply collect_elem_from in He0 as [He0|(g & Hg & Hid0 & Hs0)].
  - apply elem_of_nil in He0. contradiction.
  - exists g. rewrite Hid, Hsc. split; [|split; assumption].
    apply elem_of_filter_bool. split; [exact Hg|]. apply Hp. eauto.
Qed.

Lemma sortSliceRank_prefix chartList shorter longer :
  0 <= shorter <= longer ->
  sortSliceRank chartList shorter
  = take (Z.to_nat shorter) (sortSliceRank chartList longer).
Proof.
  intros Hle. unfold sortSliceRank.
  rewrite !slice0_take by lia.
  apply list_eq. intros i.
  destruct (decide (i < Z.to_nat shorter)%nat) as [Hi|Hi].
  - rewrite lookup_take_lt by exact Hi.
    rewrite !list_lookup_imap, !lookup_take_lt by lia. reflexivity.
  - rewrite lookup_take_ge by lia.
    rewrite list_lookup_imap, lookup_take_ge by lia. reflexivity.
Qed.

Lemma chart_length (scoreOf : Game -> option Q) (passes : Game -> bool)
    candidates limit :
  (forall g, is_Some (scoreOf g) <-> passes g = true) ->
  chartLength (length (List.filter passes candidates)) limit
    (sortSliceRank (collect scoreOf candidates) limit).
Proof.
  intros Hp. unfold chartLength.
  rewrite sortSliceRank_length, (collect_length scoreOf passes) by exact Hp.
  reflexivity.
Qed.

Lemma upAndComing_passes Math_log Date_now this a p g :
  is_Some (upAndComingScore Math_log Date_now this a p g)
  <-> releasedWithin30Days Date_now g = true.
Proof.
  unfold upAndComingScore, releasedWithin30Days.
  rewrite Z.gtb_ltb, Z.leb_antisym.
  destruct (30 <? _); cbn [negb]; split; intros H; try discriminate; eauto.
  destruct H; discriminate.
Qed.

Lemma replayed_passes this a p g :
  is_Some (replayedScore this a p g) <-> hasPlayers this a p g = true.
Proof.
  unfold replayedScore, hasPlayers.
  destruct (Qeq_bool _ _); cbn [negb]; split; intros H; try discriminate; eauto.
  destruct H; discriminate.
Qed.

Lemma rated_passes Math_log this a p g :
  is_Some (ratedScore Math_log this a p g) <-> hasReactions this a p g = true.
Proof.
  unfold ratedScore, hasReactions.
  destruct (Qeq_bool _ _); cbn [negb]; split; intros H; try discriminate; eauto.
  destruct H; discriminate.
Qed.

Lemma always_passes (scoreOf : Game -> option Q) :
  (forall g, is_Some (scoreOf g)) ->
  forall g, is_Some (scoreOf g) <-> (fun _ : Game => true) g = true.
Proof. intros H g. split; [reflexivity|]. intros _. apply H. Qed.

Lemma filter_true {A} (l : list A) : List.filter (fun _ => true) l = l.
Proof. apply filter_all, Forall_forall. reflexivity. Qed.

Lemma inGenre_filter genreId (l : list Game) :
  List.filter (fun g => bool_decide (is_Some (genreVector g !! genreId))) l
  = List.filter (inGenre genreId) l.
Proof.
  apply List.filter_ext. intros g. unfold inGenre.
  apply bool_decide_ext. symmetry. apply elem_of_dom.
Qed.

End ChartMore.

(** X19. A chart lists only candidates that pass its kind's filter, each
    under its own identifier and with the score the kind's formula gives
    it: Up & Coming only games released within 30 days, Top Re-Played
    only games with players, Top Rated only games with reactions,
    Trending in Genre only games of the genre. *)
Theorem charts_drawn_from_passing (Math_log : Q -> Q) (Date_now : Z)
    (this : ChartGenerator.ChartDataSource) (a : AgeBand) (p : Platform)
    (limit : Z) (genreId : Z) :
  let candidates := ChartGenerator.fetchGamesByAgeAndPlatform this a p in
  chartDrawnFrom (ChartGenerator.trendingScore this a p) candidates
    (ChartGenerator.generateTopTrending this a p limit)
  /\ chartDrawnFrom (ChartGenerator.upAndComingScore Math_log Date_now this a p)
       (List.filter (releasedWithin30Days Date_now) candidates)
       (ChartGenerator.generateUpAndComing Math_log Date_now this a p limit)
  /\ chartDrawnFrom (ChartGenerator.playingNowScore this a p) candidates
       (ChartGenerator.generateTopPlayingNow this a p limit)
  /\ chartDrawnFrom (ChartGenerator.replayedScore this a p)
       (List.filter (hasPlayers this a p) candidates)
       (ChartGenerator.generateTopReplayed this a p limit)
  /\ chartDrawnFrom (ChartGenerator.earningScore this a p) candidates
       (ChartGenerator.generateTopEarning this a p limit)
  /\ chartDrawnFrom (ChartGenerator.ratedScore Math_log this a p)
       (List.filter (hasReactions this a p) candidates)
       (ChartGenerator.generateTopRated Math_log this a p limit)
  /\ chartDrawnFrom (ChartGenerator.trendingScore this a p)
       (List.filter (inGenre genreId) candidates)
       (ChartGenerator.generateTrendingInGenre this genreId a p limit).
Proof.
  intros candidates.
  pose proof (fun scoreOf =>
                chart_drawn_from scoreOf (fun _ => true) candidates limit
                  (fun g _ => eq_refl)) as Hall.
  rewrite filter_true in Hall.
  repeat split_and; try apply Hall.
  - apply chart_drawn_from. intros g. apply upAndComing_passes.
  - apply chart_drawn_from. intros g. apply replayed_passes.
  - apply chart_drawn_from. intros g. apply rated_passes.
  - unfold ChartGenerator.generateTrendingInGenre. cbv zeta.
    rewrite inGenre_filter.
    rewrite <- (filter_true (List.filter (inGenre genreId) _)) at 1.
    apply chart_drawn_from. intros g _. reflexivity.
Qed.

(** X20. Asking for fewer entries gives the head of the longer chart:
    for [0 <= shorter <= longer] the chart of limit [shorter] is the
    first [shorter] entries of the chart of limit [longer], ranks
    included. *)
Theorem charts_prefix (Math_log : Q -> Q) (Date_now : Z)
    (this : ChartGenerator.ChartDataSource) (a : AgeBand) (p : Platform)
    (shorter longer : Z) (genreId : Z) :
  0 <= shorter <= longer ->
  let m := Z.to_nat shorter in
  ChartGenerator.generateTopTrending this a p shorter
  = take m (ChartGenerator.generateTopTrending this a p longer)
  /\ ChartGenerator.generateUpAndComing Math_log Date_now this a p shorter
     = take m (ChartGenerator.generateUpAndComing Math_log Date_now this a p longer)
  /\ ChartGenerator.generateTopPlayingNow this a p shorter
     = take m (ChartGenerator.generateTopPlayingNow this a p longer)
  /\ ChartGenerator.generateTopReplayed this a p shorter
     = take m (ChartGenerator.generateTopReplayed this a p longer)
  /\ ChartGenerator.generateTopEarning this a p shorter
     = take m (ChartGenerator.generateTopEarning this a p longer)
  /\ ChartGenerator.generateTopRated Math_log this a p shorter
     = take m (ChartGenerator.generateTopRated Math_log this a p longer)
  /\ ChartGenerator.generateTrendingInGenre this genreId a p shorter
     = take m (ChartGenerator.generateTrendingInGenre this genreId a p longer).
Proof.
  intros Hle m. repeat split_and; apply sortSliceRank_prefix; exact Hle.
Qed.

Lemma charts_prefix_witness :
  ChartGenerator.generateTopTrending Samples.twoGameCharts UNDER_9 PC 2
  = [{| entryGameId := "b"; entryScore := 9; rank := 1 |};
     {| entryGameId := "a"; entryScore := 5; rank := 2 |}]
  /\ ChartGenerator.generateTopTrending Samples.twoGameCharts UNDER_9 PC 1
     = take 1 (ChartGenerator.generateTopTrending Samples.twoGameCharts UNDER_9 PC 2).
Proof.
  split; [vm_compute; reflexivity|].
  apply (charts_prefix Samples.zeroMath 0 Samples.twoGameCharts UNDER_9 PC 1 2 1).
  lia.
Defined.

(** X21. The length of a chart for every limit: [min(limit, passing)]
    entries for [limit >= 0], so none for [limit = 0], and
    [max(0, passing + limit)] entries for a negative limit, which drops
    entries from the end of the ranking. *)
Theorem charts_length_any_limit (Math_log : Q -> Q) (Date_now : Z)
    (this : ChartGenerator.ChartDataSource) (a : AgeBand) (p : Platform)
    (limit : Z) (genreId : Z) :
  let candidates := ChartGenerator.fetchGamesByAgeAndPlatform this a p in
  chartLength (length candidates) limit
    (ChartGenerator.generateTopTrending this a p limit)
  /\ chartLength (length (List.filter (releasedWithin30Days Date_now) candidates))
       limit (ChartGenerator.generateUpAndComing Math_log Date_now this a p limit)
  /\ chartLength (length candidates) limit
       (ChartGenerator.generateTopPlayingNow this a p limit)
  /\ chartLength (length (List.filter (hasPlayers this a p) candidates)) limit
       (ChartGenerator.generateTopReplayed this a p limit)
  /\ chartLength (length candidates) limit
       (ChartGenerator.generateTopEarning this a p limit)
  /\ chartLength (length (List.filter (hasReactions this a p) candidates)) limit
       (ChartGenerator.generateTopRated Math_log this a p limit)
  /\ chartLength (length (List.filter (inGenre genreId) candidates)) limit
       (ChartGenerator.generateTrendingInGenre this genreId a p limit).
Proof.
  intros candidates.
  pose proof (fun scoreOf H =>
                chart_length scoreOf (fun _ => true) candidates limit
                  (always_passes scoreOf H)) as Hall.
  rewrite filter_true in Hall.
  repeat split_and.
  - apply Hall. intros g. eexists. reflexivity.
  - apply chart_length. intros g. apply upAndComing_passes.
  - apply Hall. intros g. eexists. reflexivity.
  - apply chart_length. intros g. apply replayed_passes.
  - apply Hall. intros g. eexists. reflexivity.
  - apply chart_length. intros g. apply rated_passes.
  - unfold ChartGenerator.generateTrendingInGenre. cbv zeta.
    rewrite inGenre_filter.
    rewrite <- (filter_true (List.filter (inGenre genreId) _)) at 1.
    apply chart_length. apply always_passes. intros g. eexists. reflexivity.
Qed.

(** ** The engine, further *)

Lemma spread_overlay (config : RecommendationConfig)
    (first second : PartialConfig.t) :
  spread (spread config first) second = spread config (overlayPartial first second).
Proof.
  destruct first as [w1 m1 r1 g1 c1 a1 b1 x1 s1 d1],
    second as [w2 m2 r2 g2 c2 a2 b2 x2 s2 d2].
  unfold spread, overlayPartial. cbn.
  f_equal;
    repeat match goal with
           | |- context [default _ ?o] => is_var o; destruct o
           end;
    reflexivity.
Qed.

Lemma spread_empty (config : RecommendationConfig) :
  spread config PartialConfig.empty = config.
Proof. destruct config. reflexivity. Qed.

(** X22. Reconfigurations compose: two [updateConfig] calls in a row
    leave the engine as one call with the two partial configurations
    overlaid, the later one winning; so a repeated call changes nothing
    more, and a call without fields leaves the config as it was. *)
Theorem updateConfig_compose (this : RecommendationEngine.t)
    (first second : PartialConfig.t) :
  RecommendationEngine.updateConfig
    (RecommendationEngine.updateConfig this first) second
  = RecommendationEngine.updateConfig this (overlayPartial first second)
  /\ RecommendationEngine.updateConfig
       (RecommendationEngine.updateConfig this first) first
     = RecommendationEngine.updateConfig this first
  /\ RecommendationEngine.getConfig
       (RecommendationEngine.updateConfig this PartialConfig.empty)
     = RecommendationEngine.getConfig this.
Proof.
  unfold RecommendationEngine.updateConfig, RecommendationEngine.getConfig.
  cbn [RecommendationEngine.config RecommendationEngine.candidateGenerator
       RecommendationEngine.eligibilityFilter RecommendationEngine.sponsoredInjector
       RecommendationEngine.chartGenerator].
  split; [rewrite spread_overlay; reflexivity|]. split.
  - rewrite spread_overlay.
    assert (Hsame : spread (RecommendationEngine.config this)
                      (overlayPartial first first)
                    = spread (RecommendationEngine.config this) first).
    { destruct first as [w m r g c a b x s d]. unfold spread, overlayPartial. cbn.
      f_equal;
        repeat match goal with
               | |- context [default _ ?o] => is_var o; destruct o
               end;
        reflexivity. }
    rewrite Hsame. reflexivity.
  - apply spread_empty.
Qed.

(** X23. What [generateChart] does with its arguments: it throws exactly
    for an unknown chart type and for the genre-scoped chart without a
    genre id or with genre id 0; an unknown type is named in the
    message. *)
Theorem generateChart_outcomes (Math_log : Q -> Q) (Date_now : Z)
    (this : RecommendationEngine.t) (chartType : string) (a : AgeBand)
    (p : Platform) (limit : Z) (genreId : option Z) :
  ((exists message,
       RecommendationEngine.generateChart Math_log Date_now this chartType a p
         limit genreId
       = Throw message)
   <-> chartType ∉ ChartType.known
       \/ (chartType = ChartType.TRENDING_IN_GENRE
           /\ (genreId = None \/ genreId = Some 0)))
  /\ (chartType ∉ ChartType.known ->
      RecommendationEngine.generateChart Math_log Date_now this chartType a p
        limit genreId
      = Throw ("Unknown chart type: " ++ chartType)).
Proof.
  split; [apply generateChart_throws|].
  intros Hunknown. unfold RecommendationEngine.generateChart.
  unfold ChartType.known in Hunknown.
  repeat
    (match goal with
     | |- context [String.eqb chartType ?c] =>
         destruct (String.eqb chartType c) eqn:?;
         [match goal with
          | H : String.eqb chartType c = true |- _ =>
              apply String.eqb_eq in H; subst chartType;
              exfalso; apply Hunknown;
              rewrite !elem_of_cons; tauto
          end|]
     end).
  reflexivity.
Qed.

(** X24. Outside the configuration domain: with [maxResults <= 1] the
    diversified list has at most one item (the loop stops after its
    first push), and with [maxPerGenre <= 0] it holds only games that
    declare no genre. *)
Theorem diversify_degenerate_caps (config : RecommendationConfig)
    (sortedGames : list ScoredGame) :
  let out := (DiversityPass.diversify config sortedGames).1 in
  (maxResults config <= 1 -> (length out <= 1)%nat)
  /\ (maxPerGenre (diversityRules config) <= 0 ->
      Forall (fun sg => genreVector (game sg) = ∅) out).
Proof.
  intros out. subst out.
  destruct (diversify_caps config sortedGames) as [Hlen Hcap]. split.
  - intros Hres. lia.
  - intros Hmax. apply Forall_forall. intros sg Hsg.
    apply map_empty. intros g.
    destruct (genreVector (game sg) !! g) as [w|] eqn:Hg; [|reflexivity].
    exfalso. specialize (Hcap g).
    assert (Hpos : (0 < genreCount g (DiversityPass.diversify config sortedGames).1)%nat).
    { apply genreCount_positive. exists sg. split; [exact Hsg|]. rewrite Hg. eauto. }
    lia.
Qed.

(** ** The pipeline, further *)

Section PipelineMore.
Import RecommendationEngine.

Variables Math_log Math_exp Math_sqrt : Q -> Q.
Variable Date_now : Z.
Variable this : t.
Variable userContext : UserContext.
Variable userHistory : UserHistory.

Local Abbreviation candidates :=
  (CandidateGenerator.generateCandidates (candidateGenerator this) userContext).
Local Abbreviation eligible :=
  (EligibilityFilter.filterEligible (eligibilityFilter this) candidates
     userContext).
Local Abbreviation scored :=
  (ScoringEngine.scoreGames Math_log Math_exp Math_sqrt Date_now
     (scoringEngine this) eligible userContext userHistory).
Local Abbreviation diversified :=
  ((DiversityPass.diversify (diversityPass this) scored).1).
Local Abbreviation sponsoredGames :=
  (List.filter (fun sg => isSponsored (game sg)) scored).

Lemma scored_ids_NoDup : NoDup (SponsoredInjector.gameIdOf <$> scored).
Proof.
  assert (Hperm : SponsoredInjector.gameIdOf <$> scored ≡ₚ gameId <$> eligible).
  { rewrite scoreGames_perm, <- list_fmap_compose. reflexivity. }
  rewrite Hperm, filterEligible_filter.
  eapply sublist_NoDup; [|apply fmap_sublist, filter_sublist].
  rewrite generateCandidates_firstBy. apply firstBy_NoDup.
Qed.

Lemma diversified_sublist : diversified `sublist_of` scored.
Proof.
  rewrite diversify_loop.
  destruct (diversifyLoop_extends (diversityPass this) scored [] ∅)
    as (added & -> & Hsub).
  exact Hsub.
Qed.

Lemma injectSponsored_ids_NoDup (maxSponsoredPerList : Z)
    (D S : list ScoredGame) :
  NoDup (SponsoredInjector.gameIdOf <$> D) ->
  NoDup (SponsoredInjector.gameIdOf <$> S) ->
  NoDup (SponsoredInjector.gameIdOf
           <$> SponsoredInjector.injectSponsored maxSponsoredPerList D S).
Proof.
  intros HD HS. rewrite injectSponsored_perm, fmap_app.
  apply NoDup_app. split; [exact HD|]. split.
  - intros x Hx (sg & -> & Hsg)%list_elem_of_fmap.
    pose proof (eligibleSponsored_spec maxSponsoredPerList D S) as Hall.
    rewrite Forall_forall in Hall. specialize (Hall sg Hsg).
    apply bool_decide_eq_false_1 in Hall.
    apply Hall, elem_of_list_to_set, Hx.
  - eapply sublist_NoDup; [exact HS|]. apply fmap_sublist.
    unfold Array_slice0.
    etransitivity; [apply sublist_take|apply filter_sublist].
Qed.

Lemma withSponsored_ids_NoDup :
  NoDup (SponsoredInjector.gameIdOf
           <$> SponsoredInjector.injectSponsored (sponsoredInjector this)
                 diversified sponsoredGames).
Proof.
  apply injectSponsored_ids_NoDup.
  - eapply sublist_NoDup; [apply scored_ids_NoDup|].
    apply fmap_sublist, diversified_sublist.
  - eapply sublist_NoDup; [apply scored_ids_NoDup|].
    apply fmap_sublist, filter_sublist.
Qed.

Lemma sponsoredGames_ids (gid : string) :
  gid ∈ SponsoredInjector.gameIdOf <$> sponsoredGames
  <-> exists g, g ∈ candidates /\ gameId g = gid /\ isSponsored g = true
                /\ EligibilityFilter.isEligible (eligibilityFilter this) g
                     userContext = true.
Proof.
  rewrite list_elem_of_fmap. split.
  - intros (sg & -> & Hsg).
    apply elem_of_filter_bool in Hsg as [Hsg Hsp].
    apply scoreGames_game, filterEligible_admits in Hsg as [Hin Hel].
    exists (game sg). repeat split; assumption.
  - intros (g & Hg & <- & Hsp & Hel).
    exists (ScoringEngine.scoreGame Math_log Math_exp Math_sqrt Date_now
              (scoringEngine this) userContext userHistory g).
    split; [reflexivity|].
    apply elem_of_filter_bool. split; [|exact Hsp].
    rewrite scoreGames_perm. apply list_elem_of_fmap_2.
    rewrite filterEligible_filter.
    apply elem_of_filter_bool. split; assumption.
Qed.

Lemma withSponsored_length :
  0 <= sponsoredInjector this ->
  Z.of_nat
    (length (SponsoredInjector.injectSponsored (sponsoredInjector this)
               diversified sponsoredGames))
  <= Z.max 1 (maxResults (diversityPass this)) + sponsoredInjector this.
Proof.
  intros Hmax. rewrite injectSponsored_perm, length_app.
  destruct (diversify_caps (diversityPass this) scored) as [Hlen _].
  rewrite slice0_take by exact Hmax. rewrite length_take. lia.
Qed.

End PipelineMore.

Lemma organizeBuckets_without_trending
    (recommendedGames popularGames sponsoredGames : list ScoredGame) :
  id <$> BucketOrganizer.organizeBuckets recommendedGames popularGames []
           sponsoredGames
  `sublist_of` ["recommended_for_you"; "popular_by_age"; "sponsored_events"].
Proof.
  unfold BucketOrganizer.organizeBuckets.
  destruct recommendedGames as [|r rs], popularGames as [|q qs],
    sponsoredGames as [|s ss];
    cbn [length Nat.ltb Nat.leb app fmap list_fmap BucketOrganizer.createBucket id];
    repeat (first [apply sublist_nil | apply sublist_skip | apply sublist_cons]).
Qed.

(** X25. [generateRecommendations] returns its buckets in the order
    recommended_for_you, popular_by_age, sponsored_events (each one
    present or not), and neither the recommended nor the sponsored
    bucket names a game twice. *)
Theorem generateRecommendations_layout
    (Math_log Math_exp Math_sqrt : Q -> Q) (Date_now : Z)
    (this : RecommendationEngine.t) (userContext : UserContext)
    (userHistory : UserHistory) :
  let buckets :=
    RecommendationEngine.generateRecommendations Math_log Math_exp Math_sqrt
      Date_now this userContext userHistory in
  id <$> buckets
  `sublist_of` ["recommended_for_you"; "popular_by_age"; "sponsored_events"]
  /\ Forall (fun b => id b <> "popular_by_age" -> NoDup (games b)) buckets.
Proof.
  intros buckets. subst buckets.
  unfold RecommendationEngine.generateRecommendations. cbv zeta. split.
  - apply organizeBuckets_without_trending.
  - apply Forall_forall. intros b Hb Hid.
    destruct (organizeBuckets_sources _ _ _ _ b Hb)
      as [[-> _]|[[-> _]|[[_ Hne]|[-> _]]]].
    + apply withSponsored_ids_NoDup.
    + contradiction Hid. reflexivity.
    + contradiction Hne. reflexivity.
    + eapply sublist_NoDup; [apply scored_ids_NoDup|].
      apply fmap_sublist, filter_sublist.
Qed.

(** X26. The sponsored_events bucket names exactly the candidates that
    are sponsored and pass the engine's eligibility filter for the
    user. *)
Theorem generateRecommendations_sponsored_bucket
    (Math_log Math_exp Math_sqrt : Q -> Q) (Date_now : Z)
    (this : RecommendationEngine.t) (userContext : UserContext)
    (userHistory : UserHistory) :
  Forall
    (fun b =>
       id b = "sponsored_events" ->
       forall gid : string,
         gid ∈ games b
         <-> exists g,
               g ∈ CandidateGenerator.generateCandidates
                     (RecommendationEngine.candidateGenerator this) userContext
               /\ gameId g = gid /\ isSponsored g = true
               /\ EligibilityFilter.isEligible
                    (RecommendationEngine.eligibilityFilter this) g userContext
                  = true)
    (RecommendationEngine.generateRecommendations Math_log Math_exp Math_sqrt
       Date_now this userContext userHistory).
Proof.
  apply Forall_forall. intros b Hb Hid gid.
  unfold RecommendationEngine.generateRecommendations in Hb.
  destruct (organizeBuckets_sources _ _ _ _ b Hb)
    as [[-> _]|[[-> _]|[[_ Hne]|[-> _]]]]; try discriminate Hid.
  - contradiction Hne. reflexivity.
  - apply sponsoredGames_ids.
Qed.

(** X27. With [maxResults > 0] and [maxSponsoredPerList >= 0] in the
    engine's components, the recommended_for_you bucket has at most
    [maxResults + maxSponsoredPerList] games. *)
Theorem generateRecommendations_recommended_length
    (Math_log Math_exp Math_sqrt : Q -> Q) (Date_now : Z)
    (this : RecommendationEngine.t) (userContext : UserContext)
    (userHistory : UserHistory) :
  0 < maxResults (RecommendationEngine.diversityPass this) ->
  0 <= RecommendationEngine.sponsoredInjector this ->
  Forall
    (fun b =>
       id b = "recommended_for_you" ->
       Z.of_nat (length (games b))
       <= maxResults (RecommendationEngine.diversityPass this)
          + RecommendationEngine.sponsoredInjector this)
    (RecommendationEngine.generateRecommendations Math_log Math_exp Math_sqrt
       Date_now this userContext userHistory).
Proof.
  intros Hres Hmax. apply Forall_forall. intros b Hb Hid.
  unfold RecommendationEngine.generateRecommendations in Hb.
  destruct (organizeBuckets_sources _ _ _ _ b Hb)
    as [[-> _]|[[-> _]|[[_ Hne]|[-> _]]]]; try discriminate Hid.
  - cbn [BucketOrganizer.createBucket games]. rewrite length_fmap.
    pose proof (withSponsored_length Math_log Math_exp Math_sqrt Date_now this
                  userContext userHistory Hmax) as Hlen.
    lia.
  - contradiction Hne. reflexivity.
Qed.

Lemma generateRecommendations_recommended_length_witness :
  Forall
    (fun b =>
       id b = "recommended_for_you" ->
       Z.of_nat (length (games b)) <= 50 + 3)
    (RecommendationEngine.generateRecommendations Samples.zeroMath
       Samples.zeroMath Samples.zeroMath 0 Samples.mixedEngine Samples.child
       Samples.noHistory).
Proof.
  apply (generateRecommendations_recommended_length Samples.zeroMath
           Samples.zeroMath Samples.zeroMath 0 Samples.mixedEngine Samples.child
           Samples.noHistory).
  - simpl. lia.
  - simpl. lia.
Defined.
